(** * LearningTool backend: progress tracking and reporting

    A shallow embedding of the Django application under [backend/api]
    ([models.py], [serializers.py], [views.py]) and the properties of its
    progress tracker and of its reporting endpoints.

    Conventions of the embedding:
    - Python [int] is [Z]; a [FloatField] / Python [float] is an exact
      rational [Q]: the rounding error of binary floating point is not
      modelled, and what is stated of a computed float is stated up to a
      tolerance, over the range of values where the binary error stays
      below it;
    - a [DateTimeField] is a number of seconds [Z]; a nullable field is an
      [option];
    - a database table is the list of its rows in insertion order;
    - an exception is the [inl] of a [Result];
    - the ORM is the one of Django 4.2 and later, where [update_or_create]
      saves the row that it found with [update_fields]. *)

From Stdlib Require Import ZArith QArith Qabs Qround Lia Lqa.
From stdpp Require Import base list strings pretty sorting.

Open Scope Z_scope.

(** * Python values *)

Module Py.

(** [bool(x)] for the result of an [Avg] aggregate: [None] (no rows) and
    [0.0] are both falsy. *)
Definition truthy (x : option Q) : bool :=
  match x with
  | Some q => negb (Qeq_bool q 0)
  | None => false
  end.

(** [x or 0] for the result of an [Avg] aggregate. *)
Definition or_zero (x : option Q) : Q :=
  match x with
  | Some q => if Qeq_bool q 0 then 0%Q else q
  | None => 0%Q
  end.

(** [bool(x)] for a nullable datetime: [None] is falsy, every datetime is
    truthy. *)
Definition truthy_datetime (x : option Z) : bool :=
  match x with
  | Some _ => true
  | None => false
  end.

(** Rounding to the nearest integer, ties to the even one, as [round]
    does. *)
Definition round_half_even (q : Q) : Z :=
  let f := Qfloor q in
  match (q - inject_Z f ?= 1 # 2)%Q with
  | Lt => f
  | Gt => f + 1
  | Eq => if Z.even f then f else f + 1
  end.

(** [round(q, 2)], on the exact value of [q]. Python rounds the binary
    float that stands for [q], which can lie on the other side of a tie;
    [rounded2] below is what holds of both. *)
Definition round2 (q : Q) : Q := round_half_even (q * 100) # 100.

(** [r] is [x] rounded to two decimals, as far as binary floats can tell:
    [r] is within [1e-6] of a number of hundredths [n / 100] that is
    within [0.005 + 1e-6] of [x]. *)
Definition rounded2 (x r : Q) : Prop :=
  ∃ n : Z, (Qabs (r - (n # 100)) <= 1 # 1000000)%Q
           ∧ (Qabs ((n # 100) - x) <= 5001 # 1000000)%Q.

(** The range in which binary floats compute a quotient [x] over [b]
    without overflow and to within less than [1e-6]: [b] is at most
    [10^300] and [x] at most [10^6] in absolute value. *)
Definition float_range (b x : Q) : Prop :=
  (Qabs b <= inject_Z (10 ^ 300))%Q ∧ (Qabs x <= 1000000)%Q.

(** Two floats within [1e-6] of each other. *)
Definition isclose (a b : Q) : Prop := (Qabs (a - b) <= 1 # 1000000)%Q.

(** [a < b] on two floats. *)
Definition Qlt_bool (a b : Q) : bool := negb (Qle_bool b a).

(** [a / b] on two ints (true division), as the exact quotient; every call
    site tests [b] first. *)
Definition truediv (a b : Z) : Q := (inject_Z a / inject_Z b)%Q.

End Py.

(** * Exceptions *)

Inductive Error : Type :=
  | DoesNotExist
  | MultipleObjectsReturned
  | IntegrityError
  | ValidationError (msg : string)
  | OverflowError
  | DatabaseError
  | ZeroDivisionError.

Definition Result : Type → Type := sum Error.

#[global] Instance Result_ret : MRet Result := λ A a, inr a.

#[global] Instance Result_bind : MBind Result := λ A B k r,
  match r with
  | inl e => inl e
  | inr a => k a
  end.

Definition raise {A : Type} (e : Error) : Result A := inl e.

(** * models.py *)

Module User.

(** The fields of [django.contrib.auth.models.User] that the views read. *)
Record t : Type := Build {
  id : Z;
  last_login : option Z
}.

End User.

Module Course.

Record t : Type := Build {
  id : Z;
  difficulty : string;
  is_active : bool;
  total_lessons : Z
}.

End Course.

Module LearningProgress.

(** [pk] is [None] until the instance has been inserted. *)
Record t : Type := Build {
  pk : option Z;
  user_id : Z;
  course_id : Z;
  lessons_completed : Z;
  current_lesson : Z;
  completion_percentage : Q;
  started_at : Z;
  last_accessed : Z;
  completed_at : option Z;
  time_spent_minutes : Z
}.

Definition set_lessons_completed (v : Z) (self : t) : t :=
  Build (pk self) (user_id self) (course_id self) v (current_lesson self)
    (completion_percentage self) (started_at self) (last_accessed self)
    (completed_at self) (time_spent_minutes self).

Definition set_time_spent_minutes (v : Z) (self : t) : t :=
  Build (pk self) (user_id self) (course_id self) (lessons_completed self)
    (current_lesson self) (completion_percentage self) (started_at self)
    (last_accessed self) (completed_at self) v.

Definition set_completion_percentage (v : Q) (self : t) : t :=
  Build (pk self) (user_id self) (course_id self) (lessons_completed self)
    (current_lesson self) v (started_at self) (last_accessed self)
    (completed_at self) (time_spent_minutes self).

Definition set_completed_at (v : option Z) (self : t) : t :=
  Build (pk self) (user_id self) (course_id self) (lessons_completed self)
    (current_lesson self) (completion_percentage self) (started_at self)
    (last_accessed self) v (time_spent_minutes self).

Definition set_last_accessed (v : Z) (self : t) : t :=
  Build (pk self) (user_id self) (course_id self) (lessons_completed self)
    (current_lesson self) (completion_percentage self) (started_at self)
    v (completed_at self) (time_spent_minutes self).

(** [LearningProgress(user_id=.., course_id=.., **defaults)]: the other
    fields take their declared defaults. *)
Definition new (user course lessons minutes : Z) : t :=
  Build None user course lessons 1 0%Q 0 0 None minutes.

(** The body of [save] up to the call of [super().save]: [course] is
    [self.course] and [now] is [timezone.now()]. *)
Definition save (now : Z) (course : Course.t) (self : t) : t :=
  let self :=
    if 0 <? Course.total_lessons course
    then set_completion_percentage
           (Py.truediv (lessons_completed self) (Course.total_lessons course) * 100)%Q
           self
    else self in
  if Qle_bool 100 (completion_percentage self)
     && negb (Py.truthy_datetime (completed_at self))
  then set_completed_at (Some now) self
  else self.

Definition is_completed (self : t) : bool :=
  Qle_bool 100 (completion_percentage self).

(** The [unique_together] key. *)
Definition key (self : t) : Z * Z := (user_id self, course_id self).

End LearningProgress.

Module UserPerformanceMetric.

Record t : Type := Build {
  user : Z;
  metric_type : string;
  value : Q;
  timestamp : Z;
  is_optimized : bool
}.

(** [order_by('-timestamp')] *)
Definition newer (m1 m2 : t) : Prop := timestamp m2 ≤ timestamp m1.

#[global] Instance newer_dec : RelDecision newer.
Proof. intros m1 m2. unfold newer. apply _. Defined.

(** The earlier baseline samples of the user and metric type of [self]. *)
Definition baselines (objects : list t) (self : t) : list t :=
  filter (λ m, user m = user self ∧ metric_type m = metric_type self
               ∧ is_optimized m = false ∧ timestamp m < timestamp self) objects.

(** The [improvement_percentage] property; [objects] is the table. A model
    instance is always truthy, so [if baseline] tests for [None] only, and
    the division by a baseline of 0 raises. *)
Definition improvement_percentage (objects : list t) (self : t) : Result (option Q) :=
  if negb (is_optimized self) then mret None
  else
    match head (merge_sort newer (baselines objects self)) with
    | Some baseline =>
        if Qeq_bool (value baseline) 0 then raise ZeroDivisionError
        else mret (Some (Py.round2
                           ((value baseline - value self) / value baseline * 100)%Q))
    | None => mret None
    end.

End UserPerformanceMetric.

(** * The ORM: managers, aggregates and the database *)

Module ORM.

(** [Count]: the number of rows of a queryset. *)
Definition Count {A : Type} (rows : list A) : Z := Z.of_nat (length rows).

Definition Sum (vs : list Q) : Q := foldr Qplus 0%Q vs.

(** [Avg] is [None] on the empty queryset, and the exact mean of the
    column otherwise; the database computes the mean in binary floats. *)
Definition Avg (vs : list Q) : option Q :=
  match vs with
  | [] => None
  | _ => Some (Sum vs / inject_Z (Count vs))%Q
  end.

Definition Qmin (a b : Q) : Q := if Qle_bool a b then a else b.
Definition Qmax (a b : Q) : Q := if Qle_bool a b then b else a.

Definition Min (vs : list Q) : option Q :=
  match vs with
  | [] => None
  | v :: vs => Some (foldl Qmin v vs)
  end.

Definition Max (vs : list Q) : option Q :=
  match vs with
  | [] => None
  | v :: vs => Some (foldl Qmax v vs)
  end.

(** [objects.get(...)]: exactly one row must match. *)
Definition get {A : Type} (P : A → Prop) `{!∀ x, Decision (P x)}
    (objects : list A) : Result A :=
  match filter P objects with
  | [] => raise DoesNotExist
  | [x] => mret x
  | _ => raise MultipleObjectsReturned
  end.

(** [Sum] over an integer column: [None] on the empty queryset. *)
Definition SumZ (vs : list Z) : option Z :=
  match vs with
  | [] => None
  | _ => Some (foldr Z.add 0 vs)
  end.

End ORM.

Module APIResponseLog.

Record t : Type := Build {
  endpoint : string;
  method : string;
  response_time_ms : Q;
  status_code : Z;
  timestamp : Z;
  user : option Z;
  cache_hit : bool;
  query_count : Z;
  request_size_bytes : Z;
  response_size_bytes : Z
}.

Definition set_user (v : option Z) (self : t) : t :=
  Build (endpoint self) (method self) (response_time_ms self) (status_code self)
    (timestamp self) v (cache_hit self) (query_count self)
    (request_size_bytes self) (response_size_bytes self).

(** [timedelta(hours=hours)] in seconds. *)
Definition timedelta_hours (hours : Z) : Z := hours * 3600.

Definition get_average_response_time (objects : list t) (now : Z)
    (endpoint_filter : option string) (hours : Z) : Q :=
  let since := now - timedelta_hours hours in
  let queryset := filter (λ l, since ≤ timestamp l) objects in
  let queryset :=
    match endpoint_filter with
    | Some e => if decide (e = "") then queryset
                else filter (λ l, endpoint l = e) queryset
    | None => queryset
    end in
  Py.or_zero (ORM.Avg (response_time_ms <$> queryset)).

Definition get_cache_hit_rate (objects : list t) (now : Z) (hours : Z) : Q :=
  let since := now - timedelta_hours hours in
  let total := ORM.Count (filter (λ l, since ≤ timestamp l) objects) in
  if decide (total = 0) then 0%Q
  else
    let cached :=
      ORM.Count (filter (λ l, since ≤ timestamp l ∧ cache_hit l = true) objects) in
    (Py.truediv cached total * 100)%Q.

End APIResponseLog.

Module DB.

(** The tables, and the sequence that numbers the progress rows. *)
Record t : Type := Build {
  users : list User.t;
  courses : list Course.t;
  progress : list LearningProgress.t;
  progress_seq : Z;
  metrics : list UserPerformanceMetric.t;
  api_logs : list APIResponseLog.t
}.

Definition empty : t := Build [] [] [] 1 [] [].

Definition set_progress (rows : list LearningProgress.t) (seq : Z) (db : t) : t :=
  Build (users db) (courses db) rows seq (metrics db) (api_logs db).

(** A row that would clash with [self] on the [unique_together] key:
    same (user, course), another primary key. *)
Definition clashes (self row : LearningProgress.t) : Prop :=
  LearningProgress.key row = LearningProgress.key self
  ∧ LearningProgress.pk row ≠ LearningProgress.pk self.

#[global] Instance clashes_dec self row : Decision (clashes self row).
Proof. unfold clashes. apply _. Defined.

(** The integers that a column holds: 64 bits on SQLite. The other
    databases hold less, and each of them holds the values up to
    [integer_safe]. *)
Definition integer_max : Z := 9223372036854775807.

Definition integer_safe : Z := 2147483647.

(** A value that the database driver passes on to an integer column; it
    raises [OverflowError] on any other. *)
Definition fits (v : Z) : Prop := - integer_max - 1 ≤ v ≤ integer_max.

#[global] Instance fits_dec v : Decision (fits v).
Proof. unfold fits. apply _. Defined.

(** [super().save()]: the row is written with its [auto_now] fields. The
    driver refuses an integer that the column cannot hold; the database
    refuses a negative value in a [PositiveIntegerField], a row that
    breaks [unique_together] and a row whose user is missing. An instance
    without primary key is inserted, one with a primary key replaces the
    row of that key (and is inserted when no row has it). *)
Definition write (now : Z) (self : LearningProgress.t) (db : t)
    : Result (LearningProgress.t * t) :=
  if decide (¬ (fits (LearningProgress.lessons_completed self)
                ∧ fits (LearningProgress.current_lesson self)
                ∧ fits (LearningProgress.time_spent_minutes self)))
  then raise OverflowError
  else if decide (LearningProgress.lessons_completed self < 0
                  ∨ LearningProgress.current_lesson self < 0
                  ∨ LearningProgress.time_spent_minutes self < 0)
  then raise IntegrityError
  else if decide (Exists (clashes self) (progress db)) then raise IntegrityError
  else if decide (Exists (λ u, User.id u = LearningProgress.user_id self) (users db))
  then
    match LearningProgress.pk self with
    | None =>
        let row :=
          LearningProgress.Build (Some (progress_seq db))
            (LearningProgress.user_id self) (LearningProgress.course_id self)
            (LearningProgress.lessons_completed self)
            (LearningProgress.current_lesson self)
            (LearningProgress.completion_percentage self)
            now now
            (LearningProgress.completed_at self)
            (LearningProgress.time_spent_minutes self) in
        mret (row, set_progress (progress db ++ [row]) (progress_seq db + 1) db)
    | Some k =>
        let row :=
          LearningProgress.Build (Some k)
            (LearningProgress.user_id self) (LearningProgress.course_id self)
            (LearningProgress.lessons_completed self)
            (LearningProgress.current_lesson self)
            (LearningProgress.completion_percentage self)
            (LearningProgress.started_at self) now
            (LearningProgress.completed_at self)
            (LearningProgress.time_spent_minutes self) in
        if decide (Exists (λ r, LearningProgress.pk r = Some k) (progress db))
        then mret (row,
                   set_progress
                     ((λ r, if decide (LearningProgress.pk r = Some k) then row else r)
                        <$> progress db)
                     (progress_seq db) db)
        else mret (row, set_progress (progress db ++ [row]) (progress_seq db) db)
    end
  else raise IntegrityError.

(** [instance.save()]: [LearningProgress.save] with [self.course] fetched
    through the foreign key, then the write. *)
Definition save (now : Z) (self : LearningProgress.t) (db : t)
    : Result (LearningProgress.t * t) :=
  course ← ORM.get (λ c, Course.id c = LearningProgress.course_id self) (courses db);
  write now (LearningProgress.save now course self) db.

(** The row [r] after an UPDATE, from the instance [self], of the
    columns [lessons_completed] and [time_spent_minutes] and of the three
    [DateTimeField]s, [last_accessed] with its [auto_now]. *)
Definition updated (now : Z) (self r : LearningProgress.t) : LearningProgress.t :=
  LearningProgress.Build (LearningProgress.pk r)
    (LearningProgress.user_id r) (LearningProgress.course_id r)
    (LearningProgress.lessons_completed self)
    (LearningProgress.current_lesson r)
    (LearningProgress.completion_percentage r)
    (LearningProgress.started_at self) now
    (LearningProgress.completed_at self)
    (LearningProgress.time_spent_minutes self).

(** [super().save(update_fields=..)], as [update_or_create] asks for it on
    the row that it found: the two defaults and the [DateTimeField]s are
    written. The other columns of the row stay as they are stored,
    [completion_percentage] among them; the instance keeps the value that
    [LearningProgress.save] gave it. The pair of the row is not written,
    so [unique_together] cannot break. *)
Definition write_fields (now : Z) (self : LearningProgress.t) (db : t)
    : Result (LearningProgress.t * t) :=
  match LearningProgress.pk self with
  | None => raise DatabaseError
  | Some k =>
      if decide (¬ (fits (LearningProgress.lessons_completed self)
                    ∧ fits (LearningProgress.time_spent_minutes self)))
      then raise OverflowError
      else if decide (Exists (λ r, LearningProgress.pk r = Some k) (progress db))
      then
        if decide (LearningProgress.lessons_completed self < 0
                   ∨ LearningProgress.time_spent_minutes self < 0)
        then raise IntegrityError
        else
          mret (LearningProgress.set_last_accessed now self,
                set_progress
                  ((λ r, if decide (LearningProgress.pk r = Some k)
                         then updated now self r else r) <$> progress db)
                  (progress_seq db) db)
      else raise DatabaseError
  end.

(** [instance.save(update_fields=..)]: [LearningProgress.save] as in
    [save], then the write of the listed columns. *)
Definition save_update_fields (now : Z) (self : LearningProgress.t) (db : t)
    : Result (LearningProgress.t * t) :=
  course ← ORM.get (λ c, Course.id c = LearningProgress.course_id self) (courses db);
  write_fields now (LearningProgress.save now course self) db.

(** [LearningProgress.objects.update_or_create(user_id=.., course_id=..,
    defaults={lessons_completed, time_spent_minutes})]: a new instance is
    created and saved as a whole when the pair has no row; the row of the
    pair is fetched, given the defaults and saved with [update_fields]
    when it has one. *)
Definition update_or_create (now : Z) (user course lessons minutes : Z) (db : t)
    : Result (LearningProgress.t * bool * t) :=
  match filter (λ r, LearningProgress.key r = (user, course)) (progress db) with
  | [] =>
      '(obj, db) ← save now (LearningProgress.new user course lessons minutes) db;
      mret (obj, true, db)
  | [obj] =>
      let obj := LearningProgress.set_lessons_completed lessons obj in
      let obj := LearningProgress.set_time_spent_minutes minutes obj in
      '(obj, db) ← save_update_fields now obj db;
      mret (obj, false, db)
  | _ => raise MultipleObjectsReturned
  end.

End DB.

(** * serializers.py *)

Module Serializers.

(** A serializer's [errors]: field name to messages; [[]] is the empty
    dict of a valid item. *)
Definition ErrorDict : Type := list (string * list string).

(** [LearningProgressSerializer.validate_lessons_completed]: [instance] is
    [self.instance] and [initial_course] is [self.initial_data.get('course')]. *)
Definition validate_lessons_completed (courses : list Course.t)
    (instance : option LearningProgress.t) (initial_course : option Z)
    (value : Z) : Result Z :=
  let check (course : Course.t) : Result Z :=
    if decide (Course.total_lessons course < value)
    then raise (ValidationError
                  ("Cannot complete more than "
                     +:+ pretty (Course.total_lessons course) +:+ " lessons"))
    else mret value in
  match instance, initial_course with
  | Some inst, _ =>
      course ← ORM.get (λ c, Course.id c = LearningProgress.course_id inst) courses;
      check course
  | None, Some cid =>
      course ← ORM.get (λ c, Course.id c = cid) courses;
      check course
  | None, None => mret value
  end.

(** [UserPerformanceMetricSerializer.validate_value] *)
Definition validate_value (value : Q) : Result Q :=
  if Py.Qlt_bool value 0
  then raise (ValidationError "Metric value must be positive")
  else mret value.

(** One element of the body of a bulk request. *)
Record BulkItem : Type := Build_BulkItem {
  user_id : Z;
  course_id : Z;
  lessons_completed : Z;
  time_spent_minutes : Z
}.

Definition min_value_message : string :=
  "Ensure this value is greater than or equal to 0.".

(** The serializer field of a [PositiveIntegerField] of the model: an
    [IntegerField(min_value=0)]. *)
Definition validate_min_value (value : Z) : Result Z :=
  if decide (value < 0) then raise (ValidationError min_value_message)
  else mret value.

(** The serializer field of a foreign key of the model, a
    [PrimaryKeyRelatedField]: the row of the primary key must exist. *)
Definition does_not_exist_message (pk : Z) : string :=
  "Invalid pk " +:+ String (Ascii.ascii_of_nat 34) (pretty pk)
    +:+ String (Ascii.ascii_of_nat 34) " - object does not exist.".

Definition validate_related {A : Type} (id : A → Z) (objects : list A) (pk : Z)
    : Result Z :=
  if decide (Exists (λ x, id x = pk) objects) then mret pk
  else raise (ValidationError (does_not_exist_message pk)).

(** The declared fields of [BulkLearningProgressSerializer]: the two
    [IntegerField(min_value=0)]. *)
Definition field_errors (data : BulkItem) : ErrorDict :=
  (if decide (lessons_completed data < 0)
   then [("lessons_completed", [min_value_message])] else [])
  ++ (if decide (time_spent_minutes data < 0)
      then [("time_spent_minutes", [min_value_message])] else []).

(** [BulkLearningProgressSerializer.validate] *)
Definition validate (db : DB.t) (data : BulkItem) : Result BulkItem :=
  match ORM.get (λ u, User.id u = user_id data) (DB.users db) with
  | inl DoesNotExist =>
      raise (ValidationError
               ("User with id " +:+ pretty (user_id data) +:+ " does not exist"))
  | inl e => raise e
  | inr _ =>
      match ORM.get (λ c, Course.id c = course_id data) (DB.courses db) with
      | inl DoesNotExist =>
          raise (ValidationError
                   ("Course with id " +:+ pretty (course_id data) +:+ " does not exist"))
      | inl e => raise e
      | inr _ => mret data
      end
  end.

(** [run_validation] of one item: the fields, then [validate]; a
    [ValidationError] becomes the item's error dict. *)
Definition run_validation (db : DB.t) (data : BulkItem) : Result (ErrorDict + BulkItem) :=
  match field_errors data with
  | [] =>
      match validate db data with
      | inr d => mret (inr d)
      | inl (ValidationError msg) => mret (inl [("non_field_errors", [msg])])
      | inl e => raise e
      end
  | errs => mret (inl errs)
  end.

(** [BulkLearningProgressSerializer(data=.., many=True).is_valid()]: every
    item is validated, a valid one adds to [ret] and adds the empty dict
    to [errors]; when [any(errors)] the result is [errors], otherwise it
    is [validated_data]. *)
Definition is_valid (db : DB.t) (data : list BulkItem)
    : Result (list ErrorDict + list BulkItem) :=
  rs ← mapM (run_validation db) data;
  let ret :=
    omap (λ r : ErrorDict + BulkItem,
            match r with inr d => Some d | inl _ => None end) rs in
  let errors :=
    (λ r : ErrorDict + BulkItem,
       match r with inl e => e | inr _ => [] end) <$> rs in
  if decide (Exists (λ e : ErrorDict, e ≠ []) errors)
  then mret (inl errors)
  else mret (inr ret).

(** [APIResponseLogSerializer.validate_status_code] *)
Definition validate_status_code (value : Z) : Result Z :=
  if decide (value < 100 ∨ 599 < value)
  then raise (ValidationError "Invalid HTTP status code")
  else mret value.

(** ** The computed fields of [UserSerializer] and [CourseSerializer] *)

(** [obj.learning_progress] for a user and for a course: the reverse side
    of the two foreign keys. *)
Definition user_learning_progress (db : DB.t) (obj : User.t) : list LearningProgress.t :=
  filter (λ r, LearningProgress.user_id r = User.id obj) (DB.progress db).

Definition course_learning_progress (db : DB.t) (obj : Course.t)
    : list LearningProgress.t :=
  filter (λ r, LearningProgress.course_id r = Course.id obj) (DB.progress db).

(** [filter(completion_percentage=100)] *)
Definition completed (rows : list LearningProgress.t) : list LearningProgress.t :=
  filter (λ r, Qeq_bool (LearningProgress.completion_percentage r) 100 = true) rows.

Definition get_total_courses (db : DB.t) (obj : User.t) : Z :=
  ORM.Count (user_learning_progress db obj).

Definition get_completed_courses (db : DB.t) (obj : User.t) : Z :=
  ORM.Count (completed (user_learning_progress db obj)).

Definition get_average_completion (db : DB.t) (obj : User.t) : Q :=
  Py.round2
    (Py.or_zero
       (ORM.Avg (LearningProgress.completion_percentage <$> user_learning_progress db obj))).

(** [total['total_time'] or 0] *)
Definition get_total_time_spent (db : DB.t) (obj : User.t) : Z :=
  match ORM.SumZ (LearningProgress.time_spent_minutes <$> user_learning_progress db obj) with
  | Some total => if decide (total = 0) then 0 else total
  | None => 0
  end.

(** [Course.enrollment_count]: the distinct users of the progress rows of
    the course. *)
Definition enrollment_count (db : DB.t) (obj : Course.t) : Z :=
  ORM.Count (remove_dups (LearningProgress.user_id <$> course_learning_progress db obj)).

Definition get_average_progress (db : DB.t) (obj : Course.t) : Q :=
  Py.round2
    (Py.or_zero
       (ORM.Avg (LearningProgress.completion_percentage
                   <$> course_learning_progress db obj))).

Definition get_completion_rate (db : DB.t) (obj : Course.t) : Q :=
  let total_enrolled := ORM.Count (course_learning_progress db obj) in
  if decide (total_enrolled = 0) then 0%Q
  else
    let completed := ORM.Count (completed (course_learning_progress db obj)) in
    Py.round2 (Py.truediv completed total_enrolled * 100).

End Serializers.

(** * views.py *)

Module Views.

Import Serializers.

Inductive BulkResponse : Type :=
  | HTTP_200_OK (updated_count : Z)
  | HTTP_400_BAD_REQUEST (errors : list ErrorDict)
  | HTTP_500 (e : Error).

(** The loop of [bulk_update] over [serializer.validated_data]; an
    exception leaves the loop with the database as it is then. *)
Fixpoint bulk_update_loop (now : Z) (items : list BulkItem) (updated_count : Z)
    (db : DB.t) : BulkResponse * DB.t :=
  match items with
  | [] => (HTTP_200_OK updated_count, db)
  | item :: items =>
      match DB.update_or_create now (user_id item) (course_id item)
              (lessons_completed item) (time_spent_minutes item) db with
      | inl e => (HTTP_500 e, db)
      | inr (_, _, db) => bulk_update_loop now items (updated_count + 1) db
      end
  end.

(** [LearningProgressViewSet.bulk_update]. The row that the logging mixin
    adds to the API log after each request is a step of its own, see
    [System.step_other]. *)
Definition bulk_update (now : Z) (data : list BulkItem) (db : DB.t)
    : BulkResponse * DB.t :=
  match is_valid db data with
  | inl e => (HTTP_500 e, db)
  | inr (inr validated_data) => bulk_update_loop now validated_data 0 db
  | inr (inl errors) => (HTTP_400_BAD_REQUEST errors, db)
  end.

(** ** The single-record endpoints of [LearningProgressViewSet]

    The viewset is a [ModelViewSet]: its create, update and destroy
    actions run [LearningProgressSerializer] and then save or delete the
    row. The serializer collects the [ValidationError]s of its fields and
    raises them together at the end, and any other exception of a field
    ends the request at once: the model has the integer fields first,
    [lessons_completed] with its own validator
    [validate_lessons_completed], then the two foreign keys, and keeps
    the first error. *)

Definition create (now : Z) (user course lessons current minutes : Z) (db : DB.t)
    : Result (LearningProgress.t * DB.t) :=
  lessons ← validate_min_value lessons;
  lessons ← validate_lessons_completed (DB.courses db) None (Some course) lessons;
  current ← validate_min_value current;
  minutes ← validate_min_value minutes;
  user ← validate_related User.id (DB.users db) user;
  course ← validate_related Course.id (DB.courses db) course;
  DB.save now
    (LearningProgress.Build None user course lessons current 0%Q 0 0 None minutes) db.

Definition update (now : Z) (pk : Z) (user course lessons current minutes : Z)
    (db : DB.t) : Result (LearningProgress.t * DB.t) :=
  instance ← ORM.get (λ r, LearningProgress.pk r = Some pk) (DB.progress db);
  lessons ← validate_min_value lessons;
  lessons ← validate_lessons_completed (DB.courses db) (Some instance) (Some course) lessons;
  current ← validate_min_value current;
  minutes ← validate_min_value minutes;
  user ← validate_related User.id (DB.users db) user;
  course ← validate_related Course.id (DB.courses db) course;
  DB.save now
    (LearningProgress.Build (Some pk) user course lessons current
       (LearningProgress.completion_percentage instance)
       (LearningProgress.started_at instance)
       (LearningProgress.last_accessed instance)
       (LearningProgress.completed_at instance) minutes) db.

Definition destroy (pk : Z) (db : DB.t) : DB.t :=
  DB.set_progress
    (filter (λ r, LearningProgress.pk r ≠ Some pk) (DB.progress db))
    (DB.progress_seq db) db.

(** Deleting a course or a user removes the progress rows and the metrics
    that refer to it ([on_delete=models.CASCADE]); the logged calls of a
    deleted user stay, without their user ([on_delete=models.SET_NULL]). *)
Definition destroy_course (course : Z) (db : DB.t) : DB.t :=
  DB.Build (DB.users db)
    (filter (λ c, Course.id c ≠ course) (DB.courses db))
    (filter (λ r, LearningProgress.course_id r ≠ course) (DB.progress db))
    (DB.progress_seq db) (DB.metrics db) (DB.api_logs db).

Definition destroy_user (user : Z) (db : DB.t) : DB.t :=
  DB.Build
    (filter (λ u, User.id u ≠ user) (DB.users db))
    (DB.courses db)
    (filter (λ r, LearningProgress.user_id r ≠ user) (DB.progress db))
    (DB.progress_seq db)
    (filter (λ m, UserPerformanceMetric.user m ≠ user) (DB.metrics db))
    ((λ l, if decide (APIResponseLog.user l = Some user)
           then APIResponseLog.set_user None l else l) <$> DB.api_logs db).

(** ** [UserPerformanceMetricViewSet.comparison] *)

Record Comparison : Type := Build_Comparison {
  metric_type : string;
  before_optimization : Q;
  after_optimization : Q;
  improvement_percentage : Q;
  sample_size : Z
}.

Definition metric_types : list string :=
  ["page_load"; "api_response"; "engagement"; "conversion"].

(** The samples of one metric type in one of the two groups. *)
Definition group (objects : list UserPerformanceMetric.t) (metric_type : string)
    (optimized : bool) : list UserPerformanceMetric.t :=
  filter (λ m, UserPerformanceMetric.metric_type m = metric_type
               ∧ UserPerformanceMetric.is_optimized m = optimized) objects.

Definition avg_value (rows : list UserPerformanceMetric.t) : option Q :=
  ORM.Avg (UserPerformanceMetric.value <$> rows).

(** The body of the loop of [comparison] for one metric type: [Some] of
    the appended entry, or [None] when nothing is appended. The division
    is under the test that [before] is truthy. *)
Definition compare (objects : list UserPerformanceMetric.t) (metric_type : string)
    : option Comparison :=
  let before := avg_value (group objects metric_type false) in
  let after := avg_value (group objects metric_type true) in
  if Py.truthy before && Py.truthy after then
    b ← before;
    a ← after;
    let improvement := ((b - a) / b * 100)%Q in
    Some (Build_Comparison metric_type (Py.round2 b) (Py.round2 a)
            (Py.round2 improvement)
            (ORM.Count
               (filter (λ m, UserPerformanceMetric.metric_type m = metric_type)
                  objects)))
  else None.

Definition comparison (objects : list UserPerformanceMetric.t) : list Comparison :=
  omap (compare objects) metric_types.

(** ** [APIResponseLogViewSet.statistics] *)

(** One row of the annotated queryset. *)
Record Stat : Type := Build_Stat {
  stat_endpoint : string;
  stat_total_requests : Z;
  stat_average_response_time : option Q;
  stat_min_response_time : option Q;
  stat_max_response_time : option Q;
  stat_cache_hits : Z;
  stat_errors : Z
}.

Record StatRow : Type := Build_StatRow {
  endpoint : string;
  total_requests : Z;
  average_response_time : option Q;
  min_response_time : option Q;
  max_response_time : option Q;
  cache_hit_rate : Q;
  error_rate : Q
}.

(** [.values('endpoint').annotate(...)] for the group of one endpoint. *)
Definition annotate (rows : list APIResponseLog.t) (e : string) : Stat :=
  let group := filter (λ l, APIResponseLog.endpoint l = e) rows in
  let times := APIResponseLog.response_time_ms <$> group in
  Build_Stat e (ORM.Count group) (ORM.Avg times) (ORM.Min times) (ORM.Max times)
    (ORM.Count (filter (λ l, APIResponseLog.cache_hit l = true) group))
    (ORM.Count (filter (λ l, 400 ≤ APIResponseLog.status_code l) group)).

(** The body of the loop over [stats]. *)
Definition stat_row (stat : Stat) : StatRow :=
  let total := stat_total_requests stat in
  Build_StatRow (stat_endpoint stat) total
    (Py.round2 <$> stat_average_response_time stat)
    (Py.round2 <$> stat_min_response_time stat)
    (Py.round2 <$> stat_max_response_time stat)
    (if decide (0 < total)
     then Py.round2 (Py.truediv (stat_cache_hits stat) total * 100)
     else 0%Q)
    (if decide (0 < total)
     then Py.round2 (Py.truediv (stat_errors stat) total * 100)
     else 0%Q).

(** [order_by('-total_requests')] *)
Definition by_total_requests_desc (s1 s2 : Stat) : Prop :=
  stat_total_requests s2 ≤ stat_total_requests s1.

#[global] Instance by_total_requests_desc_dec : RelDecision by_total_requests_desc.
Proof. intros s1 s2. unfold by_total_requests_desc. apply _. Defined.

(** [hours_param] is the [hours] query parameter; the groups are the
    endpoints of the window, ordered by [-total_requests]. *)
Definition statistics (objects : list APIResponseLog.t) (now : Z)
    (hours_param : option Z) : list StatRow :=
  let hours := default 24 hours_param in
  let since := now - APIResponseLog.timedelta_hours hours in
  let window := filter (λ l, since ≤ APIResponseLog.timestamp l) objects in
  let stats :=
    merge_sort by_total_requests_desc
      (annotate window <$> remove_dups (APIResponseLog.endpoint <$> window)) in
  stat_row <$> stats.

(** ** [dashboard_view] *)

Record Dashboard : Type := Build_Dashboard {
  total_users : Z;
  active_users_24h : Z;
  total_courses : Z;
  total_enrollments : Z;
  average_completion_rate : Q;
  avg_page_load_time : Q;
  avg_api_response_time : Q;
  dashboard_cache_hit_rate : Q;
  performance_improvement : Q;
  engagement_improvement : Q
}.

(** [last_login__gte=since]: a null [last_login] never matches. *)
Definition last_login_gte (since : Z) (u : User.t) : Prop :=
  match User.last_login u with
  | Some t => since ≤ t
  | None => False
  end.

#[global] Instance last_login_gte_dec since u : Decision (last_login_gte since u).
Proof. unfold last_login_gte. destruct (User.last_login u); apply _. Defined.

Definition dashboard_view (now : Z) (db : DB.t) : Dashboard :=
  let total_users := ORM.Count (DB.users db) in
  let active_24h :=
    ORM.Count
      (filter (last_login_gte (now - APIResponseLog.timedelta_hours 24)) (DB.users db)) in
  let total_courses :=
    ORM.Count (filter (λ c, Course.is_active c = true) (DB.courses db)) in
  let total_enrollments := ORM.Count (DB.progress db) in
  let avg_completion :=
    Py.or_zero (ORM.Avg (LearningProgress.completion_percentage <$> DB.progress db)) in
  let since := now - APIResponseLog.timedelta_hours 24 in
  let page_load :=
    Py.or_zero
      (avg_value
         (filter (λ m, UserPerformanceMetric.metric_type m = "page_load"
                       ∧ since ≤ UserPerformanceMetric.timestamp m) (DB.metrics db))) in
  let api_response :=
    Py.or_zero
      (ORM.Avg (APIResponseLog.response_time_ms
                  <$> filter (λ l, since ≤ APIResponseLog.timestamp l) (DB.api_logs db))) in
  let cache_hit_rate := APIResponseLog.get_cache_hit_rate (DB.api_logs db) now 24 in
  let perf_before := Py.or_zero (avg_value (group (DB.metrics db) "api_response" false)) in
  let perf_after := Py.or_zero (avg_value (group (DB.metrics db) "api_response" true)) in
  let perf_improvement :=
    if Py.Qlt_bool 0 perf_before
    then ((perf_before - perf_after) / perf_before * 100)%Q else 0%Q in
  let engagement_before :=
    Py.or_zero (avg_value (group (DB.metrics db) "engagement" false)) in
  let engagement_after :=
    Py.or_zero (avg_value (group (DB.metrics db) "engagement" true)) in
  let engagement_improvement :=
    if Py.Qlt_bool 0 engagement_before
    then ((engagement_after - engagement_before) / engagement_before * 100)%Q
    else 0%Q in
  Build_Dashboard total_users active_24h total_courses total_enrollments
    (Py.round2 avg_completion) (Py.round2 page_load) (Py.round2 api_response)
    (Py.round2 cache_hit_rate) (Py.round2 perf_improvement)
    (Py.round2 engagement_improvement).

(** ** The detail actions of [UserViewSet] and [CourseViewSet] *)

(** [UserViewSet.performance]: the metrics of the user, newest first, at
    most 100, each serialized with its [improvement_percentage]; the
    property is evaluated for one metric after the other, and its
    exception ends the request. [get_object] answers 404 when no user has
    the primary key; the model keeps the [DoesNotExist] behind that
    answer. *)
Definition performance (db : DB.t) (pk : Z)
    : Result (list (UserPerformanceMetric.t * option Q)) :=
  user ← ORM.get (λ u, User.id u = pk) (DB.users db);
  let metrics :=
    take 100
      (merge_sort UserPerformanceMetric.newer
         (filter (λ m, UserPerformanceMetric.user m = User.id user) (DB.metrics db))) in
  mapM (λ m, v ← UserPerformanceMetric.improvement_percentage (DB.metrics db) m;
             mret (m, v)) metrics.

(** [order_by('-last_accessed')] *)
Definition last_accessed_desc (r1 r2 : LearningProgress.t) : Prop :=
  LearningProgress.last_accessed r2 ≤ LearningProgress.last_accessed r1.

#[global] Instance last_accessed_desc_dec : RelDecision last_accessed_desc.
Proof. intros r1 r2. unfold last_accessed_desc. apply _. Defined.

(** [UserViewSet.learning_progress] *)
Definition learning_progress (db : DB.t) (pk : Z) : Result (list LearningProgress.t) :=
  user ← ORM.get (λ u, User.id u = pk) (DB.users db);
  mret (merge_sort last_accessed_desc (user_learning_progress db user)).

(** [CourseViewSet.students]: no explicit order, so the rows come in the
    default order of the model, [-last_accessed]. *)
Definition students (db : DB.t) (pk : Z) : Result (list LearningProgress.t) :=
  course ← ORM.get (λ c, Course.id c = pk) (DB.courses db);
  mret (merge_sort last_accessed_desc (course_learning_progress db course)).

End Views.

(** * Sequences of saves of one progress record *)

Module Trace.

(** One write to a record: the values assigned to its writable
    fields, the course as it is then and the time of the save. *)
Record Write : Type := Build_Write {
  lessons : Z;
  minutes : Z;
  course : Course.t;
  now : Z
}.

Definition apply (w : Write) (p : LearningProgress.t) : LearningProgress.t :=
  LearningProgress.save (now w) (course w)
    (LearningProgress.set_time_spent_minutes (minutes w)
       (LearningProgress.set_lessons_completed (lessons w) p)).

(** The record after each of the writes, in order. *)
Fixpoint states (ws : list Write) (p : LearningProgress.t) : list LearningProgress.t :=
  match ws with
  | [] => []
  | w :: ws => apply w p :: states ws (apply w p)
  end.

(** The record after all the writes. *)
Definition run (ws : list Write) (p : LearningProgress.t) : LearningProgress.t :=
  foldl (λ p w, apply w p) p ws.

End Trace.

(** * The reachable states of the database *)

Module System.

(** One request. Requests that write other tables only (courses and
    users created or edited, metrics recorded, calls logged) leave the
    progress table and its sequence as they are. *)
Inductive step (db : DB.t) : DB.t → Prop :=
  | step_bulk_update now data :
      step db (Views.bulk_update now data db).2
  | step_create now user course lessons current minutes obj db' :
      Views.create now user course lessons current minutes db = inr (obj, db') →
      step db db'
  | step_update now pk user course lessons current minutes obj db' :
      Views.update now pk user course lessons current minutes db = inr (obj, db') →
      step db db'
  | step_destroy pk :
      step db (Views.destroy pk db)
  | step_destroy_course course :
      step db (Views.destroy_course course db)
  | step_destroy_user user :
      step db (Views.destroy_user user db)
  | step_other db' :
      DB.progress db' = DB.progress db →
      DB.progress_seq db' = DB.progress_seq db →
      step db db'.

Inductive reachable : DB.t → Prop :=
  | reachable_empty : reachable DB.empty
  | reachable_step db db' : reachable db → step db db' → reachable db'.

(** The progress rows of one (user, course) pair. *)
Definition records (db : DB.t) (user course : Z) : list LearningProgress.t :=
  filter (λ r, LearningProgress.key r = (user, course)) (DB.progress db).

(** What the database guarantees of the progress table: the
    [unique_together] key and the primary key are unique, and every
    primary key was drawn from the sequence. *)
Record consistent (db : DB.t) : Prop := Build_consistent {
  unique_together : NoDup (LearningProgress.key <$> DB.progress db);
  unique_pk : NoDup (LearningProgress.pk <$> DB.progress db);
  pk_drawn : Forall (λ r, ∃ k, LearningProgress.pk r = Some k ∧ k < DB.progress_seq db)
               (DB.progress db)
}.

(** A bulk item that passes its validation on [db]. *)
Definition valid (db : DB.t) (item : Serializers.BulkItem) : Prop :=
  Serializers.run_validation db item = inr (inr item).

(** A bulk item whose user and course exist in the two tables. *)
Definition applicable (users : list User.t) (courses : list Course.t)
    (item : Serializers.BulkItem) : Prop :=
  Exists (λ u, User.id u = Serializers.user_id item) users
  ∧ ∃ course, ORM.get (λ c, Course.id c = Serializers.course_id item) courses = inr course.

(** The primary keys of the user and course tables are unique. *)
Definition unique_ids (db : DB.t) : Prop :=
  NoDup (User.id <$> DB.users db) ∧ NoDup (Course.id <$> DB.courses db).

(** A row [r'] that continues the row [r]: same primary key, same pair,
    same start, and the completion time of [r] when [r] has one. *)
Definition continues (r r' : LearningProgress.t) : Prop :=
  LearningProgress.pk r' = LearningProgress.pk r
  ∧ LearningProgress.key r' = LearningProgress.key r
  ∧ LearningProgress.started_at r' = LearningProgress.started_at r
  ∧ ∀ t, LearningProgress.completed_at r = Some t → LearningProgress.completed_at r' = Some t.

(** A bulk item whose two integers every database holds. *)
Definition storable (item : Serializers.BulkItem) : Prop :=
  Serializers.lessons_completed item ≤ DB.integer_safe
  ∧ Serializers.time_spent_minutes item ≤ DB.integer_safe.

(** Every progress row refers to a user and to a course of the tables. *)
Definition referential (db : DB.t) : Prop :=
  Forall (λ r, Exists (λ u, User.id u = LearningProgress.user_id r) (DB.users db)
               ∧ Exists (λ c, Course.id c = LearningProgress.course_id r) (DB.courses db))
    (DB.progress db).

End System.

(** * Concrete data for the examples *)

Module Examples.

Definition course10 : Course.t := Course.Build 1 "beginner" true 10.
Definition course0 : Course.t := Course.Build 1 "beginner" true 0.

(** Four writes to one record: 5 of 10 lessons, all 10, back to 3, all 10
    again. *)
Definition writes : list Trace.Write :=
  [Trace.Build_Write 5 30 course10 100; Trace.Build_Write 10 60 course10 200;
   Trace.Build_Write 3 70 course10 300; Trace.Build_Write 10 90 course10 400].

Definition sample (metric_type : string) (value : Q) (optimized : bool)
    : UserPerformanceMetric.t :=
  UserPerformanceMetric.Build 1 metric_type value 0 optimized.

(** Three baseline samples of average 250 and three optimized ones of
    average 175. *)
Definition api_samples : list UserPerformanceMetric.t :=
  [sample "api_response" 240 false; sample "api_response" 250 false;
   sample "api_response" 260 false; sample "api_response" 170 true;
   sample "api_response" 175 true; sample "api_response" 180 true].



Definition log (endpoint : string) (cache_hit : bool) (status_code : Z)
    : APIResponseLog.t :=
  APIResponseLog.Build endpoint "GET" (12 # 10) status_code 100 None cache_hit 0 0 0.

(** Ten calls of [/x]: four served from the cache, one answered 500. *)
Definition logs : list APIResponseLog.t :=
  [log "/x" true 200; log "/x" true 200; log "/x" true 200; log "/x" true 200;
   log "/x" false 200; log "/x" false 200; log "/x" false 200; log "/x" false 200;
   log "/x" false 200; log "/x" false 500].

(** One user and one course of ten lessons, no progress yet. *)
Definition db1 : DB.t := DB.Build [User.Build 1 None] [course10] [] 1 [] [].

(** A batch whose first item names a user that does not exist and whose
    second item is valid. *)
Definition mixed_batch : list Serializers.BulkItem :=
  [Serializers.Build_BulkItem 99 1 3 10; Serializers.Build_BulkItem 1 1 5 20].

(** A batch of two valid items for the same user and course. *)
Definition valid_batch : list Serializers.BulkItem :=
  [Serializers.Build_BulkItem 1 1 5 20; Serializers.Build_BulkItem 1 1 10 30].

(** A batch that reports 11 lessons of a course of 10. *)
Definition excess_batch : list Serializers.BulkItem :=
  [Serializers.Build_BulkItem 1 1 11 20].

Definition metrics_db (metrics : list UserPerformanceMetric.t) : DB.t :=
  DB.Build [] [] [] 1 metrics [].

(** An optimized sample of 175 taken after a baseline of 250 and one of 0. *)
Definition optimized_sample : UserPerformanceMetric.t :=
  UserPerformanceMetric.Build 1 "api_response" 175 30 true.

Definition baseline_250 : list UserPerformanceMetric.t :=
  [UserPerformanceMetric.Build 1 "api_response" 240 10 false;
   UserPerformanceMetric.Build 1 "api_response" 250 20 false;
   UserPerformanceMetric.Build 2 "api_response" 900 25 false].

Definition baseline_0 : list UserPerformanceMetric.t :=
  [UserPerformanceMetric.Build 1 "api_response" 240 10 false;
   UserPerformanceMetric.Build 1 "api_response" 0 20 false].

(** User 1 with the optimized sample after the given baselines. *)
Definition perf_db (baselines : list UserPerformanceMetric.t) : DB.t :=
  DB.Build [User.Build 1 None] [] [] 1 (optimized_sample :: baselines) [].

(** A batch whose second item reports more lessons than a column holds. *)
Definition overflow_batch : list Serializers.BulkItem :=
  [Serializers.Build_BulkItem 1 1 5 20;
   Serializers.Build_BulkItem 1 1 9223372036854775808 30].

(** The database after one item that reports 5 of the 10 lessons. *)
Definition db_halfway : DB.t :=
  (Views.bulk_update 100 [Serializers.Build_BulkItem 1 1 5 20] db1).2.

(** The database after one item that reports all 10 lessons: user 1 has
    completed course 1. *)
Definition db2 : DB.t :=
  (Views.bulk_update 100 [Serializers.Build_BulkItem 1 1 10 30] db1).2.

End Examples.

(** * Rounding *)

Section Rounding.

Local Open Scope Q_scope.

Lemma round_half_even_comp (q q' : Q) :
  q == q' → Py.round_half_even q = Py.round_half_even q'.
Proof.
  intros Heq. unfold Py.round_half_even.
  rewrite (Qfloor_comp _ _ Heq).
  assert (Hsub : q - inject_Z (Qfloor q') == q' - inject_Z (Qfloor q'))
    by (rewrite Heq; reflexivity).
  rewrite (Qcompare_comp _ _ Hsub (1 # 2) (1 # 2) (Qeq_refl _)).
  reflexivity.
Qed.

Lemma round2_comp (q q' : Q) : q == q' → Py.round2 q = Py.round2 q'.
Proof.
  intros Heq. unfold Py.round2. f_equal.
  apply round_half_even_comp. rewrite Heq. reflexivity.
Qed.

Lemma round_half_even_Z (n : Z) : Py.round_half_even (inject_Z n) = n.
Proof.
  unfold Py.round_half_even. rewrite Qfloor_Z.
  assert (Hlt : inject_Z n - inject_Z n < 1 # 2).
  { assert (Hz : inject_Z n - inject_Z n == 0) by ring. rewrite Hz. reflexivity. }
  destruct (Qcompare_spec (inject_Z n - inject_Z n) (1 # 2)) as [Heq|_|Hgt].
  - rewrite Heq in Hlt. exfalso. exact (Qlt_irrefl _ Hlt).
  - reflexivity.
  - exfalso. exact (Qlt_irrefl _ (Qlt_trans _ _ _ Hlt Hgt)).
Qed.

Lemma round_half_even_range (lo hi : Z) (q : Q) :
  inject_Z lo <= q → q <= inject_Z hi →
  (lo ≤ Py.round_half_even q ≤ hi)%Z.
Proof.
  intros Hlo Hhi.
  assert (Hf1 : (lo ≤ Qfloor q)%Z).
  { rewrite <- (Qfloor_Z lo). apply Qfloor_resp_le, Hlo. }
  assert (Hf2 : (Qfloor q ≤ hi)%Z).
  { rewrite <- (Qfloor_Z hi). apply Qfloor_resp_le, Hhi. }
  assert (Hup : 0 < q - inject_Z (Qfloor q) → (Qfloor q + 1 ≤ hi)%Z).
  { intros Hpos.
    destruct (Z.eq_dec (Qfloor q) hi) as [Heq|Hne]; [|lia].
    rewrite Heq in Hpos.
    assert (q - inject_Z hi <= 0).
    { apply (Qplus_le_l _ _ (inject_Z hi)). ring_simplify. exact Hhi. }
    exfalso. apply (Qlt_irrefl 0). eapply Qlt_le_trans; eauto. }
  unfold Py.round_half_even.
  destruct (Qcompare_spec (q - inject_Z (Qfloor q)) (1 # 2)) as [Heq|Hlt|Hgt].
  - destruct (Z.even (Qfloor q)); [lia|].
    assert (0 < q - inject_Z (Qfloor q)) by (rewrite Heq; reflexivity).
    specialize (Hup H). lia.
  - lia.
  - assert (0 < q - inject_Z (Qfloor q)).
    { eapply Qlt_trans; [|exact Hgt]. reflexivity. }
    specialize (Hup H). lia.
Qed.

Lemma round2_range (q : Q) : 0 <= q → q <= 100 → 0 <= Py.round2 q ∧ Py.round2 q <= 100.
Proof.
  intros H0 H100.
  destruct (round_half_even_range 0 10000 (q * 100)) as [Ha Hb].
  - change (inject_Z 0) with (0 * 100). apply Qmult_le_compat_r; [exact H0|discriminate].
  - change (inject_Z 10000) with (100 * 100).
    apply Qmult_le_compat_r; [exact H100|discriminate].
  - unfold Py.round2, Qle. simpl. lia.
Qed.

Lemma round2_zero (q : Q) : q == 0 → Py.round2 q == 0.
Proof. intros H. rewrite (round2_comp _ _ H). reflexivity. Qed.

(** A rounded number is within a half of the number. *)
Lemma round_half_even_error (q : Q) :
  Qabs (inject_Z (Py.round_half_even q) - q) <= 1 # 2.
Proof.
  pose proof (Qfloor_le q) as Hlo. pose proof (Qlt_floor q) as Hhi.
  rewrite inject_Z_plus in Hhi. change (inject_Z 1) with 1 in Hhi.
  unfold Py.round_half_even.
  destruct (Qcompare_spec (q - inject_Z (Qfloor q)) (1 # 2)) as [Heq|Hlt|Hgt].
  - destruct (Z.even (Qfloor q)).
    + apply Qabs_Qle_condition. split; lra.
    + rewrite inject_Z_plus. change (inject_Z 1) with 1.
      apply Qabs_Qle_condition. split; lra.
  - apply Qabs_Qle_condition. split; lra.
  - rewrite inject_Z_plus. change (inject_Z 1) with 1.
    apply Qabs_Qle_condition. split; lra.
Qed.

Lemma round2_error (q : Q) : Qabs (Py.round2 q - q) <= 5 # 1000.
Proof.
  pose proof (round_half_even_error (q * 100)) as H.
  apply Qabs_Qle_condition in H as [H1 H2].
  unfold Py.round2. set (r := Py.round_half_even (q * 100)) in *.
  assert (Hr : (r # 100) == inject_Z r * (1 # 100)) by (unfold Qeq; simpl; lia).
  apply Qabs_Qle_condition. rewrite Hr. split; lra.
Qed.

(** [round2] rounds to two decimals. *)
Lemma round2_rounded2 (q : Q) : Py.rounded2 q (Py.round2 q).
Proof.
  exists (Py.round_half_even (q * 100)). split.
  - unfold Py.round2.
    assert (Hz : ∀ x : Q, x - x == 0) by (intros x; ring).
    rewrite Hz. discriminate.
  - eapply Qle_trans; [apply (round2_error q)|discriminate].
Qed.

Lemma isclose_refl (a b : Q) : a == b → Py.isclose a b.
Proof.
  intros Hab. unfold Py.isclose.
  assert (Hz : a - b == 0) by (rewrite Hab; ring).
  rewrite Hz. discriminate.
Qed.

End Rounding.

(** * The progress record: [LearningProgress.save] *)

Section Save.

Import LearningProgress.
Local Open Scope Q_scope.

Lemma save_percentage_pos (now : Z) (course : Course.t) (self : t) :
  (0 < Course.total_lessons course)%Z →
  completion_percentage (save now course self)
  = Py.truediv (lessons_completed self) (Course.total_lessons course) * 100.
Proof.
  intros HL. unfold save.
  destruct (Z.ltb_spec 0 (Course.total_lessons course)) as [_|]; [|lia].
  match goal with |- context [if ?b then _ else _] => destruct b end; reflexivity.
Qed.

Lemma save_percentage_guard (now : Z) (course : Course.t) (self : t) :
  (Course.total_lessons course ≤ 0)%Z →
  completion_percentage (save now course self) = completion_percentage self.
Proof.
  intros HL. unfold save.
  destruct (Z.ltb_spec 0 (Course.total_lessons course)) as [|_]; [lia|].
  match goal with |- context [if ?b then _ else _] => destruct b end; reflexivity.
Qed.

Lemma save_completed_at_Some (now : Z) (course : Course.t) (self : t) (t0 : Z) :
  completed_at self = Some t0 → completed_at (save now course self) = Some t0.
Proof.
  intros Hc. unfold save.
  destruct (0 <? Course.total_lessons course)%Z; simpl; rewrite Hc; simpl;
    rewrite andb_false_r; simpl; exact Hc.
Qed.

Lemma save_completed_at_None (now : Z) (course : Course.t) (self : t) :
  completed_at self = None →
  completed_at (save now course self)
  = if Qle_bool 100 (completion_percentage (save now course self))
    then Some now else None.
Proof.
  intros Hc. unfold save.
  destruct (0 <? Course.total_lessons course)%Z; simpl; rewrite Hc; simpl;
    rewrite andb_true_r;
    match goal with |- context [Qle_bool 100 ?x] => destruct (Qle_bool 100 x) eqn:Hle end;
    simpl; rewrite ?Hle; simpl; auto.
Qed.

(** Five lessons of ten: 50 percent, not completed. *)
Example save_half_way :
  completion_percentage (save 100 Examples.course10 (new 1 1 5 0)) == 50
  ∧ is_completed (save 100 Examples.course10 (new 1 1 5 0)) = false
  ∧ completed_at (save 100 Examples.course10 (new 1 1 5 0)) = None.
Proof. repeat split. Qed.

(** C2, as the claim has it, fails: a record saved at 5 of 10 lessons and
    saved again after its course was edited to 0 lessons keeps 50. *)
Lemma save_keeps_percentage_when_course_empties :
  Course.total_lessons Examples.course0 = 0%Z
  ∧ completion_percentage
      (save 200 Examples.course0 (save 100 Examples.course10 (new 1 1 5 0))) == 50
  ∧ ¬ completion_percentage
        (save 200 Examples.course0 (save 100 Examples.course10 (new 1 1 5 0))) == 0.
Proof. split; [reflexivity|]. split; [reflexivity|]. discriminate. Qed.

End Save.

(** * The progress record over a sequence of saves *)

Section SaveTrace.

Import LearningProgress Trace.
Local Open Scope Q_scope.

Lemma apply_completed_at_Some (w : Write) (p : t) (t0 : Z) :
  completed_at p = Some t0 → completed_at (apply w p) = Some t0.
Proof. intros Hc. unfold apply. apply save_completed_at_Some. exact Hc. Qed.

Lemma apply_completed_at_None (w : Write) (p : t) :
  completed_at p = None →
  completed_at (apply w p)
  = if Qle_bool 100 (completion_percentage (apply w p)) then Some (now w) else None.
Proof. intros Hc. unfold apply. apply save_completed_at_None. exact Hc. Qed.

Lemma states_length (ws : list Write) (p : t) : length (states ws p) = length ws.
Proof. revert p. induction ws as [|w ws IH]; intros p; simpl; [|rewrite IH]; reflexivity. Qed.

Lemma states_app (ws1 ws2 : list Write) (p : t) :
  states (ws1 ++ ws2) p = states ws1 p ++ states ws2 (run ws1 p).
Proof.
  revert p. induction ws1 as [|w ws1 IH]; intros p; simpl; [reflexivity|].
  rewrite IH. reflexivity.
Qed.

Lemma states_last (ws : list Write) (p : t) :
  last (states ws p) = match ws with [] => None | _ => Some (run ws p) end.
Proof.
  revert p. induction ws as [|w ws IH]; intros p; [reflexivity|].
  simpl states. destruct ws as [|w' ws]; [reflexivity|].
  specialize (IH (apply w p)). simpl in *. exact IH.
Qed.

(** Once set, [completed_at] stays through every later save. *)
Lemma completed_at_kept (ws : list Write) (p : t) (t0 : Z) :
  completed_at p = Some t0 →
  Forall (λ s, completed_at s = Some t0) (states ws p)
  ∧ completed_at (run ws p) = Some t0.
Proof.
  revert p. induction ws as [|w ws IH]; intros p Hc; simpl.
  - split; [constructor|exact Hc].
  - destruct (IH (apply w p) (apply_completed_at_Some w p t0 Hc)) as [H1 H2].
    split; [constructor; [apply apply_completed_at_Some, Hc|exact H1]|exact H2].
Qed.

(** While no save reaches 100, [completed_at] stays unset. *)
Lemma completed_at_unset (ws : list Write) (p : t) :
  completed_at p = None →
  Forall (λ s, ¬ 100 <= completion_percentage s) (states ws p) →
  Forall (λ s, completed_at s = None) (states ws p)
  ∧ completed_at (run ws p) = None.
Proof.
  revert p. induction ws as [|w ws IH]; intros p Hc Hlow; simpl.
  - split; [constructor|exact Hc].
  - simpl in Hlow. apply Forall_cons in Hlow as [Hw Hlow].
    assert (Hc' : completed_at (apply w p) = None).
    { rewrite apply_completed_at_None by exact Hc.
      destruct (Qle_bool 100 (completion_percentage (apply w p))) eqn:Hle; [|reflexivity].
      apply Qle_bool_iff in Hle. contradiction. }
    destruct (IH (apply w p) Hc' Hlow) as [H1 H2].
    split; [constructor; assumption|exact H2].
Qed.

(** C3: over any sequence of saves, a set [completed_at] never changes;
    an unset one stays unset while the percentage stays below 100, is
    set to the time of the first save that reaches 100, and keeps that
    time at every later save, whatever the later writes are. *)
Theorem completed_at_set_once (ws : list Write) (p : t) :
  (∀ t0, completed_at p = Some t0 →
     Forall (λ s, completed_at s = Some t0) (states ws p))
  ∧ (completed_at p = None →
     Forall (λ s, ¬ 100 <= completion_percentage s) (states ws p) →
     Forall (λ s, completed_at s = None) (states ws p))
  ∧ (completed_at p = None →
     ∀ ws1 w ws2, ws = ws1 ++ w :: ws2 →
     Forall (λ s, ¬ 100 <= completion_percentage s) (states ws1 p) →
     100 <= completion_percentage (apply w (run ws1 p)) →
     ∀ (i : nat) s, states ws p !! i = Some s →
     completed_at s = if decide (i < length ws1)%nat then None else Some (now w)).
Proof.
  split; [|split].
  - intros t0 Hc. apply completed_at_kept, Hc.
  - intros Hc Hlow. apply completed_at_unset; assumption.
  - intros Hc ws1 w ws2 -> Hlow Hreach i s Hi.
    destruct (completed_at_unset ws1 p Hc Hlow) as [Hpre Hrun].
    rewrite states_app in Hi.
    case_decide as Hlt.
    + rewrite lookup_app_l in Hi by (rewrite states_length; exact Hlt).
      rewrite Forall_lookup in Hpre. exact (Hpre i s Hi).
    + rewrite lookup_app_r in Hi by (rewrite states_length; lia).
      assert (Hset : completed_at (apply w (run ws1 p)) = Some (now w)).
      { rewrite apply_completed_at_None by exact Hrun.
        apply Qle_bool_iff in Hreach. rewrite Hreach. reflexivity. }
      simpl states in Hi.
      destruct (i - length (states ws1 p))%nat as [|j] eqn:Hj; simpl in Hi.
      * injection Hi as <-. exact Hset.
      * destruct (completed_at_kept ws2 _ _ Hset) as [Hpost _].
        rewrite Forall_lookup in Hpost. exact (Hpost j s Hi).
Qed.

Lemma completed_at_set_once_witness :
  completed_at (run Examples.writes (new 1 1 0 0)) = Some 200%Z.
Proof.
  destruct (completed_at_set_once Examples.writes (new 1 1 0 0)) as (_ & _ & H).
  assert (Hlow : Forall (λ s, ¬ 100 <= completion_percentage s)
                   (states [Build_Write 5 30 Examples.course10 100] (new 1 1 0 0))).
  { repeat constructor. vm_compute. intros Hle. apply Hle. reflexivity. }
  assert (Hreach : 100 <= completion_percentage
                            (apply (Build_Write 10 60 Examples.course10 200)
                               (run [Build_Write 5 30 Examples.course10 100]
                                  (new 1 1 0 0)))).
  { vm_compute. discriminate. }
  assert (Hlast : states Examples.writes (new 1 1 0 0) !! 3%nat
                  = Some (run Examples.writes (new 1 1 0 0))).
  { vm_compute. reflexivity. }
  exact (H eq_refl
           [Build_Write 5 30 Examples.course10 100]
           (Build_Write 10 60 Examples.course10 200)
           [Build_Write 3 70 Examples.course10 300;
            Build_Write 10 90 Examples.course10 400]
           eq_refl Hlow Hreach 3%nat _ Hlast).
Defined.

End SaveTrace.

(** * The metric comparison *)

Section Comparison.

Import Views.
Local Open Scope Q_scope.

Implicit Types (objects : list UserPerformanceMetric.t) (mt : string).



Lemma truthy_Some (x : option Q) :
  Py.truthy x = true ↔ ∃ q, x = Some q ∧ ¬ q == 0.
Proof.
  destruct x as [q|]; simpl.
  - rewrite negb_true_iff. split.
    + intros Hq. exists q. split; [reflexivity|].
      intros Heq. apply Qeq_bool_iff in Heq. congruence.
    + intros (q' & [= <-] & Hne).
      destruct (Qeq_bool q 0) eqn:Heq; [|reflexivity].
      apply Qeq_bool_iff in Heq. contradiction.
  - split; [discriminate|]. intros (q & Hq & _). discriminate.
Qed.


(** When an entry is appended, and which. *)
Lemma compare_Some objects mt (e : Comparison) :
  compare objects mt = Some e ↔
  ∃ b a, avg_value (group objects mt false) = Some b
         ∧ avg_value (group objects mt true) = Some a
         ∧ ¬ b == 0 ∧ ¬ a == 0
         ∧ e = Build_Comparison mt (Py.round2 b) (Py.round2 a)
                 (Py.round2 ((b - a) / b * 100))
                 (ORM.Count
                    (filter (λ m, UserPerformanceMetric.metric_type m = mt) objects)).
Proof.
  unfold compare. split.
  - destruct (Py.truthy (avg_value (group objects mt false))) eqn:Hb; [|discriminate].
    destruct (Py.truthy (avg_value (group objects mt true))) eqn:Ha; [|discriminate].
    apply truthy_Some in Hb as (b & Hb & Hbne).
    apply truthy_Some in Ha as (a & Ha & Hane).
    rewrite Hb, Ha. simpl. intros [= <-]. exists b, a. auto.
  - intros (b & a & Hb & Ha & Hbne & Hane & ->).
    assert (Htb : Py.truthy (avg_value (group objects mt false)) = true)
      by (apply truthy_Some; eauto).
    assert (Hta : Py.truthy (avg_value (group objects mt true)) = true)
      by (apply truthy_Some; eauto).
    rewrite Htb, Hta, Hb, Ha. reflexivity.
Qed.

Lemma compare_metric_type objects mt (e : Comparison) :
  compare objects mt = Some e → metric_type e = mt.
Proof. intros He. apply compare_Some in He as (b & a & _ & _ & _ & _ & ->). reflexivity. Qed.

Lemma elem_of_comparison objects (e : Comparison) :
  e ∈ comparison objects ↔
  metric_type e ∈ metric_types ∧ compare objects (metric_type e) = Some e.
Proof.
  unfold comparison. rewrite list_elem_of_omap. split.
  - intros (mt & Hin & He).
    rewrite (compare_metric_type _ _ _ He). auto.
  - intros [Hin He]. eauto.
Qed.







Lemma omap_key_sublist {A B : Type} (f : A → option B) (g : B → A) (l : list A) :
  (∀ x y, f x = Some y → g y = x) → (g <$> omap f l) `sublist_of` l.
Proof.
  intros Hkey. induction l as [|x l IH]; simpl; [constructor|].
  destruct (f x) as [y|] eqn:Hfx; simpl.
  - rewrite (Hkey x y Hfx). apply sublist_skip, IH.
  - apply sublist_cons, IH.
Qed.

(** A sample of a metric type outside the list is in no group. *)
Lemma group_known objects mt (optimized : bool) :
  mt ∈ metric_types →
  group (filter (λ m, UserPerformanceMetric.metric_type m ∈ metric_types) objects)
    mt optimized
  = group objects mt optimized.
Proof.
  intros Hin. unfold group. apply list_filter_filter_l.
  intros m [Hmt _]. rewrite Hmt. exact Hin.
Qed.

Lemma compare_known objects mt :
  mt ∈ metric_types →
  compare (filter (λ m, UserPerformanceMetric.metric_type m ∈ metric_types) objects) mt
  = compare objects mt.
Proof.
  intros Hin. unfold compare. rewrite !group_known by exact Hin.
  rewrite (list_filter_filter_l (λ m, UserPerformanceMetric.metric_type m = mt)); [reflexivity|].
  intros m Hmt. simpl. rewrite Hmt. exact Hin.
Qed.

(** C10: the metric types of the entries are a subsequence of the four
    listed ones (so each entry has one of them, in that order, at most
    once), and the samples of every other metric type can be dropped
    without changing the result. *)
Theorem comparison_metric_types objects :
  (metric_type <$> comparison objects) `sublist_of` metric_types
  ∧ Forall (λ e, metric_type e ∈ metric_types) (comparison objects)
  ∧ NoDup (metric_type <$> comparison objects)
  ∧ comparison (filter (λ m, UserPerformanceMetric.metric_type m ∈ metric_types) objects)
    = comparison objects.
Proof.
  assert (Hsub : (metric_type <$> comparison objects) `sublist_of` metric_types).
  { apply omap_key_sublist. intros mt e. apply compare_metric_type. }
  split; [exact Hsub|]. split; [|split].
  - apply Forall_forall. intros e He. apply elem_of_comparison in He as [Hin _]. exact Hin.
  - eapply sublist_NoDup; [|exact Hsub].
    unfold metric_types. repeat constructor; rewrite ?elem_of_cons, ?elem_of_nil;
      intros H; repeat destruct H as [H|H]; try discriminate; exact H.
  - unfold comparison. apply list_omap_ext.
    apply Forall_Forall2_diag, Forall_forall.
    intros mt Hin. apply compare_known, Hin.
Qed.

End Comparison.

(** * The API log statistics *)

Section Statistics.

Import Views.
Local Open Scope Q_scope.

Implicit Types (objects : list APIResponseLog.t).

Lemma Count_nonneg {A : Type} (l : list A) : (0 ≤ ORM.Count l)%Z.
Proof. unfold ORM.Count. lia. Qed.

Lemma Count_filter_le {A : Type} (P : A → Prop) `{!∀ x, Decision (P x)} (l : list A) :
  (ORM.Count (filter P l) ≤ ORM.Count l)%Z.
Proof. unfold ORM.Count. pose proof (length_filter P l). lia. Qed.

Lemma Count_pos {A : Type} (l : list A) (x : A) : x ∈ l → (0 < ORM.Count l)%Z.
Proof. unfold ORM.Count. destruct l; [inversion 1|simpl; lia]. Qed.

(** A part of a total, as a percentage. *)
Lemma percentage_range (part total : Z) :
  (0 ≤ part ≤ total)%Z → (0 < total)%Z →
  0 <= Py.truediv part total * 100 ∧ Py.truediv part total * 100 <= 100.
Proof.
  intros [Hp Hpt] Ht. unfold Py.truediv.
  assert (Ht' : 0 < inject_Z total) by (unfold Qlt; simpl; lia).
  assert (H0 : 0 <= inject_Z part / inject_Z total).
  { apply Qle_shift_div_l; [exact Ht'|]. rewrite Qmult_0_l.
    unfold Qle; simpl; lia. }
  assert (H1 : inject_Z part / inject_Z total <= 1).
  { apply Qle_shift_div_r; [exact Ht'|]. rewrite Qmult_1_l.
    unfold Qle; simpl; lia. }
  split.
  - apply Qmult_le_0_compat; [exact H0|discriminate].
  - change 100 with (1 * 100) at 2. apply Qmult_le_compat_r; [exact H1|discriminate].
Qed.

Lemma round2_percentage_range (part total : Z) :
  (0 ≤ part ≤ total)%Z → (0 < total)%Z →
  0 <= Py.round2 (Py.truediv part total * 100)
  ∧ Py.round2 (Py.truediv part total * 100) <= 100.
Proof.
  intros Hp Ht. destruct (percentage_range part total Hp Ht).
  apply round2_range; assumption.
Qed.

(** The rows of [statistics] are the rows of the endpoints of the
    window. *)
Lemma elem_of_statistics objects (now : Z) (hours_param : option Z) (row : StatRow) :
  row ∈ statistics objects now hours_param →
  let since := (now - APIResponseLog.timedelta_hours (default 24%Z hours_param))%Z in
  let window := filter (λ l, (since ≤ APIResponseLog.timestamp l)%Z) objects in
  ∃ l, l ∈ window
       ∧ row = stat_row (annotate window (APIResponseLog.endpoint l)).
Proof.
  intros Hrow since window. unfold statistics in Hrow. fold since window in Hrow.
  apply list_elem_of_fmap in Hrow as (stat & -> & Hstat).
  rewrite merge_sort_Permutation in Hstat.
  apply list_elem_of_fmap in Hstat as (e & -> & He).
  apply elem_of_remove_dups, list_elem_of_fmap in He as (l & -> & Hl).
  exists l. split; [exact Hl|reflexivity].
Qed.



End Statistics.

(** * The dashboard *)

Section Dashboard.

Import Views.
Local Open Scope Q_scope.







End Dashboard.

(** * The progress table *)

Section ProgressTable.

Import LearningProgress System.

Implicit Types (db : DB.t) (self row obj : LearningProgress.t).

Lemma save_pk (now : Z) (course : Course.t) self : pk (save now course self) = pk self.
Proof.
  unfold save. destruct (0 <? Course.total_lessons course); simpl;
    match goal with |- context [if ?b then _ else _] => destruct b end; reflexivity.
Qed.

Lemma save_key (now : Z) (course : Course.t) self : key (save now course self) = key self.
Proof.
  unfold save. destruct (0 <? Course.total_lessons course); simpl;
    match goal with |- context [if ?b then _ else _] => destruct b end; reflexivity.
Qed.

Lemma save_lessons_completed (now : Z) (course : Course.t) self :
  lessons_completed (save now course self) = lessons_completed self.
Proof.
  unfold save. destruct (0 <? Course.total_lessons course); simpl;
    match goal with |- context [if ?b then _ else _] => destruct b end; reflexivity.
Qed.

Lemma save_time_spent_minutes (now : Z) (course : Course.t) self :
  time_spent_minutes (save now course self) = time_spent_minutes self.
Proof.
  unfold save. destruct (0 <? Course.total_lessons course); simpl;
    match goal with |- context [if ?b then _ else _] => destruct b end; reflexivity.
Qed.

Lemma save_current_lesson (now : Z) (course : Course.t) self :
  current_lesson (save now course self) = current_lesson self.
Proof.
  unfold save. destruct (0 <? Course.total_lessons course); simpl;
    match goal with |- context [if ?b then _ else _] => destruct b end; reflexivity.
Qed.

Lemma save_started_at (now : Z) (course : Course.t) self :
  started_at (save now course self) = started_at self.
Proof.
  unfold save. destruct (0 <? Course.total_lessons course); simpl;
    match goal with |- context [if ?b then _ else _] => destruct b end; reflexivity.
Qed.

(** A key that is unique in a table selects at most one row. *)
Lemma filter_unique {A K : Type} `{!EqDecision K} (f : A → K) (k : K) (l : list A) :
  NoDup (f <$> l) → (length (filter (λ x, f x = k) l) ≤ 1)%nat.
Proof.
  induction l as [|x l IH]; simpl; [lia|].
  rewrite NoDup_cons. intros [Hx Hl]. rewrite filter_cons.
  destruct (decide (f x = k)) as [Hk|Hk]; [|auto].
  destruct (filter (λ y, f y = k) l) as [|y rest] eqn:Hf; [simpl; lia|].
  exfalso.
  assert (Hy : y ∈ filter (λ y, f y = k) l) by (rewrite Hf; constructor).
  apply list_elem_of_filter in Hy as [Hfy Hy].
  apply Hx. rewrite Hk, <- Hfy. apply list_elem_of_fmap. eauto.
Qed.

Lemma get_unique {A K : Type} `{!EqDecision K} (f : A → K) (k : K) (l : list A) :
  NoDup (f <$> l) →
  (ORM.get (λ x, f x = k) l = inl DoesNotExist ∧ ¬ Exists (λ x, f x = k) l)
  ∨ (∃ x, ORM.get (λ x, f x = k) l = inr x ∧ x ∈ l ∧ f x = k).
Proof.
  intros Hnd. pose proof (filter_unique f k l Hnd) as Hlen. unfold ORM.get.
  destruct (filter (λ x, f x = k) l) as [|x [|y rest]] eqn:Hf; simpl in Hlen; [| |lia].
  - left. split; [reflexivity|]. rewrite Exists_exists. intros (x & Hx & Hfx).
    assert (Hin : x ∈ filter (λ x, f x = k) l) by (apply list_elem_of_filter; auto).
    rewrite Hf in Hin. inversion Hin.
  - right. exists x. split; [reflexivity|].
    assert (Hin : x ∈ filter (λ x, f x = k) l) by (rewrite Hf; constructor).
    apply list_elem_of_filter in Hin as [Hfx Hin]. auto.
Qed.

Lemma get_inr {A : Type} (P : A → Prop) `{!∀ x, Decision (P x)} (l : list A) (x : A) :
  ORM.get P l = inr x → x ∈ l ∧ P x ∧ filter P l = [x].
Proof.
  unfold ORM.get. destruct (filter P l) as [|y [|z rest]] eqn:Hf; try discriminate.
  intros [= <-].
  assert (Hin : y ∈ filter P l) by (rewrite Hf; constructor).
  apply list_elem_of_filter in Hin as [HP Hin]. auto.
Qed.

Lemma consistent_pk db row :
  consistent db → row ∈ DB.progress db →
  ∃ k, pk row = Some k ∧ k < DB.progress_seq db.
Proof.
  intros [_ _ Hdrawn] Hin. rewrite Forall_forall in Hdrawn. exact (Hdrawn row Hin).
Qed.

(** Replacing the row of primary key [k] keeps the keys unique when no
    other row has the key of the new row. *)
Lemma replace_unique (k : Z) row (rows : list LearningProgress.t) :
  NoDup (key <$> rows) → NoDup (pk <$> rows) →
  (∀ r, r ∈ rows → key r = key row → pk r = Some k) →
  NoDup (key <$> ((λ r, if decide (pk r = Some k) then row else r) <$> rows))
  ∧ ∀ x, x ∈ key <$> ((λ r, if decide (pk r = Some k) then row else r) <$> rows) →
         x ∈ key <$> rows ∨ (x = key row ∧ Some k ∈ pk <$> rows).
Proof.
  induction rows as [|r rows IH]; intros Hkeys Hpks Hrow; simpl.
  - split; [constructor|]. intros x Hx. inversion Hx.
  - rewrite !fmap_cons in *. apply NoDup_cons in Hkeys as [Hk Hkeys].
    apply NoDup_cons in Hpks as [Hp Hpks].
    destruct IH as [IH1 IH2]; [assumption|assumption|
      intros r' Hr'; apply Hrow; right; exact Hr'|].
    destruct (decide (pk r = Some k)) as [Hrk|Hrk].
    + split.
      * apply NoDup_cons. split; [|exact IH1].
        intros Hin. destruct (IH2 _ Hin) as [Hin'|[_ Hin']].
        -- apply list_elem_of_fmap in Hin' as (r' & Heq & Hr').
           apply Hp. rewrite Hrk, <- (Hrow r'); [|right; exact Hr'|congruence].
           apply list_elem_of_fmap. eauto.
        -- apply Hp. rewrite Hrk. exact Hin'.
      * intros x Hx. apply elem_of_cons in Hx as [->|Hx].
        -- right. split; [reflexivity|]. rewrite <- Hrk. left.
        -- destruct (IH2 _ Hx) as [?|[? ?]]; [left; right; assumption|].
           right. split; [assumption|]. right. assumption.
    + split.
      * apply NoDup_cons. split; [|exact IH1].
        intros Hin. destruct (IH2 _ Hin) as [Hin'|[Heq _]]; [contradiction|].
        apply Hrk, Hrow; [left|exact Heq].
      * intros x Hx. apply elem_of_cons in Hx as [->|Hx]; [left; left|].
        destruct (IH2 _ Hx) as [?|[? ?]]; [left; right; assumption|].
        right. split; [assumption|]. right. assumption.
Qed.

Lemma replace_pks (k : Z) row (rows : list LearningProgress.t) :
  pk row = Some k →
  pk <$> ((λ r, if decide (pk r = Some k) then row else r) <$> rows) = pk <$> rows.
Proof.
  intros Hrow. rewrite <- list_fmap_compose. apply list_fmap_ext.
  intros i r _. simpl. case_decide; congruence.
Qed.

(** What a successful write did. *)
Lemma write_inr (now : Z) self db row db' :
  DB.write now self db = inr (row, db') →
  ¬ Exists (DB.clashes self) (DB.progress db)
  ∧ Exists (λ u, User.id u = user_id self) (DB.users db)
  ∧ key row = key self
  ∧ lessons_completed row = lessons_completed self
  ∧ time_spent_minutes row = time_spent_minutes self
  ∧ completion_percentage row = completion_percentage self
  ∧ completed_at row = completed_at self
  ∧ DB.users db' = DB.users db ∧ DB.courses db' = DB.courses db
  ∧ ((pk self = None ∧ pk row = Some (DB.progress_seq db)
      ∧ DB.progress db' = DB.progress db ++ [row]
      ∧ DB.progress_seq db' = DB.progress_seq db + 1)
     ∨ (∃ k, pk self = Some k ∧ pk row = Some k
             ∧ Exists (λ r, pk r = Some k) (DB.progress db)
             ∧ DB.progress db'
               = (λ r, if decide (pk r = Some k) then row else r) <$> DB.progress db
             ∧ DB.progress_seq db' = DB.progress_seq db)
     ∨ (∃ k, pk self = Some k ∧ pk row = Some k
             ∧ ¬ Exists (λ r, pk r = Some k) (DB.progress db)
             ∧ DB.progress db' = DB.progress db ++ [row]
             ∧ DB.progress_seq db' = DB.progress_seq db)).
Proof.
  unfold DB.write. case_decide as Hfits; [discriminate|].
  case_decide as Hneg; [discriminate|].
  case_decide as Hclash; [discriminate|].
  case_decide as Huser; [|discriminate].
  destruct (pk self) as [k|] eqn:Hpk.
  - case_decide as Hrow; intros [= <- <-]; simpl;
      (split; [exact Hclash|]); (split; [exact Huser|]);
      do 7 (split; [reflexivity|]); right.
    + left. exists k. auto.
    + right. exists k. auto.
  - intros [= <- <-]; simpl.
    split; [exact Hclash|]. split; [exact Huser|].
    do 7 (split; [reflexivity|]). left. auto.
Qed.

(** No row clashes with [self] when every row of its key has its primary
    key. *)
Lemma no_clash self (rows : list LearningProgress.t) :
  ¬ Exists (DB.clashes self) rows ↔ ∀ r, r ∈ rows → key r = key self → pk r = pk self.
Proof.
  rewrite Exists_exists. unfold DB.clashes. split.
  - intros Hno r Hr Hkey. destruct (decide (pk r = pk self)) as [|Hne]; [assumption|].
    exfalso. apply Hno. eauto.
  - intros Hall (r & Hr & Hkey & Hne). apply Hne, Hall; assumption.
Qed.

(** The integers of a written row are in the range of their columns. *)
Lemma write_inr_range (now : Z) self db row db' :
  DB.write now self db = inr (row, db') →
  0 ≤ lessons_completed self ≤ DB.integer_max
  ∧ 0 ≤ current_lesson self ≤ DB.integer_max
  ∧ 0 ≤ time_spent_minutes self ≤ DB.integer_max.
Proof.
  unfold DB.write. case_decide as Hfits; [discriminate|].
  case_decide as Hneg; [discriminate|]. intros _.
  unfold DB.fits in Hfits. lia.
Qed.

Lemma write_succeeds (now : Z) self db :
  0 ≤ lessons_completed self ≤ DB.integer_max →
  0 ≤ current_lesson self ≤ DB.integer_max →
  0 ≤ time_spent_minutes self ≤ DB.integer_max →
  (∀ r, r ∈ DB.progress db → key r = key self → pk r = pk self) →
  Exists (λ u, User.id u = user_id self) (DB.users db) →
  ∃ row db', DB.write now self db = inr (row, db').
Proof.
  intros Hl Hc Hm Hno Huser. apply no_clash in Hno. unfold DB.write.
  rewrite decide_False by (intros Hnot; apply Hnot; unfold DB.fits, DB.integer_max in *; lia).
  rewrite decide_False by lia.
  rewrite decide_False by exact Hno. rewrite decide_True by exact Huser.
  destruct (pk self); [case_decide|]; eauto.
Qed.

(** A write of a new instance, or of an instance that has a row, keeps
    the table consistent. *)
Lemma write_consistent (now : Z) self db row db' :
  consistent db →
  (∀ k, pk self = Some k → Exists (λ r, pk r = Some k) (DB.progress db)) →
  DB.write now self db = inr (row, db') →
  consistent db'.
Proof.
  intros Hdb Hpk Hw. pose proof Hdb as [Hkeys Hpks Hdrawn].
  apply write_inr in Hw
    as (Hclash & _ & Hkey & _ & _ & _ & _ & _ & _ & Hcases).
  rewrite no_clash in Hclash.
  destruct Hcases as [(Hnone & Hrow & Hrows & Hseq)
                     |[(k & Hsome & Hrow & Hex & Hrows & Hseq)
                      |(k & Hsome & _ & Hnex & _)]].
  - constructor; rewrite Hrows, ?Hseq.
    + rewrite fmap_app. apply NoDup_app. split; [exact Hkeys|]. split; [|apply NoDup_singleton].
      intros x Hx Hx'. apply list_elem_of_singleton in Hx'. subst x.
      apply list_elem_of_fmap in Hx as (r & Hreq & Hr).
      destruct (consistent_pk db r Hdb Hr) as (k & Hk & _).
      rewrite (Hclash r Hr) in Hk by congruence. congruence.
    + rewrite fmap_app. apply NoDup_app. split; [exact Hpks|]. split; [|apply NoDup_singleton].
      intros x Hx Hx'. apply list_elem_of_singleton in Hx'. subst x.
      apply list_elem_of_fmap in Hx as (r & Hreq & Hr).
      destruct (consistent_pk db r Hdb Hr) as (k & Hk & Hlt).
      rewrite Hrow in Hreq. rewrite Hk in Hreq. injection Hreq as Heq. lia.
    + apply Forall_app. split.
      * eapply Forall_impl; [exact Hdrawn|]. intros r (k & Hk & Hlt). exists k. split; [exact Hk|lia].
      * constructor; [|constructor]. exists (DB.progress_seq db). split; [exact Hrow|lia].
  - destruct (replace_unique k row (DB.progress db) Hkeys Hpks) as [Hnd _].
    { intros r Hr Hreq. rewrite <- Hsome. apply Hclash; [exact Hr|congruence]. }
    constructor; rewrite Hrows, ?Hseq.
    + exact Hnd.
    + rewrite replace_pks by exact Hrow. exact Hpks.
    + apply Forall_fmap, Forall_forall. intros r Hr. simpl.
      case_decide as Hrk; [|exact (consistent_pk db r Hdb Hr)].
      destruct (consistent_pk db r Hdb Hr) as (k' & Hk' & Hlt).
      exists k'. split; [congruence|exact Hlt].
  - exfalso. apply Hnex, Hpk, Hsome.
Qed.

Lemma bind_inr {A B : Type} (r : Result A) (k : A → Result B) (y : B) :
  mbind k r = inr y → ∃ x, r = inr x ∧ k x = inr y.
Proof. destruct r as [e|x]; simpl; [discriminate|]. eauto. Qed.

Lemma validate_min_value_ok (value : Z) :
  0 ≤ value → Serializers.validate_min_value value = inr value.
Proof.
  intros Hv. unfold Serializers.validate_min_value. rewrite decide_False by lia. reflexivity.
Qed.

Lemma validate_min_value_inr (value v : Z) :
  Serializers.validate_min_value value = inr v → v = value ∧ 0 ≤ value.
Proof.
  unfold Serializers.validate_min_value. case_decide; [discriminate|].
  intros [= <-]. split; [reflexivity|lia].
Qed.

Lemma validate_related_inr {A : Type} (id : A → Z) (objects : list A) (pk v : Z) :
  Serializers.validate_related id objects pk = inr v →
  v = pk ∧ Exists (λ x, id x = pk) objects.
Proof.
  unfold Serializers.validate_related. case_decide as Hex; [|discriminate].
  intros [= <-]. auto.
Qed.

Lemma save_inr (now : Z) self db row db' :
  DB.save now self db = inr (row, db') →
  ∃ course, ORM.get (λ c, Course.id c = course_id self) (DB.courses db) = inr course
            ∧ DB.write now (save now course self) db = inr (row, db').
Proof.
  unfold DB.save.
  destruct (ORM.get (λ c, Course.id c = course_id self) (DB.courses db)) as [e|course];
    simpl; [discriminate|].
  intros Hw. exists course. auto.
Qed.

Lemma save_consistent (now : Z) self db row db' :
  consistent db →
  (∀ k, pk self = Some k → Exists (λ r, pk r = Some k) (DB.progress db)) →
  DB.save now self db = inr (row, db') →
  consistent db'.
Proof.
  intros Hdb Hpk Hs. apply save_inr in Hs as (course & _ & Hw).
  eapply write_consistent; [exact Hdb| |exact Hw].
  intros k. rewrite save_pk. apply Hpk.
Qed.

(** What a successful write of the listed columns did. *)
Lemma write_fields_inr (now : Z) self db obj db' :
  DB.write_fields now self db = inr (obj, db') →
  ∃ k, pk self = Some k
       ∧ Exists (λ r, pk r = Some k) (DB.progress db)
       ∧ obj = set_last_accessed now self
       ∧ 0 ≤ lessons_completed self ≤ DB.integer_max
       ∧ 0 ≤ time_spent_minutes self ≤ DB.integer_max
       ∧ DB.users db' = DB.users db ∧ DB.courses db' = DB.courses db
       ∧ DB.progress db'
         = (λ r, if decide (pk r = Some k) then DB.updated now self r else r)
             <$> DB.progress db
       ∧ DB.progress_seq db' = DB.progress_seq db.
Proof.
  unfold DB.write_fields. destruct (pk self) as [k|]; [|discriminate].
  case_decide as Hfits; [discriminate|]. case_decide as Hex; [|discriminate].
  case_decide as Hneg; [discriminate|]. intros [= <- <-]. exists k.
  unfold DB.fits in Hfits. simpl.
  repeat split; try reflexivity; try exact Hex; lia.
Qed.

Lemma save_update_fields_inr (now : Z) self db obj db' :
  DB.save_update_fields now self db = inr (obj, db') →
  ∃ course, ORM.get (λ c, Course.id c = course_id self) (DB.courses db) = inr course
            ∧ DB.write_fields now (save now course self) db = inr (obj, db').
Proof.
  unfold DB.save_update_fields.
  destruct (ORM.get (λ c, Course.id c = course_id self) (DB.courses db)) as [e|course];
    simpl; [discriminate|].
  intros Hw. exists course. auto.
Qed.

(** The UPDATE of the listed columns changes neither a key nor a primary
    key. *)
Lemma updated_keys (now k : Z) self (rows : list LearningProgress.t) :
  key <$> ((λ r, if decide (pk r = Some k) then DB.updated now self r else r) <$> rows)
  = key <$> rows.
Proof.
  rewrite <- list_fmap_compose. apply list_fmap_ext.
  intros i r _. simpl. case_decide; reflexivity.
Qed.

Lemma updated_pks (now k : Z) self (rows : list LearningProgress.t) :
  pk <$> ((λ r, if decide (pk r = Some k) then DB.updated now self r else r) <$> rows)
  = pk <$> rows.
Proof.
  rewrite <- list_fmap_compose. apply list_fmap_ext.
  intros i r _. simpl. case_decide; reflexivity.
Qed.

Lemma write_fields_consistent (now : Z) self db obj db' :
  consistent db → DB.write_fields now self db = inr (obj, db') → consistent db'.
Proof.
  intros Hdb Hw. pose proof Hdb as [Hkeys Hpks Hdrawn].
  apply write_fields_inr in Hw as (k & _ & _ & _ & _ & _ & _ & _ & Hrows & Hseq).
  constructor; rewrite Hrows, ?Hseq.
  - rewrite updated_keys. exact Hkeys.
  - rewrite updated_pks. exact Hpks.
  - apply Forall_fmap, Forall_forall. intros r Hr. simpl.
    case_decide; exact (consistent_pk db r Hdb Hr).
Qed.

Lemma save_update_fields_consistent (now : Z) self db obj db' :
  consistent db → DB.save_update_fields now self db = inr (obj, db') → consistent db'.
Proof.
  intros Hdb Hs. apply save_update_fields_inr in Hs as (course & _ & Hw).
  eapply write_fields_consistent; eauto.
Qed.

(** The rows selected by a filter are rows of the table, with a primary
    key. *)
Lemma selected_has_row db (P : LearningProgress.t → Prop) `{!∀ r, Decision (P r)}
    obj (rest : list LearningProgress.t) (k : Z) :
  filter P (DB.progress db) = obj :: rest →
  pk obj = Some k → Exists (λ r, pk r = Some k) (DB.progress db).
Proof.
  intros Hf Hk. apply Exists_exists. exists obj. split; [|exact Hk].
  assert (Hin : obj ∈ filter P (DB.progress db)) by (rewrite Hf; constructor).
  apply list_elem_of_filter in Hin as [_ Hin]. exact Hin.
Qed.

Lemma update_or_create_consistent (now user course lessons minutes : Z) db obj
    (created : bool) db' :
  consistent db →
  DB.update_or_create now user course lessons minutes db = inr (obj, created, db') →
  consistent db'.
Proof.
  intros Hdb. unfold DB.update_or_create.
  destruct (filter (λ r, key r = (user, course)) (DB.progress db))
    as [|o [|o' rest]] eqn:Hf; [| |discriminate].
  - destruct (DB.save now (new user course lessons minutes) db) as [e|[row d]] eqn:Hs;
      simpl; [discriminate|].
    intros [= _ _ <-]. eapply save_consistent; [exact Hdb| |exact Hs].
    intros k Hk. discriminate.
  - destruct (DB.save_update_fields now
                (set_time_spent_minutes minutes (set_lessons_completed lessons o)) db)
      as [e|[row d]] eqn:Hs; simpl; [discriminate|].
    intros [= _ _ <-]. eapply save_update_fields_consistent; eauto.
Qed.

(** What [instance.save()] stores is what [LearningProgress.save]
    computed. *)
Lemma save_stores (now : Z) self db row db' :
  DB.save now self db = inr (row, db') →
  ∃ course, ORM.get (λ c, Course.id c = course_id self) (DB.courses db) = inr course
            ∧ completion_percentage row = completion_percentage (save now course self)
            ∧ completed_at row = completed_at (save now course self)
            ∧ row ∈ DB.progress db'.
Proof.
  intros Hs. apply save_inr in Hs as (course & Hc & Hw). exists course.
  apply write_inr in Hw as (_ & _ & _ & _ & _ & Hpct & Hdone & _ & _ & Hcases).
  do 3 (split; [assumption|]).
  destruct Hcases as [(_ & _ & -> & _)
                     |[(k & _ & _ & Hex & -> & _)|(k & _ & _ & _ & -> & _)]].
  - apply elem_of_app. right. constructor.
  - apply Exists_exists in Hex as (r0 & Hr0 & Hk0).
    apply list_elem_of_fmap. exists r0. split; [|exact Hr0].
    rewrite decide_True by exact Hk0. reflexivity.
  - apply elem_of_app. right. constructor.
Qed.

(** C2 (amended): when a progress record is created, or saved as a whole,
    on a course of [L] lessons, the saved row is in the table and its
    completion percentage is [lessons_completed / L * 100] within [1e-6]
    when [L > 0], for up to [10^6 * L] lessons; when [L = 0] it is the
    percentage that the record had, which is 0 for a new record. *)
Theorem saved_completion_percentage (now : Z) self db row db' :
  DB.save now self db = inr (row, db') →
  ∃ course,
    ORM.get (λ c, Course.id c = course_id self) (DB.courses db) = inr course
    ∧ row ∈ DB.progress db'
    ∧ (0 < Course.total_lessons course →
       lessons_completed self ≤ 1000000 * Course.total_lessons course →
       Py.isclose (completion_percentage row)
         (inject_Z (lessons_completed self) / inject_Z (Course.total_lessons course)
          * 100)%Q)
    ∧ (Course.total_lessons course = 0 →
       completion_percentage row = completion_percentage self)
    ∧ (Course.total_lessons course = 0 →
       ∀ user c lessons minutes, self = new user c lessons minutes →
       (completion_percentage row == 0)%Q).
Proof.
  intros Hs. apply save_stores in Hs as (course & Hc & Hpct & _ & Hin).
  exists course. split; [exact Hc|]. split; [exact Hin|]. rewrite Hpct.
  split; [|split].
  - intros HL _. rewrite save_percentage_pos by exact HL. apply isclose_refl. reflexivity.
  - intros HL. apply save_percentage_guard. lia.
  - intros HL user c lessons minutes ->.
    rewrite save_percentage_guard by lia. reflexivity.
Qed.

Lemma saved_completion_percentage_witness :
  ∃ row db',
    DB.save 100 (new 1 1 5 0) Examples.db1 = inr (row, db')
    ∧ row ∈ DB.progress db'
    ∧ Py.isclose (completion_percentage row) (inject_Z 5 / inject_Z 10 * 100)%Q.
Proof.
  destruct (DB.save 100 (new 1 1 5 0) Examples.db1) as [e|[row db']] eqn:Hs;
    [vm_compute in Hs; discriminate|].
  exists row, db'. split; [reflexivity|].
  destruct (saved_completion_percentage 100 (new 1 1 5 0) Examples.db1 row db' Hs)
    as (course & Hc & Hin & Hpos & _).
  vm_compute in Hc. injection Hc as <-.
  split; [exact Hin|]. apply Hpos; simpl; lia.
Defined.

(** [update_or_create] inserts one row when the pair has none and
    otherwise rewrites the row of the pair in place. *)
Lemma update_or_create_in_place (now user course lessons minutes : Z) db obj
    (created : bool) db' :
  consistent db →
  DB.update_or_create now user course lessons minutes db = inr (obj, created, db') →
  (created = true ∧ records db user course = []
   ∧ length (DB.progress db') = S (length (DB.progress db)))
  ∨ (created = false ∧ (∃ o, records db user course = [o] ∧ pk obj = pk o)
     ∧ length (DB.progress db') = length (DB.progress db)).
Proof.
  intros Hdb. unfold DB.update_or_create, records.
  destruct (filter (λ r, key r = (user, course)) (DB.progress db))
    as [|o [|o' rest]] eqn:Hf; [| |discriminate].
  - destruct (DB.save now (new user course lessons minutes) db) as [e|[row d]] eqn:Hs;
      simpl; [discriminate|].
    intros [= <- <- <-]. left. do 2 (split; [reflexivity|]).
    apply save_inr in Hs as (c0 & _ & Hw).
    apply write_inr in Hw as (_ & _ & _ & _ & _ & _ & _ & _ & _ & Hcases).
    rewrite save_pk in Hcases.
    destruct Hcases as [(_ & _ & -> & _)|[(k & Hk & _)|(k & Hk & _)]];
      [|discriminate Hk|discriminate Hk].
    rewrite length_app. simpl. lia.
  - destruct (DB.save_update_fields now
                (set_time_spent_minutes minutes (set_lessons_completed lessons o)) db)
      as [e|[row d]] eqn:Hs; simpl; [discriminate|].
    intros [= <- <- <-]. right. split; [reflexivity|].
    apply save_update_fields_inr in Hs as (c0 & _ & Hw).
    apply write_fields_inr in Hw as (k & _ & _ & -> & _ & _ & _ & _ & -> & _).
    split; [|apply length_fmap].
    exists o. split; [reflexivity|]. simpl. rewrite save_pk. reflexivity.
Qed.

Lemma bulk_update_loop_consistent (now : Z) (items : list Serializers.BulkItem)
    (count : Z) db :
  consistent db → consistent (Views.bulk_update_loop now items count db).2.
Proof.
  revert count db. induction items as [|item items IH]; intros count db Hdb; simpl.
  - exact Hdb.
  - destruct (DB.update_or_create now _ _ _ _ db) as [e|[[obj created] d]] eqn:Hu.
    + exact Hdb.
    + apply IH. eapply update_or_create_consistent; eauto.
Qed.

Lemma bulk_update_consistent (now : Z) (data : list Serializers.BulkItem) db :
  consistent db → consistent (Views.bulk_update now data db).2.
Proof.
  intros Hdb. unfold Views.bulk_update.
  destruct (Serializers.is_valid db data) as [e|[errors|validated]]; simpl; auto.
  apply bulk_update_loop_consistent, Hdb.
Qed.

Lemma create_consistent (now user course lessons current minutes : Z) db obj db' :
  consistent db →
  Views.create now user course lessons current minutes db = inr (obj, db') →
  consistent db'.
Proof.
  intros Hdb Hc. unfold Views.create in Hc.
  do 6 (apply bind_inr in Hc as (? & _ & Hc)).
  eapply save_consistent; [exact Hdb| |exact Hc].
  intros k Hk. discriminate.
Qed.

Lemma update_consistent (now k user course lessons current minutes : Z) db obj db' :
  consistent db →
  Views.update now k user course lessons current minutes db = inr (obj, db') →
  consistent db'.
Proof.
  intros Hdb Hu. unfold Views.update in Hu.
  apply bind_inr in Hu as (instance & Hget & Hu).
  do 6 (apply bind_inr in Hu as (? & _ & Hu)).
  eapply save_consistent; [exact Hdb| |exact Hu].
  intros k' [= <-]. apply get_inr in Hget as (Hin & Hk & _).
  apply Exists_exists. eauto.
Qed.

(** Deleting rows keeps the table consistent. *)
Lemma delete_consistent (P : LearningProgress.t → Prop) `{!∀ r, Decision (P r)} db db' :
  DB.progress db' = filter P (DB.progress db) →
  DB.progress_seq db' = DB.progress_seq db →
  consistent db → consistent db'.
Proof.
  intros Hrows Hseq [Hkeys Hpks Hdrawn]. constructor; rewrite Hrows, ?Hseq.
  - eapply sublist_NoDup; [exact Hkeys|]. apply fmap_sublist, sublist_filter.
  - eapply sublist_NoDup; [exact Hpks|]. apply fmap_sublist, sublist_filter.
  - rewrite Forall_forall in Hdrawn. apply Forall_forall.
    intros r Hr. apply list_elem_of_filter in Hr as [_ Hr]. exact (Hdrawn r Hr).
Qed.

Lemma step_consistent db db' : consistent db → step db db' → consistent db'.
Proof.
  intros Hdb Hstep.
  destruct Hstep as [now data|now u c l cur m obj db' Hc|now k u c l cur m obj db' Hu
                    |k|c|u|db' Hrows Hseq].
  - apply bulk_update_consistent, Hdb.
  - eapply create_consistent; eauto.
  - eapply update_consistent; eauto.
  - eapply (delete_consistent (λ r, pk r ≠ Some k)); [reflexivity|reflexivity|exact Hdb].
  - eapply (delete_consistent (λ r, course_id r ≠ c)); [reflexivity|reflexivity|exact Hdb].
  - eapply (delete_consistent (λ r, user_id r ≠ u)); [reflexivity|reflexivity|exact Hdb].
  - destruct Hdb as [Hkeys Hpks Hdrawn]. constructor; rewrite Hrows, ?Hseq; assumption.
Qed.

Lemma empty_consistent : consistent DB.empty.
Proof. constructor; simpl; constructor. Qed.

Lemma reachable_consistent db : reachable db → consistent db.
Proof.
  induction 1 as [|db db' _ IH Hstep]; [apply empty_consistent|].
  eapply step_consistent; eauto.
Qed.

(** C9: in every state that the requests can reach from the empty
    database (bulk updates, single creates and updates, deletions and
    writes to the other tables), a (user, course) pair has at most one
    progress record. *)
Theorem unique_progress_record db (user course : Z) :
  reachable db → (length (records db user course) ≤ 1)%nat.
Proof.
  intros Hreach. apply reachable_consistent in Hreach as [Hkeys _ _].
  unfold records. apply (filter_unique key (user, course)), Hkeys.
Qed.

End ProgressTable.

(** * The bulk update *)

Section BulkUpdate.

Import System Views.

Implicit Types (db : DB.t) (item : Serializers.BulkItem) (data : list Serializers.BulkItem).

Lemma NoDup_fmap_eq {A K : Type} (f : A → K) (l : list A) (x y : A) :
  NoDup (f <$> l) → x ∈ l → y ∈ l → f x = f y → x = y.
Proof.
  induction l as [|z l IH]; intros Hnd Hx Hy Hf; [inversion Hx|].
  rewrite fmap_cons in Hnd. apply NoDup_cons in Hnd as [Hz Hnd].
  apply elem_of_cons in Hx as [->|Hx]; apply elem_of_cons in Hy as [->|Hy]; auto.
  - exfalso. apply Hz. rewrite Hf. apply list_elem_of_fmap. eauto.
  - exfalso. apply Hz. rewrite <- Hf. apply list_elem_of_fmap. eauto.
Qed.

(** A save that the database accepts: the saved row is in the table with
    the key and the values of the instance, and the rows of the other
    keys are still there. *)
Lemma save_applied (now : Z) (self : LearningProgress.t) db (course : Course.t) :
  consistent db →
  0 ≤ LearningProgress.lessons_completed self ≤ DB.integer_max →
  0 ≤ LearningProgress.current_lesson self ≤ DB.integer_max →
  0 ≤ LearningProgress.time_spent_minutes self ≤ DB.integer_max →
  ORM.get (λ c, Course.id c = LearningProgress.course_id self) (DB.courses db) = inr course →
  Exists (λ u, User.id u = LearningProgress.user_id self) (DB.users db) →
  (∀ r, r ∈ DB.progress db →
     LearningProgress.key r = LearningProgress.key self
     ↔ LearningProgress.pk r = LearningProgress.pk self) →
  (∀ k, LearningProgress.pk self = Some k →
     Exists (λ r, LearningProgress.pk r = Some k) (DB.progress db)) →
  ∃ row db', DB.save now self db = inr (row, db')
    ∧ DB.users db' = DB.users db ∧ DB.courses db' = DB.courses db
    ∧ row ∈ DB.progress db'
    ∧ LearningProgress.key row = LearningProgress.key self
    ∧ LearningProgress.lessons_completed row = LearningProgress.lessons_completed self
    ∧ LearningProgress.time_spent_minutes row = LearningProgress.time_spent_minutes self
    ∧ ∀ r, r ∈ DB.progress db →
           LearningProgress.key r ≠ LearningProgress.key self → r ∈ DB.progress db'.
Proof.
  intros Hdb Hlessons Hcurrent Hminutes Hcourse Huser Hrows Hpk.
  pose proof (save_key now course self) as Hkey.
  pose proof (save_pk now course self) as Hspk.
  destruct (write_succeeds now (LearningProgress.save now course self) db)
    as (row & db' & Hw).
  { rewrite save_lessons_completed. exact Hlessons. }
  { rewrite save_current_lesson. exact Hcurrent. }
  { rewrite save_time_spent_minutes. exact Hminutes. }
  { intros r Hr. rewrite Hkey, Hspk. apply Hrows, Hr. }
  { unfold LearningProgress.key in Hkey. injection Hkey as Hu _. rewrite Hu. exact Huser. }
  exists row, db'. split; [unfold DB.save; rewrite Hcourse; exact Hw|].
  apply write_inr in Hw
    as (_ & _ & Hk & Hl & Hm & _ & _ & Husers & Hcourses & Hcases).
  rewrite save_lessons_completed in Hl. rewrite save_time_spent_minutes in Hm.
  rewrite Hkey in Hk. rewrite Hspk in Hcases.
  do 2 (split; [assumption|]).
  assert (Hgoal : row ∈ DB.progress db'
                  ∧ ∀ r, r ∈ DB.progress db →
                         LearningProgress.key r ≠ LearningProgress.key self →
                         r ∈ DB.progress db'); [|tauto].
  destruct Hcases as [(_ & _ & -> & _)
                     |[(k & Hsome & Hrow & Hex & -> & _)|(k & Hsome & _ & Hnex & _)]].
  - split; [apply elem_of_app; right; constructor|].
    intros r Hr _. apply elem_of_app. left. exact Hr.
  - apply Exists_exists in Hex as (r0 & Hr0 & Hk0). split.
    + apply list_elem_of_fmap. exists r0. split; [|exact Hr0].
      rewrite decide_True by exact Hk0. reflexivity.
    + intros r Hr Hne. apply list_elem_of_fmap. exists r. split; [|exact Hr].
      rewrite decide_False; [reflexivity|].
      intros Hrk. apply Hne, Hrows; [exact Hr|congruence].
  - exfalso. apply Hnex, Hpk, Hsome.
Qed.

(** A save with [update_fields] that the database accepts: the row of the
    instance has the two new values, under its key, and the other rows
    are as they were. *)
Lemma save_update_fields_applied (now lessons minutes : Z) (o : LearningProgress.t) db
    (course : Course.t) :
  consistent db → o ∈ DB.progress db →
  0 ≤ lessons ≤ DB.integer_max → 0 ≤ minutes ≤ DB.integer_max →
  ORM.get (λ c, Course.id c = LearningProgress.course_id o) (DB.courses db) = inr course →
  ∃ obj db' row,
    DB.save_update_fields now
      (LearningProgress.set_time_spent_minutes minutes
         (LearningProgress.set_lessons_completed lessons o)) db = inr (obj, db')
    ∧ DB.users db' = DB.users db ∧ DB.courses db' = DB.courses db
    ∧ row ∈ DB.progress db'
    ∧ LearningProgress.key row = LearningProgress.key o
    ∧ LearningProgress.lessons_completed row = lessons
    ∧ LearningProgress.time_spent_minutes row = minutes
    ∧ ∀ r, r ∈ DB.progress db →
           LearningProgress.key r ≠ LearningProgress.key o → r ∈ DB.progress db'.
Proof.
  intros Hdb Ho Hlessons Hminutes Hcourse. pose proof Hdb as [_ Hpks _].
  destruct (consistent_pk db o Hdb Ho) as (k & Hk & _).
  set (self := LearningProgress.set_time_spent_minutes minutes
                 (LearningProgress.set_lessons_completed lessons o)).
  set (self' := LearningProgress.save now course self).
  assert (Hl : LearningProgress.lessons_completed self' = lessons)
    by (unfold self'; rewrite save_lessons_completed; reflexivity).
  assert (Hm : LearningProgress.time_spent_minutes self' = minutes)
    by (unfold self'; rewrite save_time_spent_minutes; reflexivity).
  assert (Hex : Exists (λ r, LearningProgress.pk r = Some k) (DB.progress db))
    by (apply Exists_exists; eauto).
  assert (Hw : DB.write_fields now self' db
               = inr (LearningProgress.set_last_accessed now self',
                      DB.set_progress
                        ((λ r, if decide (LearningProgress.pk r = Some k)
                               then DB.updated now self' r else r) <$> DB.progress db)
                        (DB.progress_seq db) db)).
  { unfold DB.write_fields. unfold self' at 1. rewrite save_pk. simpl LearningProgress.pk.
    rewrite Hk, Hl, Hm.
    rewrite decide_False
      by (intros Hnot; apply Hnot; unfold DB.fits, DB.integer_max in *; lia).
    rewrite decide_True by exact Hex. rewrite decide_False by lia. reflexivity. }
  eexists _, _, (DB.updated now self' o).
  split; [unfold DB.save_update_fields; simpl LearningProgress.course_id;
          rewrite Hcourse; exact Hw|].
  do 2 (split; [reflexivity|]). split; [|split; [reflexivity|]].
  - simpl. apply list_elem_of_fmap. exists o. split; [|exact Ho].
    rewrite decide_True by exact Hk. reflexivity.
  - split; [exact Hl|]. split; [exact Hm|].
    intros r Hr Hne. simpl. apply list_elem_of_fmap. exists r. split; [|exact Hr].
    rewrite decide_False; [reflexivity|].
    intros Hrk. apply Hne. f_equal. eapply NoDup_fmap_eq; eauto. congruence.
Qed.

Lemma update_or_create_applied (now user course lessons minutes : Z) db (c0 : Course.t) :
  consistent db →
  0 ≤ lessons ≤ DB.integer_max → 0 ≤ minutes ≤ DB.integer_max →
  Exists (λ u, User.id u = user) (DB.users db) →
  ORM.get (λ c, Course.id c = course) (DB.courses db) = inr c0 →
  ∃ obj created db' row,
    DB.update_or_create now user course lessons minutes db = inr (obj, created, db')
    ∧ DB.users db' = DB.users db ∧ DB.courses db' = DB.courses db
    ∧ row ∈ DB.progress db'
    ∧ LearningProgress.key row = (user, course)
    ∧ LearningProgress.lessons_completed row = lessons
    ∧ LearningProgress.time_spent_minutes row = minutes
    ∧ ∀ r, r ∈ DB.progress db → LearningProgress.key r ≠ (user, course) →
           r ∈ DB.progress db'.
Proof.
  intros Hdb Hlessons Hminutes Huser Hcourse. pose proof Hdb as [Hkeys Hpks _].
  pose proof (filter_unique LearningProgress.key (user, course) _ Hkeys) as Hlen.
  unfold DB.update_or_create.
  destruct (filter (λ r, LearningProgress.key r = (user, course)) (DB.progress db))
    as [|o [|o' rest]] eqn:Hf; simpl in Hlen; [| |lia].
  - destruct (save_applied now (LearningProgress.new user course lessons minutes) db c0)
      as (row & db' & Hs & Hrest); try assumption.
    + simpl. unfold DB.integer_max. lia.
    + intros r Hr. simpl. destruct (consistent_pk db r Hdb Hr) as (k & Hk & _).
      split; [|congruence]. intros Hkey.
      assert (Hin : r ∈ filter (λ r, LearningProgress.key r = (user, course)) (DB.progress db))
        by (apply list_elem_of_filter; auto).
      rewrite Hf in Hin. inversion Hin.
    + intros k Hk. discriminate.
    + rewrite Hs. simpl. exists row, true, db', row. split; [reflexivity|exact Hrest].
  - assert (Ho : o ∈ filter (λ r, LearningProgress.key r = (user, course)) (DB.progress db))
      by (rewrite Hf; constructor).
    apply list_elem_of_filter in Ho as [Hokey Ho].
    destruct (save_update_fields_applied now lessons minutes o db c0)
      as (obj & db' & row & Hs & Hrest); try assumption.
    { unfold LearningProgress.key in Hokey. injection Hokey as _ ->. exact Hcourse. }
    rewrite Hs. simpl. exists obj, false, db', row. split; [reflexivity|].
    rewrite Hokey in Hrest. exact Hrest.
Qed.

Lemma mapM_inr {A B : Type} (f : A → Result B) (l : list A) :
  (∀ x, x ∈ l → ∃ y, f x = inr y) →
  ∃ ys, mapM f l = inr ys ∧ Forall2 (λ x y, f x = inr y) l ys.
Proof.
  induction l as [|x l IH]; intros Hf.
  - exists []. split; [reflexivity|constructor].
  - destruct (Hf x) as [y Hy]; [left|].
    destruct IH as (ys & Hm & Hall); [intros x' Hx'; apply Hf; right; exact Hx'|].
    exists (y :: ys). split; [|constructor; assumption].
    change (mapM f (x :: l)) with (y ← f x; k ← mapM f l; mret (y :: k)).
    rewrite Hy. simpl. rewrite Hm. reflexivity.
Qed.

(** With unique ids, the validation of an item raises nothing: the item
    is valid, or it has a non-empty error dict. *)
Lemma run_validation_cases db item :
  unique_ids db →
  valid db item
  ∨ ∃ errs, errs ≠ [] ∧ Serializers.run_validation db item = inr (inl errs).
Proof.
  intros [Husers Hcourses]. unfold valid, Serializers.run_validation.
  destruct (Serializers.field_errors item) as [|e errs];
    [|right; eexists; split; [|reflexivity]; discriminate].
  unfold Serializers.validate.
  destruct (get_unique User.id (Serializers.user_id item) _ Husers)
    as [[Hu _]|(u & Hu & _)]; rewrite Hu;
    [right; eexists; split; [|reflexivity]; discriminate|].
  destruct (get_unique Course.id (Serializers.course_id item) _ Hcourses)
    as [[Hc _]|(c & Hc & _)]; rewrite Hc;
    [right; eexists; split; [|reflexivity]; discriminate|].
  left. reflexivity.
Qed.

Lemma valid_applicable db item :
  valid db item → applicable (DB.users db) (DB.courses db) item.
Proof.
  unfold valid, Serializers.run_validation, applicable.
  destruct (Serializers.field_errors item); [|discriminate].
  unfold Serializers.validate.
  destruct (ORM.get (λ u, User.id u = Serializers.user_id item) (DB.users db))
    as [[]|u] eqn:Hu; try discriminate.
  destruct (ORM.get (λ c, Course.id c = Serializers.course_id item) (DB.courses db))
    as [[]|c] eqn:Hc; try discriminate.
  intros _. apply get_inr in Hu as (Hin & Hid & _).
  split; [apply Exists_exists|]; eauto.
Qed.

Lemma errors_of_results db data (rs : list (Serializers.ErrorDict + Serializers.BulkItem)) :
  unique_ids db →
  Forall2 (λ item r, Serializers.run_validation db item = inr r) data rs →
  Forall2 (λ item errs, errs = [] ↔ valid db item) data
    ((λ r : Serializers.ErrorDict + Serializers.BulkItem,
        match r with inl e => e | inr _ => [] end) <$> rs)
  ∧ (Forall (valid db) data →
     omap (λ r : Serializers.ErrorDict + Serializers.BulkItem,
             match r with inr d => Some d | inl _ => None end) rs = data).
Proof.
  intros Hids. induction 1 as [|item r data rs Hr _ [IH1 IH2]]; csimpl.
  - split; [constructor|reflexivity].
  - split.
    + constructor; [|exact IH1].
      destruct (run_validation_cases db item Hids) as [Hv|(errs & Hne & He)].
      * unfold valid in Hv. rewrite Hv in Hr. injection Hr as <-. tauto.
      * rewrite He in Hr. injection Hr as <-. unfold valid. split; [contradiction|].
        rewrite He. discriminate.
    + intros Hall. apply Forall_cons in Hall as [Hv Hall].
      unfold valid in Hv. rewrite Hv in Hr. injection Hr as <-.
      csimpl. rewrite IH2 by exact Hall. reflexivity.
Qed.

(** The validation of a batch: it is accepted entirely or rejected
    entirely, with one error dict for each item. *)
Lemma is_valid_spec db data :
  unique_ids db →
  (Forall (valid db) data → Serializers.is_valid db data = inr (inr data))
  ∧ (¬ Forall (valid db) data →
     ∃ errors, Serializers.is_valid db data = inr (inl errors)
               ∧ Forall2 (λ item errs, errs = [] ↔ valid db item) data errors).
Proof.
  intros Hids.
  destruct (mapM_inr (Serializers.run_validation db) data) as (rs & Hm & Hrs).
  { intros item _. destruct (run_validation_cases db item Hids) as [Hv|(errs & _ & He)]; eauto. }
  destruct (errors_of_results db data rs Hids Hrs) as [Herrs Hret].
  unfold Serializers.is_valid. rewrite Hm. simpl.
  assert (Hiff : Forall (valid db) data ↔
                 ¬ Exists (λ e : Serializers.ErrorDict, e ≠ [])
                     ((λ r : Serializers.ErrorDict + Serializers.BulkItem,
                         match r with inl e => e | inr _ => [] end) <$> rs)).
  { clear -Herrs. induction Herrs as [|item errs data errors Hi _ IH].
    - split; [intros _ H; inversion H|constructor].
    - rewrite Forall_cons, Exists_cons, IH, <- Hi.
      destruct (decide (errs = [])); tauto. }
  split.
  - intros Hall. case_decide as Hex; [exfalso; exact (proj1 Hiff Hall Hex)|].
    rewrite Hret by exact Hall. reflexivity.
  - intros Hnot. case_decide as Hex; [|exfalso; apply Hnot, Hiff, Hex].
    eexists. split; [reflexivity|exact Herrs].
Qed.

(** The loop over a batch whose users and courses exist: every item is
    written, a later item of the same pair over an earlier one. *)
Lemma bulk_update_loop_applied (now : Z) data :
  ∀ (count : Z) db,
    consistent db →
    Forall (applicable (DB.users db) (DB.courses db)) data →
    Forall (λ item, 0 ≤ Serializers.lessons_completed item ≤ DB.integer_max
                    ∧ 0 ≤ Serializers.time_spent_minutes item ≤ DB.integer_max) data →
    ∃ db', bulk_update_loop now data count db
           = (HTTP_200_OK (count + Z.of_nat (length data)), db')
      ∧ (∀ r, r ∈ DB.progress db →
              (∀ item, item ∈ data →
                       (Serializers.user_id item, Serializers.course_id item)
                       ≠ LearningProgress.key r) →
              r ∈ DB.progress db')
      ∧ (∀ (i : nat) item, data !! i = Some item →
           (∀ (j : nat) item', (i < j)%nat → data !! j = Some item' →
              (Serializers.user_id item', Serializers.course_id item')
              ≠ (Serializers.user_id item, Serializers.course_id item)) →
           ∃ row, row ∈ DB.progress db'
                  ∧ LearningProgress.key row
                    = (Serializers.user_id item, Serializers.course_id item)
                  ∧ LearningProgress.lessons_completed row
                    = Serializers.lessons_completed item
                  ∧ LearningProgress.time_spent_minutes row
                    = Serializers.time_spent_minutes item).
Proof.
  induction data as [|item data IH]; intros count db Hdb Happ Hfit.
  - exists db. split; [simpl; do 2 f_equal; lia|]. split; [auto|].
    intros i item Hi. inversion Hi.
  - apply Forall_cons in Happ as [[Huser [c0 Hcourse]] Happ].
    apply Forall_cons in Hfit as [[Hlessons Hminutes] Hfit].
    destruct (update_or_create_applied now (Serializers.user_id item)
                (Serializers.course_id item) (Serializers.lessons_completed item)
                (Serializers.time_spent_minutes item) db c0 Hdb Hlessons Hminutes
                Huser Hcourse)
      as (obj0 & created & db1 & obj & Hu & Husers & Hcourses & Hobj & Hkey & Hl & Hm
          & Hkeep).
    destruct (IH (count + 1) db1) as (db' & Hloop & Hkeep' & Happlied).
    { eapply update_or_create_consistent; eauto. }
    { rewrite Husers, Hcourses. exact Happ. }
    { exact Hfit. }
    exists db'. split; [|split].
    + simpl bulk_update_loop. rewrite Hu, Hloop. do 2 f_equal. simpl length. lia.
    + intros r Hr Hother. apply Hkeep'.
      * apply Hkeep; [exact Hr|]. intros Heq. apply (Hother item); [left|auto].
      * intros item' Hitem'. apply Hother. right. exact Hitem'.
    + intros [|i] it Hi Hlater.
      * injection Hi as <-. exists obj. split; [|auto].
        apply Hkeep'; [exact Hobj|]. intros item' Hitem'. rewrite Hkey.
        apply list_elem_of_lookup in Hitem' as [j Hj].
        apply (Hlater (S j)); [lia|exact Hj].
      * apply (Happlied i it Hi). intros j item' Hij Hj.
        apply (Hlater (S j)); [lia|exact Hj].
Qed.

(** C1, as the claim has it, fails: in a batch of an item with an unknown
    user and a valid item, the valid item is not applied; the request is
    refused and the progress table stays empty. *)
Lemma bulk_update_rejects_whole_batch :
  valid Examples.db1 (Serializers.Build_BulkItem 1 1 5 20)
  ∧ bulk_update 100 Examples.mixed_batch Examples.db1
    = (HTTP_400_BAD_REQUEST
         [[("non_field_errors", ["User with id 99 does not exist"])]; []],
       Examples.db1)
  ∧ records (bulk_update 100 Examples.mixed_batch Examples.db1).2 1 1 = [].
Proof. split; [|split]; vm_compute; reflexivity. Qed.

(** A valid item has passed the two [min_value=0]. *)
Lemma valid_non_negative db item :
  valid db item →
  0 ≤ Serializers.lessons_completed item ∧ 0 ≤ Serializers.time_spent_minutes item.
Proof.
  unfold valid, Serializers.run_validation, Serializers.field_errors.
  destruct (decide (Serializers.lessons_completed item < 0)); [discriminate|].
  destruct (decide (Serializers.time_spent_minutes item < 0)); [discriminate|].
  intros _. lia.
Qed.

Lemma storable_fits db item :
  valid db item → storable item →
  0 ≤ Serializers.lessons_completed item ≤ DB.integer_max
  ∧ 0 ≤ Serializers.time_spent_minutes item ≤ DB.integer_max.
Proof.
  intros Hv [Hl Hm]. apply valid_non_negative in Hv.
  unfold DB.integer_safe in *. unfold DB.integer_max. lia.
Qed.

(** The loop has no transaction of its own: when the write of an item
    raises, the items before it stay applied. In a batch of two valid
    items whose second one reports more lessons than the column holds, the
    first item is stored and the request ends in the exception of the
    second. *)
Lemma bulk_update_stops_at_overflow :
  Forall (valid Examples.db1) Examples.overflow_batch
  ∧ ∃ db' row,
      bulk_update 100 Examples.overflow_batch Examples.db1 = (HTTP_500 OverflowError, db')
      ∧ records db' 1 1 = [row]
      ∧ LearningProgress.lessons_completed row = 5.
Proof.
  split; [repeat constructor|].
  eexists _, _. split; [vm_compute; reflexivity|].
  split; [vm_compute; reflexivity|reflexivity].
Qed.

(** C1 (amended): the items of a bulk update are validated one by one, and
    the validation accepts the batch as a whole or refuses it as a whole.
    When every item is valid and its two integers are in the range that
    every database holds, the answer is 200 with the number of items, and
    every item is stored (the last item of a pair when the batch names the
    pair more than once). When an item is invalid, the answer is 400 with
    one error dict for each item, empty exactly for the valid ones, and
    the database is unchanged. *)
Theorem bulk_update_all_or_nothing (now : Z) data db :
  consistent db → unique_ids db →
  (Forall (valid db) data → Forall storable data →
     ∃ db', bulk_update now data db = (HTTP_200_OK (Z.of_nat (length data)), db')
       ∧ ∀ (i : nat) item, data !! i = Some item →
           (∀ (j : nat) item', (i < j)%nat → data !! j = Some item' →
              (Serializers.user_id item', Serializers.course_id item')
              ≠ (Serializers.user_id item, Serializers.course_id item)) →
           ∃ row, row ∈ DB.progress db'
                  ∧ LearningProgress.key row
                    = (Serializers.user_id item, Serializers.course_id item)
                  ∧ LearningProgress.lessons_completed row
                    = Serializers.lessons_completed item
                  ∧ LearningProgress.time_spent_minutes row
                    = Serializers.time_spent_minutes item)
  ∧ (¬ Forall (valid db) data →
     ∃ errors, bulk_update now data db = (HTTP_400_BAD_REQUEST errors, db)
               ∧ Forall2 (λ item errs, errs = [] ↔ valid db item) data errors).
Proof.
  intros Hdb Hids. destruct (is_valid_spec db data Hids) as [Hok Hbad]. split.
  - intros Hall Hstorable. unfold bulk_update. rewrite (Hok Hall).
    destruct (bulk_update_loop_applied now data 0 db Hdb) as (db' & Hloop & _ & Happlied).
    { eapply Forall_impl; [exact Hall|]. intros item. apply valid_applicable. }
    { rewrite Forall_forall in Hall, Hstorable. apply Forall_forall.
      intros item Hitem. eapply storable_fits; eauto. }
    exists db'. split; [exact Hloop|exact Happlied].
  - intros Hnot. destruct (Hbad Hnot) as (errors & Hv & Herrors).
    exists errors. unfold bulk_update. rewrite Hv. auto.
Qed.

Lemma bulk_update_all_or_nothing_witness :
  (∃ db' row, bulk_update 100 Examples.valid_batch Examples.db1 = (HTTP_200_OK 2, db')
              ∧ row ∈ DB.progress db'
              ∧ LearningProgress.key row = (1, 1)
              ∧ LearningProgress.lessons_completed row = 10)
  ∧ (∃ errors, bulk_update 100 Examples.mixed_batch Examples.db1
               = (HTTP_400_BAD_REQUEST errors, Examples.db1)).
Proof.
  assert (Hdb : consistent Examples.db1) by (constructor; simpl; constructor).
  assert (Hids : unique_ids Examples.db1).
  { split; simpl; (apply NoDup_cons; split; [inversion 1|constructor]). }
  split.
  - destruct (bulk_update_all_or_nothing 100 Examples.valid_batch Examples.db1 Hdb Hids)
      as [Hok _].
    destruct Hok as (db' & Hresp & Happlied).
    { repeat constructor. }
    { repeat constructor; unfold DB.integer_safe; simpl; lia. }
    destruct (Happlied 1%nat (Serializers.Build_BulkItem 1 1 10 30) eq_refl)
      as (row & Hrow & Hkey & Hl & _).
    { intros [|[|j]] item' Hj Hitem'; [lia|lia|discriminate]. }
    exists db', row. auto.
  - destruct (bulk_update_all_or_nothing 100 Examples.mixed_batch Examples.db1 Hdb Hids)
      as [_ Hbad].
    destruct Hbad as (errors & Hresp & _).
    { intros Hall. apply Forall_cons in Hall as [Hv _]. discriminate Hv. }
    exists errors. exact Hresp.
Defined.

(** The single-record path refuses more lessons than the course has, and
    its message names the number of lessons of the course. *)
Lemma create_rejects_excess_lessons (now user course lessons current minutes : Z) db
    (c : Course.t) :
  ORM.get (λ c, Course.id c = course) (DB.courses db) = inr c →
  0 ≤ Course.total_lessons c < lessons →
  create now user course lessons current minutes db
  = inl (ValidationError
           ("Cannot complete more than " +:+ pretty (Course.total_lessons c) +:+ " lessons")).
Proof.
  intros Hc Hlt. unfold create.
  rewrite (validate_min_value_ok lessons) by lia. simpl.
  unfold Serializers.validate_lessons_completed.
  rewrite Hc. simpl. rewrite decide_True by lia. reflexivity.
Qed.

(** C4 fails on the bulk path: a bulk update that reports 11 lessons of a
    course of 10 is answered 200 and stores the 11 lessons, at 110
    percent, where the single-record validator refuses the same value. *)
Lemma bulk_update_accepts_excess_lessons :
  ∃ db' row,
    bulk_update 100 Examples.excess_batch Examples.db1 = (HTTP_200_OK 1, db')
    ∧ records db' 1 1 = [row]
    ∧ LearningProgress.lessons_completed row = 11
    ∧ Course.total_lessons Examples.course10 = 10
    ∧ (LearningProgress.completion_percentage row == 110)%Q
    ∧ Serializers.validate_lessons_completed (DB.courses Examples.db1) None (Some 1) 11
      = inl (ValidationError "Cannot complete more than 10 lessons").
Proof.
  eexists _, _. split; [vm_compute; reflexivity|].
  split; [vm_compute; reflexivity|]. repeat split.
Qed.

(** The database after the two items of [Examples.valid_batch] is
    reachable and holds one record of the pair. *)
Lemma unique_progress_record_witness :
  records (bulk_update 100 Examples.valid_batch Examples.db1).2 1 1 ≠ []
  ∧ (length (records (bulk_update 100 Examples.valid_batch Examples.db1).2 1 1) ≤ 1)%nat.
Proof.
  split; [vm_compute; discriminate|].
  apply unique_progress_record.
  apply (reachable_step Examples.db1); [|apply step_bulk_update].
  apply (reachable_step DB.empty); [apply reachable_empty|].
  apply step_other; reflexivity.
Defined.

End BulkUpdate.

(** * Rounding and aggregates keep the order *)

Section Aggregates.

Local Open Scope Q_scope.

Lemma round_half_even_floor (q : Q) :
  (Qfloor q ≤ Py.round_half_even q ≤ Qfloor q + 1)%Z.
Proof.
  unfold Py.round_half_even.
  destruct (q - inject_Z (Qfloor q) ?= 1 # 2); [destruct (Z.even (Qfloor q))| |]; lia.
Qed.

Lemma round_half_even_mono (q q' : Q) :
  q <= q' → (Py.round_half_even q ≤ Py.round_half_even q')%Z.
Proof.
  intros Hle. pose proof (Qfloor_resp_le _ _ Hle) as Hf.
  pose proof (round_half_even_floor q) as Hq.
  pose proof (round_half_even_floor q') as Hq'.
  destruct (Z.eq_dec (Qfloor q) (Qfloor q')) as [Heq|Hne]; [|lia].
  clear Hq Hq'. unfold Py.round_half_even. rewrite <- Heq.
  assert (Hr : q - inject_Z (Qfloor q) <= q' - inject_Z (Qfloor q)).
  { apply Qplus_le_l. exact Hle. }
  destruct (Qcompare_spec (q - inject_Z (Qfloor q)) (1 # 2)) as [H1|H1|H1];
    destruct (Qcompare_spec (q' - inject_Z (Qfloor q)) (1 # 2)) as [H2|H2|H2];
    try (destruct (Z.even (Qfloor q)); lia).
  - exfalso. rewrite H1 in Hr. exact (Qlt_not_le _ _ H2 Hr).
  - exfalso. rewrite H2 in Hr. exact (Qlt_not_le _ _ H1 Hr).
  - exfalso. apply (Qlt_irrefl (1 # 2)).
    eapply Qlt_trans; [exact H1|]. eapply Qle_lt_trans; [exact Hr|exact H2].
Qed.

Lemma round2_mono (q q' : Q) : q <= q' → Py.round2 q <= Py.round2 q'.
Proof.
  intros Hle. unfold Py.round2.
  assert (H : (Py.round_half_even (q * 100) ≤ Py.round_half_even (q' * 100))%Z).
  { apply round_half_even_mono. apply Qmult_le_compat_r; [exact Hle|discriminate]. }
  unfold Qle. simpl. lia.
Qed.

Lemma Count_cons {A : Type} (x : A) (l : list A) :
  inject_Z (ORM.Count (x :: l)) == inject_Z (ORM.Count l) + 1.
Proof.
  unfold ORM.Count. simpl length. rewrite Nat2Z.inj_succ, <- Z.add_1_r.
  rewrite inject_Z_plus. reflexivity.
Qed.

(** The sum of values between two bounds is between the bounds times the
    number of values. *)
Lemma Sum_bounds (lo hi : Q) (vs : list Q) :
  Forall (λ v, lo <= v ∧ v <= hi) vs →
  inject_Z (ORM.Count vs) * lo <= ORM.Sum vs ∧ ORM.Sum vs <= inject_Z (ORM.Count vs) * hi.
Proof.
  induction 1 as [|v vs [Hlo Hhi] _ [IHlo IHhi]].
  - unfold ORM.Count. simpl. rewrite !Qmult_0_l. split; apply Qle_refl.
  - change (ORM.Sum (v :: vs)) with (v + ORM.Sum vs). rewrite Count_cons. split.
    + assert (Heq : (inject_Z (ORM.Count vs) + 1) * lo
                    == lo + inject_Z (ORM.Count vs) * lo) by ring.
      rewrite Heq. apply Qplus_le_compat; assumption.
    + assert (Heq : (inject_Z (ORM.Count vs) + 1) * hi
                    == hi + inject_Z (ORM.Count vs) * hi) by ring.
      rewrite Heq. apply Qplus_le_compat; assumption.
Qed.

(** The average of values between two bounds is between the bounds. *)
Lemma Avg_bounds (lo hi : Q) (vs : list Q) (a : Q) :
  ORM.Avg vs = Some a → Forall (λ v, lo <= v ∧ v <= hi) vs → lo <= a ∧ a <= hi.
Proof.
  intros Ha Hvs. destruct (Sum_bounds lo hi vs Hvs) as [Hlo Hhi].
  destruct vs as [|v vs]; [discriminate|]. injection Ha as <-.
  assert (Hpos : 0 < inject_Z (ORM.Count (v :: vs))).
  { unfold ORM.Count, Qlt. simpl. lia. }
  split.
  - apply Qle_shift_div_l; [exact Hpos|]. rewrite Qmult_comm. exact Hlo.
  - apply Qle_shift_div_r; [exact Hpos|]. rewrite Qmult_comm. exact Hhi.
Qed.

Lemma Qmin_le (a b : Q) : ORM.Qmin a b <= a ∧ ORM.Qmin a b <= b.
Proof.
  unfold ORM.Qmin. destruct (Qle_bool a b) eqn:Hab.
  - apply Qle_bool_iff in Hab. split; [apply Qle_refl|exact Hab].
  - split; [|apply Qle_refl]. apply Qlt_le_weak, Qnot_le_lt.
    intros H. apply Qle_bool_iff in H. congruence.
Qed.

Lemma Qmax_ge (a b : Q) : a <= ORM.Qmax a b ∧ b <= ORM.Qmax a b.
Proof.
  unfold ORM.Qmax. destruct (Qle_bool a b) eqn:Hab.
  - apply Qle_bool_iff in Hab. split; [exact Hab|apply Qle_refl].
  - split; [apply Qle_refl|]. apply Qlt_le_weak, Qnot_le_lt.
    intros H. apply Qle_bool_iff in H. congruence.
Qed.

Lemma foldl_Qmin_le (acc : Q) (vs : list Q) :
  foldl ORM.Qmin acc vs <= acc ∧ Forall (λ v, foldl ORM.Qmin acc vs <= v) vs.
Proof.
  revert acc. induction vs as [|v vs IH]; intros acc; simpl.
  - split; [apply Qle_refl|constructor].
  - destruct (IH (ORM.Qmin acc v)) as [H1 H2]. destruct (Qmin_le acc v) as [Ha Hv].
    split; [eapply Qle_trans; eauto|].
    constructor; [eapply Qle_trans; eauto|exact H2].
Qed.

Lemma foldl_Qmax_ge (acc : Q) (vs : list Q) :
  acc <= foldl ORM.Qmax acc vs ∧ Forall (λ v, v <= foldl ORM.Qmax acc vs) vs.
Proof.
  revert acc. induction vs as [|v vs IH]; intros acc; simpl.
  - split; [apply Qle_refl|constructor].
  - destruct (IH (ORM.Qmax acc v)) as [H1 H2]. destruct (Qmax_ge acc v) as [Ha Hv].
    split; [eapply Qle_trans; eauto|].
    constructor; [eapply Qle_trans; eauto|exact H2].
Qed.

(** On a non-empty column, [Min], [Avg] and [Max] exist and are in that
    order. *)
Lemma Min_Avg_Max (vs : list Q) :
  vs ≠ [] →
  ∃ m a M, ORM.Min vs = Some m ∧ ORM.Avg vs = Some a ∧ ORM.Max vs = Some M
           ∧ m <= a ∧ a <= M.
Proof.
  destruct vs as [|v vs]; [contradiction|]. intros _.
  destruct (foldl_Qmin_le v vs) as [Hm1 Hm2]. destruct (foldl_Qmax_ge v vs) as [HM1 HM2].
  eexists _, _, _. split; [reflexivity|]. split; [reflexivity|]. split; [reflexivity|].
  apply (Avg_bounds _ _ (v :: vs)); [reflexivity|].
  constructor; [split; assumption|].
  rewrite Forall_forall in *. intros x Hx. split; [apply Hm2|apply HM2]; exact Hx.
Qed.

End Aggregates.

(** * The rows of the API log statistics *)

Section StatisticsRows.

Import Views.
Local Open Scope Q_scope.

Implicit Types (objects : list APIResponseLog.t).

Lemma sum_Permutation (l k : list Z) :
  l ≡ₚ k → foldr Z.add 0%Z l = foldr Z.add 0%Z k.
Proof.
  induction 1 as [|x l k _ IH|x y l|l k m _ IH1 _ IH2]; simpl; [reflexivity|lia|lia|congruence].
Qed.

(** Counting the rows of a table key by key counts every row once. *)
Lemma count_by_key {A K : Type} `{!EqDecision K} (f : A → K) (keys : list K) :
  NoDup keys →
  ∀ l : list A, (∀ x, x ∈ l → f x ∈ keys) →
  foldr Z.add 0%Z ((λ k, ORM.Count (filter (λ x, f x = k) l)) <$> keys) = ORM.Count l.
Proof.
  induction 1 as [|k0 keys Hk0 _ IH]; intros l Hl.
  - destruct l as [|x l]; [reflexivity|]. specialize (Hl x (list_elem_of_here _ _)).
    inversion Hl.
  - rewrite fmap_cons. simpl foldr.
    assert (Hrest : (λ k, ORM.Count (filter (λ x, f x = k) l)) <$> keys
                    = (λ k, ORM.Count (filter (λ x, f x = k)
                                         (filter (λ x, ¬ f x = k0) l))) <$> keys).
    { apply list_fmap_ext. intros i k Hi. f_equal. symmetry.
      apply list_filter_filter_l. intros x -> Heq. apply Hk0. rewrite <- Heq.
      apply list_elem_of_lookup. eauto. }
    rewrite Hrest, IH.
    + pose proof (filter_app_complement (λ x, f x = k0) l) as Hperm.
      apply Permutation_length in Hperm. rewrite length_app in Hperm.
      unfold ORM.Count. lia.
    + intros x Hx. apply list_elem_of_filter in Hx as [Hne Hx].
      specialize (Hl x Hx). apply elem_of_cons in Hl as [Heq|Hin]; [contradiction|exact Hin].
Qed.

(** The rows before they are shaped: a permutation of the annotated
    endpoints of the window. *)
Lemma statistics_Permutation objects (now : Z) (hours_param : option Z) :
  let since := (now - APIResponseLog.timedelta_hours (default 24%Z hours_param))%Z in
  let window := filter (λ l, (since ≤ APIResponseLog.timestamp l)%Z) objects in
  statistics objects now hours_param
  ≡ₚ (λ e, stat_row (annotate window e)) <$> remove_dups (APIResponseLog.endpoint <$> window).
Proof.
  intros since window. unfold statistics. fold since window.
  rewrite merge_sort_Permutation, <- list_fmap_compose. reflexivity.
Qed.

(** X1: the rows of the statistics come in the order of their
    [total_requests], largest first: every row has at least as many
    requests as every row after it. *)
Theorem statistics_sorted objects (now : Z) (hours_param : option Z) :
  StronglySorted (λ r1 r2, (total_requests r2 ≤ total_requests r1)%Z)
    (statistics objects now hours_param).
Proof.
  unfold statistics.
  apply (StronglySorted_fmap stat_row by_total_requests_desc).
  - intros s1 s2 H. exact H.
  - apply StronglySorted_merge_sort.
    + intros s1 s2 s3. unfold by_total_requests_desc. lia.
    + intros s1 s2. unfold by_total_requests_desc. lia.
Qed.

(** X2: the statistics have one row for each endpoint called in the
    window and no other row, and every row counts at least one request. *)
Theorem statistics_endpoints objects (now : Z) (hours_param : option Z) :
  let since := (now - APIResponseLog.timedelta_hours (default 24%Z hours_param))%Z in
  NoDup (endpoint <$> statistics objects now hours_param)
  ∧ (∀ e, e ∈ endpoint <$> statistics objects now hours_param ↔
          ∃ l, l ∈ objects ∧ (since ≤ APIResponseLog.timestamp l)%Z
               ∧ APIResponseLog.endpoint l = e)
  ∧ Forall (λ row, (1 ≤ total_requests row)%Z) (statistics objects now hours_param).
Proof.
  intros since.
  set (window := filter (λ l, (since ≤ APIResponseLog.timestamp l)%Z) objects).
  assert (Hperm : endpoint <$> statistics objects now hours_param
                  ≡ₚ remove_dups (APIResponseLog.endpoint <$> window)).
  { rewrite statistics_Permutation. fold since window.
    rewrite <- list_fmap_compose. rewrite <- (list_fmap_id (remove_dups _)) at 2.
    reflexivity. }
  split; [|split].
  - rewrite Hperm. apply NoDup_remove_dups.
  - intros e. rewrite Hperm, elem_of_remove_dups, list_elem_of_fmap. split.
    + intros (l & -> & Hl). apply list_elem_of_filter in Hl as [Hts Hl]. eauto.
    + intros (l & Hl & Hts & <-). exists l. split; [reflexivity|].
      apply list_elem_of_filter. auto.
  - apply Forall_forall. intros row Hrow.
    destruct (elem_of_statistics _ _ _ _ Hrow) as (l & Hl & ->).
    fold since window in Hl. simpl.
    assert (Hpos : (0 < ORM.Count (filter (λ l', APIResponseLog.endpoint l'
                                                 = APIResponseLog.endpoint l) window))%Z).
    { apply (Count_pos _ l), list_elem_of_filter. auto. }
    fold since window. lia.
Qed.

(** X3: the [total_requests] of the rows add up to the number of calls
    logged in the window. *)
Theorem statistics_totals objects (now : Z) (hours_param : option Z) :
  let since := (now - APIResponseLog.timedelta_hours (default 24%Z hours_param))%Z in
  foldr Z.add 0%Z (total_requests <$> statistics objects now hours_param)
  = ORM.Count (filter (λ l, (since ≤ APIResponseLog.timestamp l)%Z) objects).
Proof.
  intros since.
  set (window := filter (λ l, (since ≤ APIResponseLog.timestamp l)%Z) objects).
  rewrite (sum_Permutation _
             (total_requests <$> ((λ e, stat_row (annotate window e))
                                    <$> remove_dups (APIResponseLog.endpoint <$> window)))).
  - rewrite <- list_fmap_compose.
    apply (count_by_key APIResponseLog.endpoint).
    + apply NoDup_remove_dups.
    + intros l Hl. apply elem_of_remove_dups, list_elem_of_fmap. eauto.
  - apply fmap_Permutation, statistics_Permutation.
Qed.

(** X4: every row of the statistics has a minimum, an average and a
    maximum response time, so that [round] never meets a [None], and the
    minimum is not above the maximum. *)
Theorem statistics_min_avg_max objects (now : Z) (hours_param : option Z) (row : StatRow) :
  row ∈ statistics objects now hours_param →
  ∃ m a M, min_response_time row = Some m
           ∧ average_response_time row = Some a
           ∧ max_response_time row = Some M
           ∧ m <= M.
Proof.
  intros Hrow. destruct (elem_of_statistics _ _ _ _ Hrow) as (l & Hl & ->).
  set (window := filter _ objects) in *.
  destruct (Min_Avg_Max
              (APIResponseLog.response_time_ms
                 <$> filter (λ l', APIResponseLog.endpoint l' = APIResponseLog.endpoint l)
                       window))
    as (m & a & M & Hm & Ha & HM & Hma & HaM).
  { intros Hnil. apply fmap_nil_inv in Hnil.
    assert (Hin : l ∈ filter (λ l', APIResponseLog.endpoint l' = APIResponseLog.endpoint l)
                        window) by (apply list_elem_of_filter; auto).
    rewrite Hnil in Hin. inversion Hin. }
  exists (Py.round2 m), (Py.round2 a), (Py.round2 M).
  unfold stat_row, annotate. simpl. rewrite Hm, Ha, HM. simpl.
  do 3 (split; [reflexivity|]). apply round2_mono.
  eapply Qle_trans; eassumption.
Qed.

Lemma statistics_min_avg_max_witness :
  ∃ row, row ∈ statistics Examples.logs 200 None
         ∧ min_response_time row = Some (Py.round2 (12 # 10))
         ∧ max_response_time row = Some (Py.round2 (12 # 10)).
Proof.
  set (row := Build_StatRow "/x" 10 (Some (Py.round2 (12 # 10)))
                (Some (Py.round2 (12 # 10))) (Some (Py.round2 (12 # 10)))
                (Py.round2 40) (Py.round2 10)).
  assert (Hin : row ∈ statistics Examples.logs 200 None).
  { vm_compute. constructor. }
  exists row. split; [exact Hin|].
  destruct (statistics_min_avg_max Examples.logs 200 None row Hin)
    as (m & a & M & Hm & _ & HM & _).
  split; reflexivity.
Defined.

End StatisticsRows.


(** * Bounds of the metric comparison *)

Section ComparisonBounds.

Import Views.
Local Open Scope Q_scope.

Implicit Types (objects : list UserPerformanceMetric.t).

Lemma Avg_nonneg (vs : list Q) (a : Q) :
  ORM.Avg vs = Some a → Forall (λ v, 0 <= v) vs → 0 <= a.
Proof.
  intros Ha Hvs.
  assert (Hsum : 0 <= ORM.Sum vs).
  { clear Ha. induction Hvs as [|v vs Hv _ IH]; [apply Qle_refl|].
    change (ORM.Sum (v :: vs)) with (v + ORM.Sum vs).
    apply (Qle_trans _ (0 + 0)); [apply Qle_refl|].
    apply Qplus_le_compat; [exact Hv|exact IH]. }
  destruct vs as [|v vs]; [discriminate|]. injection Ha as <-.
  apply Qle_shift_div_l; [unfold ORM.Count, Qlt; simpl; lia|].
  rewrite Qmult_0_l. exact Hsum.
Qed.




End ComparisonBounds.

(** * The improvement of one sample and the newest samples of a user *)

Section Samples.

Import UserPerformanceMetric.
Local Open Scope Q_scope.

Implicit Types (objects : list UserPerformanceMetric.t) (self : UserPerformanceMetric.t).

Lemma newer_sorted (l : list UserPerformanceMetric.t) :
  StronglySorted newer (merge_sort newer l).
Proof.
  apply StronglySorted_merge_sort.
  - intros m1 m2 m3. unfold newer. lia.
  - intros m1 m2. unfold newer. lia.
Qed.

(** The head of the sorted samples is one of the samples and no sample
    is newer. *)
Lemma newest_head (l : list UserPerformanceMetric.t) (m : UserPerformanceMetric.t) :
  head (merge_sort newer l) = Some m →
  m ∈ l ∧ ∀ m', m' ∈ l → (timestamp m' ≤ timestamp m)%Z.
Proof.
  intros Hhead. pose proof (newer_sorted l) as Hsorted.
  pose proof (merge_sort_Permutation newer l) as Hperm.
  destruct (merge_sort newer l) as [|m0 rest]; [discriminate|].
  injection Hhead as ->. split.
  - rewrite <- Hperm. left.
  - intros m' Hm'. rewrite <- Hperm in Hm'.
    apply elem_of_cons in Hm' as [->|Hm']; [lia|].
    apply StronglySorted_inv in Hsorted as [_ Hall].
    rewrite Forall_forall in Hall. exact (Hall m' Hm').
Qed.

(** X6: the improvement of a sample is [None] exactly when the sample is
    a baseline itself or has no earlier baseline of its user and metric
    type. Otherwise, with [v] the value of the latest earlier baseline,
    the property raises [ZeroDivisionError] when [v] is 0 and gives a
    value when it is not: [(v - value) / v * 100] rounded to two
    decimals, which is stated up to the error of the binary floats, in
    the range where they compute the improvement. *)
Theorem improvement_percentage_outcome objects self :
  (improvement_percentage objects self = inr None ↔
   is_optimized self = false ∨ baselines objects self = [])
  ∧ (is_optimized self = true → baselines objects self ≠ [] →
     ∀ v, (∀ m, m ∈ baselines objects self →
                (∀ m', m' ∈ baselines objects self → (timestamp m' ≤ timestamp m)%Z) →
                value m == v) →
          (v == 0 → improvement_percentage objects self = inl ZeroDivisionError)
          ∧ (¬ v == 0 →
             ∃ r, improvement_percentage objects self = inr (Some r)
                  ∧ (Py.float_range v ((v - value self) / v * 100) →
                     Py.rounded2 ((v - value self) / v * 100) r))).
Proof.
  unfold improvement_percentage. split.
  - destruct (is_optimized self); simpl; [|tauto].
    destruct (head (merge_sort newer (baselines objects self))) as [m|] eqn:Hhead.
    + apply newest_head in Hhead as [Hm _]. split.
      * destruct (Qeq_bool (value m) 0); discriminate.
      * intros [?|Hnil]; [discriminate|]. rewrite Hnil in Hm. inversion Hm.
    + split; [|reflexivity]. intros _. right.
      pose proof (merge_sort_Permutation newer (baselines objects self)) as Hperm.
      destruct (merge_sort newer (baselines objects self)); [|discriminate].
      apply Permutation_nil. exact Hperm.
  - intros Hopt Hne v Hv. rewrite Hopt. simpl.
    destruct (head (merge_sort newer (baselines objects self))) as [m|] eqn:Hhead.
    + apply newest_head in Hhead as [Hm Hnewest].
      specialize (Hv m Hm Hnewest). split.
      * intros Hv0. rewrite <- Hv in Hv0. apply Qeq_bool_iff in Hv0.
        rewrite Hv0. reflexivity.
      * intros Hv0. destruct (Qeq_bool (value m) 0) eqn:Hm0.
        { apply Qeq_bool_iff in Hm0. rewrite Hv in Hm0. contradiction. }
        eexists. split; [reflexivity|]. intros _.
        rewrite (round2_comp _ ((v - value self) / v * 100))
          by (rewrite Hv; reflexivity).
        apply round2_rounded2.
    + exfalso. apply Hne.
      pose proof (merge_sort_Permutation newer (baselines objects self)) as Hperm.
      destruct (merge_sort newer (baselines objects self)); [|discriminate].
      apply Permutation_nil. exact Hperm.
Qed.

Lemma improvement_percentage_outcome_witness :
  (∃ r, improvement_percentage Examples.baseline_250 Examples.optimized_sample
        = inr (Some r)
        ∧ r == 30
        ∧ Py.rounded2 ((250 - 175) / 250 * 100) r)
  ∧ improvement_percentage Examples.baseline_0 Examples.optimized_sample
    = inl ZeroDivisionError.
Proof.
  split.
  - destruct (improvement_percentage_outcome Examples.baseline_250
                Examples.optimized_sample) as [_ H].
    destruct (H eq_refl) with (v := 250) as [_ Hr].
    + vm_compute. discriminate.
    + intros m Hm Hnewest.
      apply elem_of_cons in Hm as [->|Hm].
      * specialize (Hnewest (Build 1 "api_response" 250 20 false)).
        exfalso. assert (Hlt : (20 ≤ 10)%Z); [|lia].
        apply Hnewest. vm_compute. right. left.
      * apply list_elem_of_singleton in Hm. subst m. reflexivity.
    + destruct Hr as (r & Hr & Hround); [discriminate|].
      exists r. split; [exact Hr|].
      split; [vm_compute in Hr; injection Hr as <-; reflexivity|].
      apply Hround. split; vm_compute; discriminate.
  - destruct (improvement_percentage_outcome Examples.baseline_0
                Examples.optimized_sample) as [_ H].
    destruct (H eq_refl) with (v := 0) as [Hz _].
    + vm_compute. discriminate.
    + intros m Hm Hnewest.
      apply elem_of_cons in Hm as [->|Hm].
      * specialize (Hnewest (Build 1 "api_response" 0 20 false)).
        exfalso. assert (Hlt : (20 ≤ 10)%Z); [|lia].
        apply Hnewest. vm_compute. right. left.
      * apply list_elem_of_singleton in Hm. subst m. reflexivity.
    + apply Hz. reflexivity.
Defined.

Lemma get_missing {A : Type} (P : A → Prop) `{!∀ x, Decision (P x)} (l : list A) :
  ¬ Exists P l → ORM.get P l = inl DoesNotExist.
Proof.
  intros Hno. unfold ORM.get.
  destruct (filter P l) as [|x rest] eqn:Hf; [reflexivity|].
  exfalso. apply Hno, Exists_exists. exists x.
  assert (Hin : x ∈ filter P l) by (rewrite Hf; constructor).
  apply list_elem_of_filter in Hin as [HP Hin]. auto.
Qed.

(** The two ways in which a [mapM] ends. *)
Lemma mapM_inr_inv {A B : Type} (f : A → Result B) (l : list A) (ys : list B) :
  mapM f l = inr ys → Forall2 (λ x y, f x = inr y) l ys.
Proof.
  revert ys. induction l as [|x l IH]; intros ys.
  - intros [= <-]. constructor.
  - change (mapM f (x :: l)) with (y ← f x; k ← mapM f l; mret (y :: k)).
    destruct (f x) as [e|y] eqn:Hx; simpl; [discriminate|].
    destruct (mapM f l) as [e|k]; simpl; [discriminate|].
    intros [= <-]. constructor; [exact Hx|]. apply IH. reflexivity.
Qed.

Lemma mapM_inl_inv {A B : Type} (f : A → Result B) (l : list A) (e : Error) :
  mapM f l = inl e → ∃ x, x ∈ l ∧ f x = inl e.
Proof.
  induction l as [|x l IH]; [discriminate|].
  change (mapM f (x :: l)) with (y ← f x; k ← mapM f l; mret (y :: k)).
  destruct (f x) as [e'|y] eqn:Hx; simpl.
  - intros [= ->]. exists x. split; [left|exact Hx].
  - destruct (mapM f l) as [e'|k]; simpl; [|discriminate].
    intros [= ->]. destruct IH as (x' & Hx' & Hf); [reflexivity|].
    exists x'. split; [right; exact Hx'|exact Hf].
Qed.

(** The metrics that [performance] serializes. *)
Lemma performance_listed (db : DB.t) (pk : Z) (u : User.t) :
  ORM.get (λ u, User.id u = pk) (DB.users db) = inr u →
  ∃ ms, Views.performance db pk
        = mapM (λ m, v ← improvement_percentage (DB.metrics db) m; mret (m, v)) ms
    ∧ (length ms ≤ 100)%nat
    ∧ StronglySorted newer ms
    ∧ (∀ m, m ∈ ms → m ∈ DB.metrics db ∧ user m = pk)
    ∧ (∀ m m', m ∈ ms → m' ∈ DB.metrics db → user m' = pk → m' ∉ ms →
               (timestamp m' ≤ timestamp m)%Z)
    ∧ ((length (filter (λ m, user m = pk) (DB.metrics db)) ≤ 100)%nat →
       ms ≡ₚ filter (λ m, user m = pk) (DB.metrics db)).
Proof.
  intros Hget. unfold Views.performance. rewrite Hget. simpl.
  apply get_inr in Hget as (_ & Hid & _). rewrite Hid.
  set (sorted := merge_sort newer (filter (λ m, user m = pk) (DB.metrics db))).
  exists (take 100 sorted). split; [reflexivity|].
  pose proof (newer_sorted (filter (λ m, user m = pk) (DB.metrics db))) as Hsorted.
  pose proof (merge_sort_Permutation newer (filter (λ m, user m = pk) (DB.metrics db)))
    as Hperm.
  fold sorted in Hsorted, Hperm.
  rewrite <- (take_drop 100 sorted) in Hsorted.
  assert (Htake : ∀ m, m ∈ take 100 sorted → m ∈ sorted).
  { intros m Hm. rewrite <- (take_drop 100 sorted). apply elem_of_app. auto. }
  split; [apply firstn_le_length|]. split; [|split; [|split]].
  - eapply StronglySorted_app_1_l. exact Hsorted.
  - intros m Hm. apply Htake in Hm. rewrite Hperm in Hm.
    apply list_elem_of_filter in Hm as [Hu Hm]. auto.
  - intros m m' Hm Hm' Hu Hout.
    assert (Hin : m' ∈ sorted).
    { rewrite Hperm. apply list_elem_of_filter. auto. }
    rewrite <- (take_drop 100 sorted) in Hin.
    apply elem_of_app in Hin as [Hin|Hin]; [contradiction|].
    exact (StronglySorted_app_1_elem_of _ _ _ _ _ Hsorted Hm Hin).
  - intros Hlen. rewrite take_ge; [exact Hperm|].
    rewrite (Permutation_length Hperm). exact Hlen.
Qed.

Lemma serialized_metric (objects : list UserPerformanceMetric.t)
    (m : UserPerformanceMetric.t) (d : UserPerformanceMetric.t * option Q) :
  (v ← improvement_percentage objects m; mret (m, v)) = inr d →
  d.1 = m ∧ improvement_percentage objects m = inr d.2.
Proof.
  destruct (improvement_percentage objects m) as [e|v]; simpl; [discriminate|].
  intros [= <-]. auto.
Qed.

(** X7: for a user that does not exist, [performance] fails with
    [DoesNotExist]. When it answers, it answers with at most 100 metrics,
    all of that user, newest first, each with its improvement, and no
    metric of the user that is left out is newer than one that is
    returned; 100 metrics or fewer are all returned. For a user that
    exists, it answers unless the improvement of one of the metrics of
    the user raises, and then the request ends in that
    [ZeroDivisionError]. *)
Theorem performance_newest (db : DB.t) (pk : Z) :
  (¬ Exists (λ u, User.id u = pk) (DB.users db) →
   Views.performance db pk = inl DoesNotExist)
  ∧ (∀ data, Views.performance db pk = inr data →
      (length data ≤ 100)%nat
      ∧ StronglySorted newer data.*1
      ∧ Forall (λ d, improvement_percentage (DB.metrics db) d.1 = inr d.2) data
      ∧ (∀ m, m ∈ data.*1 → m ∈ DB.metrics db ∧ user m = pk)
      ∧ (∀ m m', m ∈ data.*1 → m' ∈ DB.metrics db → user m' = pk → m' ∉ data.*1 →
                 (timestamp m' ≤ timestamp m)%Z)
      ∧ ((length (filter (λ m, user m = pk) (DB.metrics db)) ≤ 100)%nat →
         data.*1 ≡ₚ filter (λ m, user m = pk) (DB.metrics db)))
  ∧ (∀ u, ORM.get (λ u, User.id u = pk) (DB.users db) = inr u →
      (∃ data, Views.performance db pk = inr data)
      ∨ (Views.performance db pk = inl ZeroDivisionError
         ∧ ∃ m, m ∈ DB.metrics db ∧ user m = pk
                ∧ improvement_percentage (DB.metrics db) m = inl ZeroDivisionError)).
Proof.
  split; [|split].
  - intros Hno. unfold Views.performance. rewrite (get_missing _ _ Hno). reflexivity.
  - intros data Hp.
    destruct (ORM.get (λ u, User.id u = pk) (DB.users db)) as [e|u] eqn:Hget;
      [unfold Views.performance in Hp; rewrite Hget in Hp; discriminate|].
    destruct (performance_listed db pk u Hget)
      as (ms & Heq & Hlen & Hsorted & Hown & Hnewest & Hall).
    rewrite Heq in Hp. apply mapM_inr_inv in Hp.
    assert (Hfst : data.*1 = ms).
    { clear -Hp. induction Hp as [|m d ms data Hd _ IH]; [reflexivity|].
      apply serialized_metric in Hd as [Hd _]. rewrite fmap_cons, IH, Hd. reflexivity. }
    rewrite Hfst. split; [rewrite <- Hfst, length_fmap in Hlen; exact Hlen|].
    split; [exact Hsorted|]. split; [|auto].
    clear -Hp. induction Hp as [|m d ms data Hd _ IH]; constructor; [|exact IH].
    apply serialized_metric in Hd as [Hd Hv]. rewrite Hd. exact Hv.
  - intros u Hget.
    destruct (performance_listed db pk u Hget) as (ms & Heq & _ & _ & Hown & _).
    destruct (Views.performance db pk) as [e|data] eqn:Hp; [right|left; eauto].
    symmetry in Heq. apply mapM_inl_inv in Heq as (m & Hm & Hf).
    destruct (improvement_percentage (DB.metrics db) m) as [e'|v] eqn:Himp;
      simpl in Hf; [|discriminate].
    injection Hf as ->.
    assert (He : e = ZeroDivisionError).
    { unfold improvement_percentage in Himp.
      destruct (negb (is_optimized m)); [discriminate|].
      destruct (head _) as [baseline|]; [|discriminate].
      destruct (Qeq_bool (value baseline) 0); [|discriminate].
      injection Himp as <-. reflexivity. }
    subst e. split; [reflexivity|]. exists m.
    destruct (Hown m Hm) as [Hin Hu]. auto.
Qed.

Lemma performance_newest_witness :
  (∃ data, Views.performance (Examples.perf_db Examples.baseline_250) 1 = inr data
           ∧ (length data ≤ 100)%nat ∧ length data = 3%nat)
  ∧ Views.performance (Examples.perf_db Examples.baseline_250) 7 = inl DoesNotExist
  ∧ Views.performance (Examples.perf_db Examples.baseline_0) 1 = inl ZeroDivisionError.
Proof.
  destruct (performance_newest (Examples.perf_db Examples.baseline_250) 1)
    as (_ & Hok & _).
  destruct (performance_newest (Examples.perf_db Examples.baseline_250) 7)
    as (Hmissing & _).
  destruct (performance_newest (Examples.perf_db Examples.baseline_0) 1)
    as (_ & _ & Hraise).
  split; [|split].
  - eexists. split; [vm_compute; reflexivity|].
    destruct (Hok _ eq_refl) as (Hlen & _). split; [exact Hlen|reflexivity].
  - apply Hmissing. intros Hex. apply Exists_exists in Hex as (u & Hu & Hid).
    apply list_elem_of_singleton in Hu. subst u. discriminate Hid.
  - destruct (Hraise (User.Build 1 None) eq_refl) as [[data Hdata]|[Hp _]];
      [vm_compute in Hdata; discriminate|exact Hp].
Defined.

End Samples.

(** * The computed fields of the serializers and the dashboard *)

Section ComputedFields.

Import Serializers.
Local Open Scope Q_scope.

Lemma or_zero_eq (x : option Q) (a : Q) : x = Some a → Py.or_zero x == a.
Proof.
  intros ->. simpl. destruct (Qeq_bool a 0) eqn:Ha; [|reflexivity].
  apply Qeq_bool_iff in Ha. symmetry. exact Ha.
Qed.

(** [Avg(...) or 0] of a column between two bounds that include 0 is
    between the bounds. *)
Lemma or_zero_Avg_bounds (lo hi : Q) (vs : list Q) :
  lo <= 0 → 0 <= hi → Forall (λ v, lo <= v ∧ v <= hi) vs →
  lo <= Py.or_zero (ORM.Avg vs) ∧ Py.or_zero (ORM.Avg vs) <= hi.
Proof.
  intros Hlo Hhi Hvs. destruct (ORM.Avg vs) as [a|] eqn:Ha; [|split; assumption].
  destruct (Avg_bounds lo hi vs a Ha Hvs). rewrite (or_zero_eq _ a eq_refl). auto.
Qed.

Lemma round2_or_zero_Avg_range (vs : list Q) :
  Forall (λ v, 0 <= v ∧ v <= 100) vs →
  0 <= Py.round2 (Py.or_zero (ORM.Avg vs)) ∧ Py.round2 (Py.or_zero (ORM.Avg vs)) <= 100.
Proof.
  intros Hvs. destruct (or_zero_Avg_bounds 0 100 vs) as [H0 H100];
    [apply Qle_refl|discriminate|exact Hvs|].
  apply round2_range; assumption.
Qed.

Lemma percentages_of (rows : list LearningProgress.t) (P : LearningProgress.t → Prop)
    `{!∀ r, Decision (P r)} :
  Forall (λ r, 0 <= LearningProgress.completion_percentage r
               ∧ LearningProgress.completion_percentage r <= 100) rows →
  Forall (λ v, 0 <= v ∧ v <= 100) (LearningProgress.completion_percentage <$> filter P rows).
Proof.
  intros Hrows. apply Forall_fmap, Forall_forall. intros r Hr.
  apply list_elem_of_filter in Hr as [_ Hr].
  rewrite Forall_forall in Hrows. exact (Hrows r Hr).
Qed.

Lemma filter_all {A : Type} (P : A → Prop) `{!∀ x, Decision (P x)} (l : list A) :
  Forall P l → filter P l = l.
Proof.
  induction 1 as [|x l Hx _ IH]; [reflexivity|].
  rewrite filter_cons_True by exact Hx. f_equal. exact IH.
Qed.

Lemma sum_nonneg (vs : list Z) : Forall (λ v, (0 ≤ v)%Z) vs → (0 ≤ foldr Z.add 0 vs)%Z.
Proof. induction 1; simpl; lia. Qed.

(** X8: the completion rate of a course is within [0, 100]; it is 0 for a
    course without progress rows and 100 when every row of the course is
    at 100 percent. The average progress of a course is within [0, 100]
    when every progress row is. *)
Theorem completion_rate_range (db : DB.t) (obj : Course.t) :
  (0 <= get_completion_rate db obj ∧ get_completion_rate db obj <= 100)
  ∧ (course_learning_progress db obj = [] → get_completion_rate db obj = 0)
  ∧ (course_learning_progress db obj ≠ [] →
     Forall (λ r, LearningProgress.completion_percentage r == 100)
       (course_learning_progress db obj) →
     get_completion_rate db obj == 100)
  ∧ (Forall (λ r, 0 <= LearningProgress.completion_percentage r
                  ∧ LearningProgress.completion_percentage r <= 100) (DB.progress db) →
     0 <= get_average_progress db obj ∧ get_average_progress db obj <= 100).
Proof.
  unfold get_completion_rate. split; [|split; [|split]];
    [| | |intros Hpct; apply round2_or_zero_Avg_range, percentages_of, Hpct].
  - case_decide as Hn; [split; discriminate|].
    pose proof (Count_nonneg (course_learning_progress db obj)).
    apply round2_percentage_range; [|lia].
    split; [apply Count_nonneg|apply Count_filter_le].
  - intros ->. reflexivity.
  - intros Hne Hall.
    assert (Hpos : (0 < ORM.Count (course_learning_progress db obj))%Z).
    { destruct (course_learning_progress db obj) as [|r rows]; [contradiction|].
      unfold ORM.Count. simpl. lia. }
    rewrite decide_False by lia.
    assert (Hsame : completed (course_learning_progress db obj)
                    = course_learning_progress db obj).
    { unfold completed. apply filter_all.
      eapply Forall_impl; [exact Hall|]. intros r Hr. apply Qeq_bool_iff. exact Hr. }
    rewrite Hsame.
    assert (Hone : Py.truediv (ORM.Count (course_learning_progress db obj))
                     (ORM.Count (course_learning_progress db obj)) * 100 == 100).
    { unfold Py.truediv. field.
      intros Hz. unfold Qeq in Hz. simpl in Hz. lia. }
    rewrite (round2_comp _ _ Hone). reflexivity.
Qed.

Lemma completion_rate_range_witness :
  get_completion_rate Examples.db2 Examples.course10 == 100
  ∧ get_completion_rate Examples.db1 Examples.course10 = 0.
Proof.
  destruct (completion_rate_range Examples.db2 Examples.course10) as (_ & _ & Hall & _).
  destruct (completion_rate_range Examples.db1 Examples.course10) as (_ & Hnone & _).
  split.
  - apply Hall; [vm_compute; discriminate|].
    vm_compute. repeat constructor.
  - apply Hnone. reflexivity.
Defined.

(** X9: in a consistent database, the enrollment count of a course (the
    distinct users of its progress rows) is the number of its progress
    rows. *)
Theorem enrollment_count_rows (db : DB.t) (obj : Course.t) :
  System.consistent db →
  enrollment_count db obj = ORM.Count (course_learning_progress db obj).
Proof.
  intros [Hkeys _ _]. unfold enrollment_count, ORM.Count. f_equal.
  rewrite <- (length_fmap LearningProgress.user_id (course_learning_progress db obj)).
  apply Permutation_length, NoDup_Permutation.
  - apply NoDup_remove_dups.
  - unfold course_learning_progress.
    induction (DB.progress db) as [|r rows IH]; [constructor|].
    rewrite fmap_cons in Hkeys. apply NoDup_cons in Hkeys as [Hr Hkeys].
    rewrite filter_cons. case_decide as Hc; [|exact (IH Hkeys)].
    rewrite fmap_cons. apply NoDup_cons. split; [|exact (IH Hkeys)].
    intros Hin. apply list_elem_of_fmap in Hin as (r' & Hu & Hr').
    apply list_elem_of_filter in Hr' as [Hc' Hr'].
    apply Hr. apply list_elem_of_fmap. exists r'. split; [|exact Hr'].
    unfold LearningProgress.key. congruence.
  - intros u. apply elem_of_remove_dups.
Qed.

Lemma enrollment_count_rows_witness :
  enrollment_count Examples.db2 Examples.course10 = 1%Z.
Proof.
  rewrite (enrollment_count_rows Examples.db2 Examples.course10); [reflexivity|].
  constructor; vm_compute; repeat constructor; try (inversion 1).
  eexists. split; [reflexivity|reflexivity].
Defined.

(** X10: of the computed fields of a user, the completed courses are at
    most the total courses, the time spent is the plain sum of the minutes
    (zero or not) and is not negative when no row has negative minutes,
    and the average completion is within [0, 100] when every row is. *)
Theorem user_computed_fields (db : DB.t) (obj : User.t) :
  (0 ≤ get_completed_courses db obj ≤ get_total_courses db obj)%Z
  ∧ get_total_time_spent db obj
    = foldr Z.add 0%Z (LearningProgress.time_spent_minutes <$> user_learning_progress db obj)
  ∧ (Forall (λ r, (0 ≤ LearningProgress.time_spent_minutes r)%Z) (DB.progress db) →
     (0 ≤ get_total_time_spent db obj)%Z)
  ∧ (Forall (λ r, 0 <= LearningProgress.completion_percentage r
                  ∧ LearningProgress.completion_percentage r <= 100) (DB.progress db) →
     0 <= get_average_completion db obj ∧ get_average_completion db obj <= 100).
Proof.
  assert (Hsum : get_total_time_spent db obj
                 = foldr Z.add 0%Z (LearningProgress.time_spent_minutes
                                      <$> user_learning_progress db obj)).
  { unfold get_total_time_spent, ORM.SumZ.
    destruct (LearningProgress.time_spent_minutes <$> user_learning_progress db obj)
      as [|v vs]; [reflexivity|].
    case_decide as Hz; [symmetry; exact Hz|reflexivity]. }
  split; [|split; [exact Hsum|split]].
  - unfold get_completed_courses, get_total_courses, completed.
    split; [apply Count_nonneg|apply Count_filter_le].
  - intros Hmin. rewrite Hsum. apply sum_nonneg, Forall_fmap, Forall_forall.
    intros r Hr. apply list_elem_of_filter in Hr as [_ Hr].
    rewrite Forall_forall in Hmin. exact (Hmin r Hr).
  - intros Hpct. apply round2_or_zero_Avg_range, percentages_of, Hpct.
Qed.

Lemma user_computed_fields_witness :
  (0 ≤ get_total_time_spent Examples.db2 (User.Build 1 None))%Z
  ∧ get_average_completion Examples.db2 (User.Build 1 None) <= 100.
Proof.
  destruct (user_computed_fields Examples.db2 (User.Build 1 None))
    as (_ & _ & Htime & Havg).
  split.
  - apply Htime. vm_compute. repeat constructor. discriminate.
  - apply Havg. vm_compute. repeat constructor; discriminate.
Defined.

End ComputedFields.

(** * The averages of the API log and the dashboard *)

Section Reporting.

Import Views.
Local Open Scope Q_scope.

Implicit Types (objects : list APIResponseLog.t).

(** X11: the average response time is 0 when no call is selected, and it
    is not negative when no response time of the selected calls is; an
    empty endpoint selects every endpoint. *)
Theorem average_response_time_bounds objects (now : Z) (e : string) (hours : Z) :
  let window :=
    filter (λ l, (now - APIResponseLog.timedelta_hours hours
                  ≤ APIResponseLog.timestamp l)%Z) objects in
  APIResponseLog.get_average_response_time objects now (Some "") hours
  = APIResponseLog.get_average_response_time objects now None hours
  ∧ (e ≠ "" →
     let calls := filter (λ l, APIResponseLog.endpoint l = e) window in
     (calls = [] →
      APIResponseLog.get_average_response_time objects now (Some e) hours = 0)
     ∧ (Forall (λ l, 0 <= APIResponseLog.response_time_ms l) calls →
        0 <= APIResponseLog.get_average_response_time objects now (Some e) hours)).
Proof.
  intros window. split; [reflexivity|]. intros He calls.
  unfold APIResponseLog.get_average_response_time. fold window.
  rewrite decide_False by exact He. fold calls. split.
  - intros ->. reflexivity.
  - intros Htimes.
    destruct (ORM.Avg (APIResponseLog.response_time_ms <$> calls)) as [a|] eqn:Ha;
      [|apply Qle_refl].
    rewrite (or_zero_eq _ a eq_refl). apply (Avg_nonneg _ a Ha).
    apply Forall_fmap. exact Htimes.
Qed.

Lemma average_response_time_bounds_witness :
  0 <= APIResponseLog.get_average_response_time Examples.logs 200 (Some "/x") 24
  ∧ APIResponseLog.get_average_response_time Examples.logs 200 (Some "/y") 24 = 0.
Proof.
  assert (Hx : "/x" ≠ "") by discriminate.
  assert (Hy : "/y" ≠ "") by discriminate.
  destruct (average_response_time_bounds Examples.logs 200 "/x" 24) as [_ Hsome].
  destruct (average_response_time_bounds Examples.logs 200 "/y" 24) as [_ Hnone].
  split.
  - destruct (Hsome Hx) as [_ H]. apply H.
    vm_compute. repeat constructor; discriminate.
  - destruct (Hnone Hy) as [H _]. apply H. reflexivity.
Defined.

Lemma get_cache_hit_rate_range objects (now hours : Z) :
  0 <= APIResponseLog.get_cache_hit_rate objects now hours
  ∧ APIResponseLog.get_cache_hit_rate objects now hours <= 100.
Proof.
  unfold APIResponseLog.get_cache_hit_rate.
  case_decide as Htotal; [split; discriminate|].
  pose proof (Count_nonneg
                (filter (λ l, (now - APIResponseLog.timedelta_hours hours
                               ≤ APIResponseLog.timestamp l)%Z) objects)) as Hnn.
  apply percentage_range; [|lia].
  split; [apply Count_nonneg|].
  rewrite <- (list_filter_filter_l
                (λ l, (now - APIResponseLog.timedelta_hours hours
                       ≤ APIResponseLog.timestamp l)%Z ∧ APIResponseLog.cache_hit l = true)
                (λ l, (now - APIResponseLog.timedelta_hours hours
                       ≤ APIResponseLog.timestamp l)%Z)) by tauto.
  apply Count_filter_le.
Qed.

(** X12: on the dashboard the active users are at most the users, the
    active courses at most the courses, and the cache hit rate is within
    [0, 100]; the average completion is within [0, 100] when every
    progress row is, and no average is negative when no logged response
    time and no metric value is. *)
Theorem dashboard_ranges (now : Z) (db : DB.t) :
  (0 ≤ active_users_24h (dashboard_view now db) ≤ total_users (dashboard_view now db))%Z
  ∧ (0 ≤ total_courses (dashboard_view now db) ≤ ORM.Count (DB.courses db))%Z
  ∧ total_enrollments (dashboard_view now db) = ORM.Count (DB.progress db)
  ∧ (0 <= dashboard_cache_hit_rate (dashboard_view now db)
     ∧ dashboard_cache_hit_rate (dashboard_view now db) <= 100)
  ∧ (Forall (λ r, 0 <= LearningProgress.completion_percentage r
                  ∧ LearningProgress.completion_percentage r <= 100) (DB.progress db) →
     0 <= average_completion_rate (dashboard_view now db)
     ∧ average_completion_rate (dashboard_view now db) <= 100)
  ∧ (Forall (λ l, 0 <= APIResponseLog.response_time_ms l) (DB.api_logs db) →
     0 <= avg_api_response_time (dashboard_view now db))
  ∧ (Forall (λ m, 0 <= UserPerformanceMetric.value m) (DB.metrics db) →
     0 <= avg_page_load_time (dashboard_view now db)).
Proof.
  unfold dashboard_view; simpl.
  split; [split; [apply Count_nonneg|apply Count_filter_le]|].
  split; [split; [apply Count_nonneg|apply Count_filter_le]|].
  split; [reflexivity|].
  split; [destruct (get_cache_hit_rate_range (DB.api_logs db) now 24);
          apply round2_range; assumption|].
  split; [|split].
  - intros Hpct. apply round2_or_zero_Avg_range.
    apply Forall_fmap. eapply Forall_impl; [exact Hpct|]. intros r Hr. exact Hr.
  - intros Htimes. apply (Qle_trans _ (Py.round2 0)); [discriminate|].
    apply round2_mono.
    destruct (ORM.Avg _) as [a|] eqn:Ha; [|apply Qle_refl].
    rewrite (or_zero_eq _ a eq_refl). apply (Avg_nonneg _ a Ha).
    apply Forall_fmap, Forall_forall. intros l Hl.
    apply list_elem_of_filter in Hl as [_ Hl].
    rewrite Forall_forall in Htimes. exact (Htimes l Hl).
  - intros Hvalues. apply (Qle_trans _ (Py.round2 0)); [discriminate|].
    apply round2_mono. unfold avg_value.
    destruct (ORM.Avg _) as [a|] eqn:Ha; [|apply Qle_refl].
    rewrite (or_zero_eq _ a eq_refl). apply (Avg_nonneg _ a Ha).
    apply Forall_fmap, Forall_forall. intros m Hm.
    apply list_elem_of_filter in Hm as [_ Hm].
    rewrite Forall_forall in Hvalues. exact (Hvalues m Hm).
Qed.

Lemma dashboard_ranges_witness :
  average_completion_rate (dashboard_view 100 Examples.db2) <= 100
  ∧ 0 <= avg_page_load_time (dashboard_view 100 (Examples.metrics_db Examples.api_samples)).
Proof.
  destruct (dashboard_ranges 100 Examples.db2) as (_ & _ & _ & _ & Hpct & _).
  destruct (dashboard_ranges 100 (Examples.metrics_db Examples.api_samples))
    as (_ & _ & _ & _ & _ & _ & Hload).
  split.
  - apply Hpct. vm_compute. repeat constructor; discriminate.
  - apply Hload. vm_compute. repeat constructor; discriminate.
Defined.

End Reporting.

(** * What a save and an upsert leave in the progress table *)

Section StoredRows.

Import LearningProgress System.
Local Open Scope Q_scope.

Implicit Types (db : DB.t) (self row obj : LearningProgress.t).

Lemma save_completed_at_is_Some (now : Z) (course : Course.t) self :
  Qle_bool 100 (completion_percentage (save now course self)) = true →
  ∃ t, completed_at (save now course self) = Some t.
Proof.
  intros Hdone. destruct (completed_at self) as [t|] eqn:Hc.
  - exists t. apply save_completed_at_Some. exact Hc.
  - exists now. rewrite save_completed_at_None by exact Hc. rewrite Hdone. reflexivity.
Qed.

(** X13: after a save, a record at 100 percent or more has a completion
    time; a save below 100 percent leaves an unset completion time
    unset, and a save at 100 percent or more sets an unset one to the
    time of the save. *)
Theorem save_completed_has_time (now : Z) (course : Course.t) self :
  (is_completed (save now course self) = true →
   ∃ t, completed_at (save now course self) = Some t)
  ∧ (completed_at self = None → is_completed (save now course self) = true →
     completed_at (save now course self) = Some now)
  ∧ (completed_at self = None → is_completed (save now course self) = false →
     completed_at (save now course self) = None).
Proof.
  unfold is_completed. split; [|split].
  - apply save_completed_at_is_Some.
  - intros Hc Hdone. rewrite save_completed_at_None by exact Hc. rewrite Hdone. reflexivity.
  - intros Hc Hdone. rewrite save_completed_at_None by exact Hc. rewrite Hdone. reflexivity.
Qed.

Lemma save_completed_has_time_witness :
  completed_at (save 200 Examples.course10 (new 1 1 10 0)) = Some 200%Z
  ∧ completed_at (save 200 Examples.course10 (new 1 1 9 0)) = None.
Proof.
  destruct (save_completed_has_time 200 Examples.course10 (new 1 1 10 0)) as (_ & Hset & _).
  destruct (save_completed_has_time 200 Examples.course10 (new 1 1 9 0)) as (_ & _ & Hunset).
  split; [apply Hset|apply Hunset]; reflexivity.
Defined.

(** The fields that the write itself sets. *)
Lemma write_row (now : Z) self db row db' :
  DB.write now self db = inr (row, db') →
  last_accessed row = now
  ∧ current_lesson row = current_lesson self
  ∧ (pk self = None → started_at row = now)
  ∧ (pk self ≠ None → started_at row = started_at self).
Proof.
  unfold DB.write. case_decide; [discriminate|]. case_decide; [discriminate|].
  case_decide; [discriminate|]. case_decide; [|discriminate].
  destruct (pk self) as [k|] eqn:Hpk.
  - case_decide; intros [= <- <-]; simpl; repeat split; congruence.
  - intros [= <- <-]; simpl. repeat split; congruence.
Qed.

(** X14: a successful [update_or_create] leaves a row of the pair in the
    table with the lessons and minutes given, accessed at the time of the
    call, and with the completion time of the saved instance, which is
    set when the instance is at 100 percent or more. A row that was
    created is the saved instance: it starts then, at lesson 1. A row
    that was found keeps its stored percentage, its start and its current
    lesson, whatever [LearningProgress.save] computed for the instance,
    and keeps its completion time when it has one. *)
Theorem update_or_create_stores (now user course lessons minutes : Z) db obj
    (created : bool) db' :
  DB.update_or_create now user course lessons minutes db = inr (obj, created, db') →
  ∃ c row, ORM.get (λ c, Course.id c = course) (DB.courses db) = inr c
    ∧ row ∈ DB.progress db'
    ∧ key row = (user, course)
    ∧ pk row = pk obj
    ∧ lessons_completed row = lessons
    ∧ time_spent_minutes row = minutes
    ∧ last_accessed row = now
    ∧ completed_at row = completed_at obj
    ∧ (is_completed obj = true → ∃ t, completed_at row = Some t)
    ∧ (created = true →
       records db user course = [] ∧ row = obj
       ∧ started_at row = now ∧ current_lesson row = 1%Z
       ∧ completion_percentage row
         = completion_percentage (save now c (new user course lessons minutes)))
    ∧ (created = false →
       ∃ o, records db user course = [o]
            ∧ completion_percentage row = completion_percentage o
            ∧ started_at row = started_at o
            ∧ current_lesson row = current_lesson o
            ∧ ∀ t, completed_at o = Some t → completed_at row = Some t).
Proof.
  unfold DB.update_or_create, records.
  destruct (filter (λ r, key r = (user, course)) (DB.progress db))
    as [|o [|o' rest]] eqn:Hf; [| |discriminate].
  - destruct (DB.save now (new user course lessons minutes) db) as [e|[row d]] eqn:Hs;
      simpl; [discriminate|].
    intros [= <- <- <-].
    destruct (save_stores _ _ _ _ _ Hs) as (c & Hc & Hpct & Hdone & Hin).
    apply save_inr in Hs as (c' & Hc' & Hw). simpl in Hc, Hc'.
    rewrite Hc in Hc'. injection Hc' as <-.
    pose proof (write_row _ _ _ _ _ Hw) as (Hacc & Hcur & Hstart & _).
    apply write_inr in Hw as (_ & _ & Hk & Hl & Hm & _).
    rewrite save_key in Hk. rewrite save_lessons_completed in Hl.
    rewrite save_time_spent_minutes in Hm. rewrite save_pk in Hstart.
    rewrite save_current_lesson in Hcur.
    exists c, row. split; [exact Hc|]. split; [exact Hin|]. split; [exact Hk|].
    split; [reflexivity|]. do 3 (split; [assumption|]). split; [reflexivity|].
    split; [|split; [|discriminate]].
    + unfold is_completed. rewrite Hpct, Hdone. apply save_completed_at_is_Some.
    + intros _. do 2 (split; [reflexivity|]).
      split; [apply Hstart; reflexivity|]. split; [exact Hcur|exact Hpct].
  - destruct (DB.save_update_fields now
                (set_time_spent_minutes minutes (set_lessons_completed lessons o)) db)
      as [e|[row d]] eqn:Hs; simpl; [discriminate|].
    intros [= <- <- <-].
    assert (Ho : o ∈ filter (λ r, key r = (user, course)) (DB.progress db))
      by (rewrite Hf; constructor).
    apply list_elem_of_filter in Ho as [Hokey Ho].
    apply save_update_fields_inr in Hs as (c & Hc & Hw). simpl in Hc.
    apply write_fields_inr in Hw as (k & Hk & _ & -> & _ & _ & _ & _ & Hrows & _).
    rewrite save_pk in Hk. simpl in Hk.
    set (self := save now c (set_time_spent_minutes minutes (set_lessons_completed lessons o)))
      in *.
    exists c, (DB.updated now self o).
    split; [unfold key in Hokey; injection Hokey as _ <-; exact Hc|]. split.
    { rewrite Hrows. apply list_elem_of_fmap. exists o. split; [|exact Ho].
      rewrite decide_True by exact Hk. reflexivity. }
    split; [exact Hokey|]. split; [simpl; unfold self; rewrite save_pk; reflexivity|].
    split; [simpl; unfold self; rewrite save_lessons_completed; reflexivity|].
    split; [simpl; unfold self; rewrite save_time_spent_minutes; reflexivity|].
    do 2 (split; [reflexivity|]). split; [|split; [discriminate|]].
    + unfold is_completed. simpl. apply save_completed_at_is_Some.
    + intros _. exists o. split; [reflexivity|]. split; [reflexivity|].
      split; [simpl; unfold self; rewrite save_started_at; reflexivity|].
      split; [reflexivity|].
      intros t Ht. simpl. unfold self. apply save_completed_at_Some. exact Ht.
Qed.

Lemma update_or_create_stores_witness :
  ∃ obj db' row,
    DB.update_or_create 200 1 1 10 45 Examples.db_halfway = inr (obj, false, db')
    ∧ row ∈ DB.progress db'
    ∧ lessons_completed row = 10%Z
    ∧ completion_percentage row == 50
    ∧ completed_at row = Some 200%Z.
Proof.
  destruct (DB.update_or_create 200 1 1 10 45 Examples.db_halfway)
    as [e|[[obj created] db']] eqn:Hu; [vm_compute in Hu; discriminate|].
  destruct (update_or_create_stores 200 1 1 10 45 Examples.db_halfway obj created db' Hu)
    as (c & row & _ & Hin & _ & _ & Hl & _ & _ & Hdone & _ & _ & Hfound).
  vm_compute in Hu. injection Hu as <- <- <-.
  destruct (Hfound eq_refl) as (o & Ho & Hpct & _).
  vm_compute in Ho. injection Ho as <-.
  eexists _, _, row. split; [reflexivity|]. split; [exact Hin|]. split; [exact Hl|].
  split; [rewrite Hpct; reflexivity|exact Hdone].
Defined.

End StoredRows.

(** * What a bulk update keeps *)

Section BulkKeeps.

Import System Views.

Implicit Types (db : DB.t) (self row obj : LearningProgress.t)
  (item : Serializers.BulkItem) (data : list Serializers.BulkItem).

Lemma continues_refl (r : LearningProgress.t) : continues r r.
Proof. unfold continues. auto. Qed.

Lemma continues_trans (r1 r2 r3 : LearningProgress.t) :
  continues r1 r2 → continues r2 r3 → continues r1 r3.
Proof.
  unfold continues. intros (Hp & Hk & Hs & Hc) (Hp' & Hk' & Hs' & Hc').
  repeat split; try congruence. intros t Ht. apply Hc', Hc, Ht.
Qed.

(** A write of an instance that agrees with the row it replaces keeps
    every row, as itself or as the row that continues it. *)
Lemma write_continues (now : Z) self db row db' :
  (∀ r, r ∈ DB.progress db → LearningProgress.pk r = LearningProgress.pk self →
        LearningProgress.key r = LearningProgress.key self
        ∧ LearningProgress.started_at r = LearningProgress.started_at self
        ∧ ∀ t, LearningProgress.completed_at r = Some t →
               LearningProgress.completed_at self = Some t) →
  DB.write now self db = inr (row, db') →
  ∀ r, r ∈ DB.progress db → ∃ r', r' ∈ DB.progress db' ∧ continues r r'.
Proof.
  intros Hagree Hw r Hr.
  pose proof (write_row _ _ _ _ _ Hw) as (_ & _ & _ & Hstart).
  apply write_inr in Hw as (_ & _ & Hk & _ & _ & _ & Hdone & _ & _ & Hcases).
  destruct Hcases as [(_ & _ & -> & _)
                     |[(k & Hsome & Hrow & _ & -> & _)|(k & _ & _ & _ & -> & _)]].
  - exists r. split; [apply elem_of_app; left; exact Hr|apply continues_refl].
  - destruct (decide (LearningProgress.pk r = Some k)) as [Hrk|Hrk].
    + exists row. split.
      * apply list_elem_of_fmap. exists r. split; [|exact Hr].
        rewrite decide_True by exact Hrk. reflexivity.
      * destruct (Hagree r Hr) as (Hkey & Hst & Hc); [congruence|].
        unfold continues. split; [congruence|]. split; [congruence|].
        split; [rewrite Hstart by congruence; congruence|].
        intros t Ht. rewrite Hdone. apply Hc, Ht.
    + exists r. split; [|apply continues_refl].
      apply list_elem_of_fmap. exists r. split; [|exact Hr].
      rewrite decide_False by exact Hrk. reflexivity.
  - exists r. split; [apply elem_of_app; left; exact Hr|apply continues_refl].
Qed.

(** The same for a write of the listed columns. *)
Lemma write_fields_continues (now : Z) self db obj db' :
  (∀ r, r ∈ DB.progress db → LearningProgress.pk r = LearningProgress.pk self →
        LearningProgress.started_at r = LearningProgress.started_at self
        ∧ ∀ t, LearningProgress.completed_at r = Some t →
               LearningProgress.completed_at self = Some t) →
  DB.write_fields now self db = inr (obj, db') →
  ∀ r, r ∈ DB.progress db → ∃ r', r' ∈ DB.progress db' ∧ continues r r'.
Proof.
  intros Hagree Hw r Hr.
  apply write_fields_inr in Hw as (k & Hk & _ & _ & _ & _ & _ & _ & -> & _).
  destruct (decide (LearningProgress.pk r = Some k)) as [Hrk|Hrk].
  - exists (DB.updated now self r). split.
    + apply list_elem_of_fmap. exists r. split; [|exact Hr].
      rewrite decide_True by exact Hrk. reflexivity.
    + destruct (Hagree r Hr) as (Hst & Hc); [congruence|].
      unfold continues. simpl. auto.
  - exists r. split; [|apply continues_refl].
    apply list_elem_of_fmap. exists r. split; [|exact Hr].
    rewrite decide_False by exact Hrk. reflexivity.
Qed.

Lemma update_or_create_continues (now user course lessons minutes : Z) db obj
    (created : bool) db' :
  consistent db →
  DB.update_or_create now user course lessons minutes db = inr (obj, created, db') →
  ∀ r, r ∈ DB.progress db → ∃ r', r' ∈ DB.progress db' ∧ continues r r'.
Proof.
  intros Hdb. pose proof Hdb as [_ Hpks _]. unfold DB.update_or_create.
  destruct (filter (λ r, LearningProgress.key r = (user, course)) (DB.progress db))
    as [|o [|o' rest]] eqn:Hf; [| |discriminate].
  - destruct (DB.save now (LearningProgress.new user course lessons minutes) db)
      as [e|[row d]] eqn:Hs; simpl; [discriminate|].
    intros [= _ _ <-]. apply save_inr in Hs as (c & _ & Hw).
    eapply write_continues; [|exact Hw].
    intros r Hr Hpk. rewrite save_pk in Hpk. simpl in Hpk.
    destruct (consistent_pk db r Hdb Hr) as (k & Hk & _). congruence.
  - destruct (DB.save_update_fields now
                (LearningProgress.set_time_spent_minutes minutes
                   (LearningProgress.set_lessons_completed lessons o)) db)
      as [e|[row d]] eqn:Hs; simpl; [discriminate|].
    intros [= _ _ <-]. apply save_update_fields_inr in Hs as (c & _ & Hw).
    assert (Ho : o ∈ DB.progress db).
    { assert (Hin : o ∈ filter (λ r, LearningProgress.key r = (user, course))
                          (DB.progress db)) by (rewrite Hf; constructor).
      apply list_elem_of_filter in Hin as [_ Hin]. exact Hin. }
    eapply write_fields_continues; [|exact Hw].
    intros r Hr Hpk. rewrite save_pk in Hpk. simpl in Hpk.
    assert (Hro : r = o) by (eapply NoDup_fmap_eq; eauto). subst r.
    rewrite save_started_at. split; [reflexivity|].
    intros t Ht. apply save_completed_at_Some. exact Ht.
Qed.

Lemma bulk_update_loop_continues (now : Z) data :
  ∀ (count : Z) db, consistent db →
    ∀ r, r ∈ DB.progress db →
         ∃ r', r' ∈ DB.progress (bulk_update_loop now data count db).2 ∧ continues r r'.
Proof.
  induction data as [|item data IH]; intros count db Hdb r Hr; simpl.
  - exists r. split; [exact Hr|apply continues_refl].
  - destruct (DB.update_or_create now _ _ _ _ db) as [e|[[obj created] d]] eqn:Hu.
    + exists r. split; [exact Hr|apply continues_refl].
    + destruct (update_or_create_continues _ _ _ _ _ _ _ _ _ Hdb Hu r Hr) as (r1 & Hr1 & H1).
      destruct (IH (count + 1) d (update_or_create_consistent _ _ _ _ _ _ _ _ _ Hdb Hu)
                  r1 Hr1) as (r' & Hr' & H').
      exists r'. split; [exact Hr'|]. eapply continues_trans; eauto.
Qed.

(** X15: whatever a bulk update answers, every progress row that was
    there before is still there after, under the key it had, for the
    same pair, with the start it had and with the completion time it had
    when that was set. *)
Theorem bulk_update_keeps_rows (now : Z) data db (r : LearningProgress.t) :
  consistent db → r ∈ DB.progress db →
  ∃ r', r' ∈ DB.progress (bulk_update now data db).2 ∧ continues r r'.
Proof.
  intros Hdb Hr. unfold bulk_update.
  destruct (Serializers.is_valid db data) as [e|[errors|validated]]; simpl.
  - exists r. split; [exact Hr|apply continues_refl].
  - exists r. split; [exact Hr|apply continues_refl].
  - apply bulk_update_loop_continues; assumption.
Qed.

Lemma update_or_create_tables (now user course lessons minutes : Z) db obj
    (created : bool) db' :
  DB.update_or_create now user course lessons minutes db = inr (obj, created, db') →
  DB.users db' = DB.users db ∧ DB.courses db' = DB.courses db.
Proof.
  unfold DB.update_or_create.
  destruct (filter (λ r, LearningProgress.key r = (user, course)) (DB.progress db))
    as [|o [|o' rest]]; [| |discriminate].
  - destruct (DB.save now _ db) as [e|[row d]] eqn:Hs; simpl; [discriminate|].
    intros [= _ _ <-]. apply save_inr in Hs as (c & _ & Hw).
    apply write_inr in Hw as (_ & _ & _ & _ & _ & _ & _ & Hu & Hc & _). auto.
  - destruct (DB.save_update_fields now _ db) as [e|[row d]] eqn:Hs; simpl; [discriminate|].
    intros [= _ _ <-]. apply save_update_fields_inr in Hs as (c & _ & Hw).
    apply write_fields_inr in Hw as (k & _ & _ & _ & _ & _ & Hu & Hc & _). auto.
Qed.

Lemma bulk_update_loop_tables (now : Z) data :
  ∀ (count : Z) db,
    DB.users (bulk_update_loop now data count db).2 = DB.users db
    ∧ DB.courses (bulk_update_loop now data count db).2 = DB.courses db.
Proof.
  induction data as [|item data IH]; intros count db; simpl; [auto|].
  destruct (DB.update_or_create now _ _ _ _ db) as [e|[[obj created] d]] eqn:Hu; [auto|].
  destruct (update_or_create_tables _ _ _ _ _ _ _ _ _ Hu) as [Husers Hcourses].
  destruct (IH (count + 1) d) as [H1 H2]. split; congruence.
Qed.

Lemma valid_tables db db' item :
  DB.users db' = DB.users db → DB.courses db' = DB.courses db →
  valid db item → valid db' item.
Proof.
  unfold valid, Serializers.run_validation, Serializers.validate.
  intros -> ->. auto.
Qed.

(** After the loop of a batch whose users and courses exist, every pair
    of the batch has a row. *)
Lemma bulk_update_loop_pairs (now : Z) data :
  ∀ (count : Z) db,
    consistent db →
    Forall (applicable (DB.users db) (DB.courses db)) data →
    Forall (λ item, 0 ≤ Serializers.lessons_completed item ≤ DB.integer_max
                    ∧ 0 ≤ Serializers.time_spent_minutes item ≤ DB.integer_max) data →
    ∀ item, item ∈ data →
      ∃ r, r ∈ DB.progress (bulk_update_loop now data count db).2
           ∧ LearningProgress.key r
             = (Serializers.user_id item, Serializers.course_id item).
Proof.
  induction data as [|item0 data IH]; intros count db Hdb Happ Hfit item Hitem;
    [inversion Hitem|].
  apply Forall_cons in Happ as [[Huser [c0 Hcourse]] Happ].
  apply Forall_cons in Hfit as [[Hlessons Hminutes] Hfit].
  destruct (update_or_create_applied now (Serializers.user_id item0)
              (Serializers.course_id item0) (Serializers.lessons_completed item0)
              (Serializers.time_spent_minutes item0) db c0 Hdb Hlessons Hminutes
              Huser Hcourse)
    as (obj0 & created & d & obj & Hu & Husers & Hcourses & Hobj & Hkey & _).
  pose proof (update_or_create_consistent _ _ _ _ _ _ _ _ _ Hdb Hu) as Hd.
  simpl bulk_update_loop. rewrite Hu.
  apply elem_of_cons in Hitem as [->|Hitem].
  - destruct (bulk_update_loop_continues now data (count + 1) d Hd obj Hobj)
      as (r' & Hr' & _ & Hk & _).
    exists r'. split; [exact Hr'|congruence].
  - apply IH; [exact Hd| |exact Hfit|exact Hitem]. rewrite Husers, Hcourses. exact Happ.
Qed.

(** The loop of a batch whose pairs all have a row adds no row. *)
Lemma bulk_update_loop_no_growth (now : Z) data :
  ∀ (count : Z) db,
    consistent db →
    Forall (applicable (DB.users db) (DB.courses db)) data →
    Forall (λ item, 0 ≤ Serializers.lessons_completed item ≤ DB.integer_max
                    ∧ 0 ≤ Serializers.time_spent_minutes item ≤ DB.integer_max) data →
    (∀ item, item ∈ data →
       ∃ r, r ∈ DB.progress db
            ∧ LearningProgress.key r
              = (Serializers.user_id item, Serializers.course_id item)) →
    ∃ db', bulk_update_loop now data count db
           = (HTTP_200_OK (count + Z.of_nat (length data)), db')
           ∧ length (DB.progress db') = length (DB.progress db).
Proof.
  induction data as [|item0 data IH]; intros count db Hdb Happ Hfit Hpairs.
  - exists db. split; [simpl; do 2 f_equal; lia|reflexivity].
  - apply Forall_cons in Happ as [[Huser [c0 Hcourse]] Happ].
    apply Forall_cons in Hfit as [[Hlessons Hminutes] Hfit].
    destruct (update_or_create_applied now (Serializers.user_id item0)
                (Serializers.course_id item0) (Serializers.lessons_completed item0)
                (Serializers.time_spent_minutes item0) db c0 Hdb Hlessons Hminutes
                Huser Hcourse)
      as (obj & created & d & row & Hu & Husers & Hcourses & _).
    pose proof (update_or_create_consistent _ _ _ _ _ _ _ _ _ Hdb Hu) as Hd.
    assert (Hlen : length (DB.progress d) = length (DB.progress db)).
    { destruct (update_or_create_in_place _ _ _ _ _ _ _ _ _ Hdb Hu)
        as [(_ & Hnone & _)|(_ & _ & Hlen)]; [|exact Hlen].
      exfalso. destruct (Hpairs item0 (list_elem_of_here _ _)) as (r & Hr & Hk).
      assert (Hin : r ∈ records db (Serializers.user_id item0) (Serializers.course_id item0))
        by (apply list_elem_of_filter; auto).
      rewrite Hnone in Hin. inversion Hin. }
    destruct (IH (count + 1) d Hd) as (db' & Hloop & Hlen').
    { rewrite Husers, Hcourses. exact Happ. }
    { exact Hfit. }
    { intros item Hitem.
      destruct (Hpairs item (list_elem_of_further _ _ _ Hitem)) as (r & Hr & Hk).
      destruct (update_or_create_continues _ _ _ _ _ _ _ _ _ Hdb Hu r Hr)
        as (r' & Hr' & _ & Hk' & _).
      exists r'. split; [exact Hr'|congruence]. }
    exists db'. split; [|congruence].
    simpl bulk_update_loop. rewrite Hu, Hloop. do 2 f_equal. simpl length. lia.
Qed.

(** X16: a valid batch whose integers are in the range that every
    database holds can be sent again: the second bulk update is answered
    as the first, 200 with the number of items, and adds no progress
    row. *)
Theorem bulk_update_retry (now now' : Z) data db :
  consistent db → unique_ids db → Forall (valid db) data → Forall storable data →
  ∃ db1 db2,
    bulk_update now data db = (HTTP_200_OK (Z.of_nat (length data)), db1)
    ∧ bulk_update now' data db1 = (HTTP_200_OK (Z.of_nat (length data)), db2)
    ∧ length (DB.progress db2) = length (DB.progress db1).
Proof.
  intros Hdb Hids Hall Hstorable.
  assert (Happ : Forall (applicable (DB.users db) (DB.courses db)) data).
  { eapply Forall_impl; [exact Hall|]. intros item. apply valid_applicable. }
  assert (Hfit : Forall (λ item, 0 ≤ Serializers.lessons_completed item ≤ DB.integer_max
                                 ∧ 0 ≤ Serializers.time_spent_minutes item ≤ DB.integer_max)
                   data).
  { rewrite Forall_forall in Hall, Hstorable. apply Forall_forall.
    intros item Hitem. eapply storable_fits; eauto. }
  destruct (bulk_update_loop_applied now data 0 db Hdb Happ Hfit) as (db1 & Hloop & _).
  destruct (bulk_update_loop_tables now data 0 db) as [Husers Hcourses].
  pose proof (bulk_update_loop_consistent now data 0 db Hdb) as Hdb1.
  pose proof (bulk_update_loop_pairs now data 0 db Hdb Happ Hfit) as Hpairs.
  rewrite Hloop in Husers, Hcourses, Hdb1, Hpairs. simpl in Husers, Hcourses, Hdb1, Hpairs.
  assert (Hids1 : unique_ids db1).
  { destruct Hids. unfold unique_ids. rewrite Husers, Hcourses. auto. }
  assert (Hall1 : Forall (valid db1) data).
  { eapply Forall_impl; [exact Hall|]. intros item. apply valid_tables; assumption. }
  destruct (bulk_update_loop_no_growth now' data 0 db1 Hdb1) as (db2 & Hloop2 & Hlen);
    [rewrite Husers, Hcourses; exact Happ|exact Hfit|exact Hpairs|].
  exists db1, db2. unfold bulk_update.
  rewrite (proj1 (is_valid_spec db data Hids) Hall).
  rewrite (proj1 (is_valid_spec db1 data Hids1) Hall1). auto.
Qed.

Lemma bulk_update_retry_witness :
  ∃ db1 db2,
    bulk_update 100 Examples.valid_batch Examples.db1 = (HTTP_200_OK 2, db1)
    ∧ bulk_update 300 Examples.valid_batch db1 = (HTTP_200_OK 2, db2)
    ∧ length (DB.progress db2) = length (DB.progress db1).
Proof.
  apply (bulk_update_retry 100 300 Examples.valid_batch Examples.db1).
  - constructor; simpl; constructor.
  - split; simpl; (apply NoDup_cons; split; [inversion 1|constructor]).
  - repeat constructor.
  - repeat constructor; unfold DB.integer_safe; simpl; lia.
Defined.

Lemma bulk_update_keeps_rows_witness :
  ∃ r', r' ∈ DB.progress (bulk_update 300 Examples.excess_batch Examples.db2).2
        ∧ LearningProgress.completed_at r' = Some 100.
Proof.
  assert (Hdb : consistent Examples.db2).
  { constructor; vm_compute; repeat constructor; try (inversion 1).
    eexists. split; reflexivity. }
  set (r := LearningProgress.Build (Some 1) 1 1 10 1 (Py.truediv 10 10 * 100)%Q
              100 100 (Some 100) 30).
  assert (Hr : r ∈ DB.progress Examples.db2) by (vm_compute; constructor).
  destruct (bulk_update_keeps_rows 300 Examples.excess_batch Examples.db2 r Hdb Hr)
    as (r' & Hr' & _ & _ & _ & Hdone).
  exists r'. split; [exact Hr'|]. apply Hdone. reflexivity.
Defined.

End BulkKeeps.

(** * Referential integrity and the single-record validator *)

Section Integrity.

Import System Views.
Local Open Scope Q_scope.

Implicit Types (db : DB.t) (self row obj : LearningProgress.t)
  (item : Serializers.BulkItem) (data : list Serializers.BulkItem).

Lemma referential_tables db db' :
  DB.users db' = DB.users db → DB.courses db' = DB.courses db →
  Forall (λ r, r ∈ DB.progress db
               ∨ (Exists (λ u, User.id u = LearningProgress.user_id r) (DB.users db)
                  ∧ Exists (λ c, Course.id c = LearningProgress.course_id r)
                      (DB.courses db)))
    (DB.progress db') →
  referential db → referential db'.
Proof.
  unfold referential. intros -> -> Hrows Href.
  rewrite Forall_forall in *. intros r Hr.
  destruct (Hrows r Hr) as [Hold|Hnew]; [exact (Href r Hold)|exact Hnew].
Qed.

Lemma save_referential (now : Z) self db row db' :
  referential db → DB.save now self db = inr (row, db') → referential db'.
Proof.
  intros Href Hs. apply save_inr in Hs as (c & Hc & Hw).
  apply get_inr in Hc as (Hc & Hid & _).
  pose proof (save_key now c self) as Hkey.
  apply write_inr in Hw as (_ & Huser & Hk & _ & _ & _ & _ & Husers & Hcourses & Hcases).
  rewrite Hkey in Hk. unfold LearningProgress.key in Hk, Hkey.
  injection Hk as Hru Hrc. injection Hkey as Hsu Hsc. rewrite Hsu in Huser.
  assert (Hrow : Exists (λ u, User.id u = LearningProgress.user_id row) (DB.users db)
                 ∧ Exists (λ c, Course.id c = LearningProgress.course_id row)
                     (DB.courses db)).
  { rewrite Hru, Hrc. split; [exact Huser|]. apply Exists_exists. eauto. }
  apply (referential_tables db db' Husers Hcourses); [|exact Href].
  apply Forall_forall. intros r Hr.
  destruct Hcases as [(_ & _ & Hrows & _)
                     |[(k & _ & _ & _ & Hrows & _)|(k & _ & _ & _ & Hrows & _)]];
    rewrite Hrows in Hr.
  - apply elem_of_app in Hr as [Hr|Hr]; [left; exact Hr|].
    apply list_elem_of_singleton in Hr. subst r. right. exact Hrow.
  - apply list_elem_of_fmap in Hr as (r0 & -> & Hr0).
    case_decide; [right; exact Hrow|left; exact Hr0].
  - apply elem_of_app in Hr as [Hr|Hr]; [left; exact Hr|].
    apply list_elem_of_singleton in Hr. subst r. right. exact Hrow.
Qed.

Lemma update_or_create_referential (now user course lessons minutes : Z) db obj
    (created : bool) db' :
  referential db →
  DB.update_or_create now user course lessons minutes db = inr (obj, created, db') →
  referential db'.
Proof.
  intros Href. unfold DB.update_or_create.
  destruct (filter (λ r, LearningProgress.key r = (user, course)) (DB.progress db))
    as [|o [|o' rest]]; [| |discriminate].
  - destruct (DB.save now _ db) as [e|[row d]] eqn:Hs; simpl; [discriminate|].
    intros [= _ _ <-]. eapply save_referential; eauto.
  - destruct (DB.save_update_fields now _ db) as [e|[row d]] eqn:Hs; simpl; [discriminate|].
    intros [= _ _ <-]. apply save_update_fields_inr in Hs as (c & _ & Hw).
    apply write_fields_inr in Hw as (k & _ & _ & _ & _ & _ & Husers & Hcourses & Hrows & _).
    apply (referential_tables db d Husers Hcourses); [|exact Href].
    apply Forall_forall. intros r Hr. rewrite Hrows in Hr.
    apply list_elem_of_fmap in Hr as (r0 & -> & Hr0).
    case_decide; [right|left; exact Hr0].
    unfold referential in Href. rewrite Forall_forall in Href. exact (Href r0 Hr0).
Qed.

Lemma bulk_update_loop_referential (now : Z) data :
  ∀ (count : Z) db, referential db → referential (bulk_update_loop now data count db).2.
Proof.
  induction data as [|item data IH]; intros count db Href; simpl; [exact Href|].
  destruct (DB.update_or_create now _ _ _ _ db) as [e|[[obj created] d]] eqn:Hu;
    [exact Href|].
  apply IH. eapply update_or_create_referential; eauto.
Qed.

(** X17: the requests that write the progress table keep it referential:
    when every progress row refers to a user and a course of the tables,
    it still does after a bulk update, a single create or update, the
    deletion of a row, and the deletion of a course or of a user with the
    rows that refer to it. *)
Theorem referential_kept db :
  referential db →
  (∀ now data, referential (bulk_update now data db).2)
  ∧ (∀ now user course lessons current minutes obj db',
       create now user course lessons current minutes db = inr (obj, db') →
       referential db')
  ∧ (∀ now pk user course lessons current minutes obj db',
       update now pk user course lessons current minutes db = inr (obj, db') →
       referential db')
  ∧ (∀ pk, referential (destroy pk db))
  ∧ (∀ course, referential (destroy_course course db))
  ∧ (∀ user, referential (destroy_user user db)).
Proof.
  intros Href. split; [|split; [|split; [|split; [|split]]]].
  - intros now data. unfold bulk_update.
    destruct (Serializers.is_valid db data) as [e|[errors|validated]]; simpl; auto.
    apply bulk_update_loop_referential, Href.
  - intros now user course lessons current minutes obj db' Hc. unfold create in Hc.
    do 6 (apply bind_inr in Hc as (? & _ & Hc)). eapply save_referential; eauto.
  - intros now pk user course lessons current minutes obj db' Hu. unfold update in Hu.
    do 7 (apply bind_inr in Hu as (? & _ & Hu)). eapply save_referential; eauto.
  - intros pk. unfold referential, destroy in *. simpl.
    rewrite Forall_forall in *. intros r Hr.
    apply list_elem_of_filter in Hr as [_ Hr]. exact (Href r Hr).
  - intros course. unfold referential, destroy_course in *. simpl.
    rewrite Forall_forall in *. intros r Hr.
    apply list_elem_of_filter in Hr as [Hne Hr].
    destruct (Href r Hr) as [Hu Hc]. split; [exact Hu|].
    apply Exists_exists in Hc as (c & Hc & Hid). apply Exists_exists.
    exists c. split; [|exact Hid]. apply list_elem_of_filter. split; [congruence|exact Hc].
  - intros user. unfold referential, destroy_user in *. simpl.
    rewrite Forall_forall in *. intros r Hr.
    apply list_elem_of_filter in Hr as [Hne Hr].
    destruct (Href r Hr) as [Hu Hc]. split; [|exact Hc].
    apply Exists_exists in Hu as (u & Hu & Hid). apply Exists_exists.
    exists u. split; [|exact Hid]. apply list_elem_of_filter. split; [congruence|exact Hu].
Qed.

Lemma referential_kept_witness :
  referential (bulk_update 300 Examples.excess_batch Examples.db1).2
  ∧ referential (destroy_course 1 Examples.db2)
  ∧ DB.progress (destroy_course 1 Examples.db2) = [].
Proof.
  assert (H1 : referential Examples.db1) by constructor.
  assert (H2 : referential Examples.db2).
  { vm_compute. repeat constructor. }
  destruct (referential_kept Examples.db1 H1) as (Hbulk & _).
  destruct (referential_kept Examples.db2 H2) as (_ & _ & _ & _ & Hcourse & _).
  split; [apply Hbulk|]. split; [apply Hcourse|reflexivity].
Defined.

(** X18: a record that the single-record create stores has no more
    lessons than its course; when the lessons are not negative its
    percentage is within [0, 100]. *)
Theorem create_within_course (now user course lessons current minutes : Z) db obj db' :
  create now user course lessons current minutes db = inr (obj, db') →
  ∃ c, ORM.get (λ c, Course.id c = course) (DB.courses db) = inr c
    ∧ obj ∈ DB.progress db'
    ∧ LearningProgress.lessons_completed obj = lessons
    ∧ (lessons ≤ Course.total_lessons c)%Z
    ∧ ((0 ≤ lessons)%Z →
       0 <= LearningProgress.completion_percentage obj
       ∧ LearningProgress.completion_percentage obj <= 100).
Proof.
  unfold create. intros Hc.
  apply bind_inr in Hc as (value0 & Hmin & Hc).
  apply validate_min_value_inr in Hmin as [-> _].
  apply bind_inr in Hc as (value & Hv & Hc).
  apply bind_inr in Hc as (current' & _ & Hc).
  apply bind_inr in Hc as (minutes' & _ & Hc).
  apply bind_inr in Hc as (user' & _ & Hc).
  apply bind_inr in Hc as (course' & Hrel & Hs).
  apply validate_related_inr in Hrel as [-> _].
  unfold Serializers.validate_lessons_completed in Hv.
  apply bind_inr in Hv as (c & Hget & Hcheck).
  case_decide as Hlt; [discriminate|]. injection Hcheck as <-.
  destruct (save_stores _ _ _ _ _ Hs) as (c' & Hget' & Hpct & _ & Hin).
  simpl in Hget'. rewrite Hget in Hget'. injection Hget' as <-.
  apply save_inr in Hs as (c' & _ & Hw).
  apply write_inr in Hw as (_ & _ & _ & Hl & _).
  rewrite save_lessons_completed in Hl. simpl in Hl.
  exists c. split; [exact Hget|]. split; [exact Hin|]. split; [exact Hl|].
  split; [lia|]. intros H0. rewrite Hpct.
  destruct (Z.ltb_spec 0 (Course.total_lessons c)) as [HL|HL].
  - rewrite save_percentage_pos by exact HL. simpl.
    apply percentage_range; [lia|exact HL].
  - rewrite save_percentage_guard by exact HL. simpl. split; discriminate.
Qed.

Lemma create_within_course_witness :
  ∃ obj db', create 100 1 1 7 1 30 Examples.db1 = inr (obj, db')
    ∧ LearningProgress.completion_percentage obj <= 100.
Proof.
  eexists _, _. split; [vm_compute; reflexivity|].
  match goal with
  | |- LearningProgress.completion_percentage ?o <= _ =>
      destruct (create_within_course 100 1 1 7 1 30 Examples.db1 o _ eq_refl)
        as (c & _ & _ & _ & _ & Hrange)
  end.
  apply Hrange. lia.
Defined.

(** X19: the validation of a bulk item stops at the first failing stage:
    a negative field gives field errors only, whoever the user and the
    course are; otherwise a missing user is reported by its id, also when
    the course is missing too; otherwise a missing course is reported by
    its id. *)
Theorem run_validation_order db item :
  ((Serializers.lessons_completed item < 0 ∨ Serializers.time_spent_minutes item < 0)%Z →
   ∃ errs, Serializers.run_validation db item = inr (inl errs)
           ∧ errs ≠ []
           ∧ Forall (λ e, e.1 = "lessons_completed" ∨ e.1 = "time_spent_minutes") errs)
  ∧ ((0 ≤ Serializers.lessons_completed item)%Z →
     (0 ≤ Serializers.time_spent_minutes item)%Z →
     (¬ Exists (λ u, User.id u = Serializers.user_id item) (DB.users db) →
      Serializers.run_validation db item
      = inr (inl [("non_field_errors",
                   ["User with id " +:+ pretty (Serializers.user_id item)
                      +:+ " does not exist"])]))
     ∧ (∀ u, ORM.get (λ u, User.id u = Serializers.user_id item) (DB.users db) = inr u →
             ¬ Exists (λ c, Course.id c = Serializers.course_id item) (DB.courses db) →
             Serializers.run_validation db item
             = inr (inl [("non_field_errors",
                          ["Course with id " +:+ pretty (Serializers.course_id item)
                             +:+ " does not exist"])]))).
Proof.
  unfold Serializers.run_validation, Serializers.field_errors. split.
  - intros Hneg. do 2 case_decide; try lia; simpl;
      (eexists; split; [reflexivity|]; split; [discriminate|]);
      repeat (apply Forall_cons; split; [simpl; auto|]); apply Forall_nil; exact I.
  - intros Hl Hm. rewrite !decide_False by lia. simpl. unfold Serializers.validate. split.
    + intros Hno. rewrite (get_missing _ _ Hno). reflexivity.
    + intros u Hu Hno. rewrite Hu, (get_missing _ _ Hno). reflexivity.
Qed.

Lemma run_validation_order_witness :
  Serializers.run_validation Examples.db1 (Serializers.Build_BulkItem 99 77 3 10)
  = inr (inl [("non_field_errors", ["User with id 99 does not exist"])])
  ∧ ∃ errs, Serializers.run_validation Examples.db1
              (Serializers.Build_BulkItem 99 77 (-3) 10) = inr (inl errs)
            ∧ errs ≠ [].
Proof.
  destruct (run_validation_order Examples.db1 (Serializers.Build_BulkItem 99 77 3 10))
    as [_ Hexists].
  destruct (run_validation_order Examples.db1 (Serializers.Build_BulkItem 99 77 (-3) 10))
    as [Hfields _].
  split.
  - destruct Hexists as [Huser _]; [simpl; lia|simpl; lia|].
    apply Huser. intros Hex. apply Exists_exists in Hex as (u & Hu & Hid).
    apply list_elem_of_singleton in Hu. subst u. discriminate Hid.
  - destruct Hfields as (errs & Hr & Hne & _); [left; simpl; lia|].
    exists errs. auto.
Defined.

End Integrity.


(** * The progress rows of a user and of a course *)

Section Listings.

Import System Views Serializers.

Lemma last_accessed_sorted (rows : list LearningProgress.t) :
  StronglySorted last_accessed_desc (merge_sort last_accessed_desc rows).
Proof.
  apply StronglySorted_merge_sort.
  - intros r1 r2 r3. unfold last_accessed_desc. lia.
  - intros r1 r2. unfold last_accessed_desc. lia.
Qed.

Lemma course_rows_distinct_users (db : DB.t) (course : Z) :
  consistent db →
  NoDup (LearningProgress.user_id
           <$> filter (λ r, LearningProgress.course_id r = course) (DB.progress db)).
Proof.
  intros [Hkeys _ _].
  induction (DB.progress db) as [|r rows IH]; [constructor|].
  rewrite fmap_cons in Hkeys. apply NoDup_cons in Hkeys as [Hr Hkeys].
  rewrite filter_cons. case_decide as Hc; [|exact (IH Hkeys)].
  rewrite fmap_cons. apply NoDup_cons. split; [|exact (IH Hkeys)].
  intros Hin. apply list_elem_of_fmap in Hin as (r' & Hu & Hr').
  apply list_elem_of_filter in Hr' as [Hc' Hr'].
  apply Hr. apply list_elem_of_fmap. exists r'. split; [|exact Hr'].
  unfold LearningProgress.key. congruence.
Qed.

(** X20: for a course that exists, [students] lists the progress rows of
    the course and no other row, most recently accessed first, and in a
    consistent database it lists every user once; for a course that does
    not exist it fails. *)
Theorem students_rows (db : DB.t) (pk : Z) :
  (¬ Exists (λ c, Course.id c = pk) (DB.courses db) → students db pk = inl DoesNotExist)
  ∧ ∀ rows, students db pk = inr rows →
      rows ≡ₚ filter (λ r, LearningProgress.course_id r = pk) (DB.progress db)
      ∧ StronglySorted last_accessed_desc rows
      ∧ (consistent db → NoDup (LearningProgress.user_id <$> rows)).
Proof.
  unfold students. split.
  - intros Hno. rewrite (get_missing _ _ Hno). reflexivity.
  - intros rows Hs. apply bind_inr in Hs as (c & Hget & Hrows).
    apply get_inr in Hget as (_ & Hid & _). injection Hrows as <-.
    unfold course_learning_progress. rewrite Hid.
    split; [apply merge_sort_Permutation|]. split; [apply last_accessed_sorted|].
    intros Hdb. rewrite merge_sort_Permutation. apply course_rows_distinct_users, Hdb.
Qed.

Lemma students_rows_witness :
  match students Examples.db2 1 with
  | inr rows => length rows = 1%nat
  | inl _ => False
  end
  ∧ students Examples.db2 5 = inl DoesNotExist.
Proof.
  destruct (students_rows Examples.db2 1) as [_ Hok].
  destruct (students_rows Examples.db2 5) as [Hmissing _].
  split.
  - specialize (Hok _ eq_refl). destruct Hok as (Hperm & _).
    apply Permutation_length in Hperm. exact Hperm.
  - apply Hmissing. intros Hex. apply Exists_exists in Hex as (c & Hc & Hid).
    apply list_elem_of_singleton in Hc. subst c. discriminate Hid.
Defined.

(** X21: for a user that exists, [learning_progress] lists the progress
    rows of the user and no other row, most recently accessed first, as
    many as [get_total_courses] counts; for a user that does not exist it
    fails. *)
Theorem learning_progress_rows (db : DB.t) (pk : Z) :
  (¬ Exists (λ u, User.id u = pk) (DB.users db) →
   learning_progress db pk = inl DoesNotExist)
  ∧ ∀ rows, learning_progress db pk = inr rows →
      rows ≡ₚ filter (λ r, LearningProgress.user_id r = pk) (DB.progress db)
      ∧ StronglySorted last_accessed_desc rows
      ∧ ∀ u, User.id u = pk → get_total_courses db u = Z.of_nat (length rows).
Proof.
  unfold learning_progress. split.
  - intros Hno. rewrite (get_missing _ _ Hno). reflexivity.
  - intros rows Hs. apply bind_inr in Hs as (u & Hget & Hrows).
    apply get_inr in Hget as (_ & Hid & _). injection Hrows as <-.
    unfold user_learning_progress. rewrite Hid.
    split; [apply merge_sort_Permutation|]. split; [apply last_accessed_sorted|].
    intros u' Hu'. unfold get_total_courses, user_learning_progress, ORM.Count.
    rewrite Hu', (Permutation_length (merge_sort_Permutation _ _)). reflexivity.
Qed.

Lemma learning_progress_rows_witness :
  match learning_progress Examples.db2 1 with
  | inr rows => length rows = 1%nat
  | inl _ => False
  end
  ∧ learning_progress Examples.db2 5 = inl DoesNotExist.
Proof.
  destruct (learning_progress_rows Examples.db2 1) as [_ Hok].
  destruct (learning_progress_rows Examples.db2 5) as [Hmissing _].
  split.
  - specialize (Hok _ eq_refl). destruct Hok as (Hperm & _).
    apply Permutation_length in Hperm. exact Hperm.
  - apply Hmissing. intros Hex. apply Exists_exists in Hex as (u & Hu & Hid).
    apply list_elem_of_singleton in Hu. subst u. discriminate Hid.
Defined.

End Listings.
